(** * The metaru native EVM interpreter: a shallow embedding

    The interpreter of [src/evm_optimized.cpp] (the variant with direct
    stack writes and the storage plane) is embedded as Rocq functions.
    Machine integers are [Z] with their conversions written out, the planes
    of the shared region are lists, and a handler runs in the [option]
    monad: [None] stands for an access outside a plane's reserved elements,
    which C leaves undefined. *)

From Stdlib Require Import ZArith List Lia Bool.
Import ListNotations.
Open Scope Z_scope.

(** ** Machine integers *)

Module Int.

Definition to_u8 (x : Z) : Z := x mod 2 ^ 8.
Definition to_u32 (x : Z) : Z := x mod 2 ^ 32.
Definition to_u64 (x : Z) : Z := x mod 2 ^ 64.

(** Conversion to a signed type keeps the low bits (two's complement). *)
Definition to_i32 (x : Z) : Z :=
  let u := x mod 2 ^ 32 in if u <? 2 ^ 31 then u else u - 2 ^ 32.
Definition to_i64 (x : Z) : Z :=
  let u := x mod 2 ^ 64 in if u <? 2 ^ 63 then u else u - 2 ^ 64.

Definition is_u8 (x : Z) : Prop := 0 <= x < 2 ^ 8.
Definition is_u64 (x : Z) : Prop := 0 <= x < 2 ^ 64.

End Int.

(** ** Plane access

    A plane is a list; [load] and [store] index it with a machine integer
    and fail outside the reserved elements. *)

Definition M (A : Type) : Type := option A.

Definition ret {A : Type} (a : A) : M A := Some a.

Definition bind {A B : Type} (m : M A) (k : A -> M B) : M B :=
  match m with
  | Some a => k a
  | None => None
  end.

Declare Scope evm_scope.
Notation "x <- m ;; k" := (bind m (fun x => k))
  (at level 61, m at next level, right associativity) : evm_scope.
Notation "' p <- m ;; k" := (bind m (fun x => match x with p => k end))
  (at level 61, p pattern, m at next level, right associativity) : evm_scope.
Open Scope evm_scope.

Section Planes.
Context {A : Type}.

Fixpoint set_nth (n : nat) (a : A) (l : list A) : list A :=
  match l, n with
  | [], _ => []
  | _ :: t, O => a :: t
  | h :: t, S n' => h :: set_nth n' a t
  end.

Definition load (l : list A) (i : Z) : M A :=
  if i <? 0 then None else nth_error l (Z.to_nat i).

Fixpoint store_nth (n : nat) (a : A) (l : list A) : M (list A) :=
  match l, n with
  | [], _ => None
  | _ :: t, O => Some (a :: t)
  | h :: t, S n' => t' <- store_nth n' a t ;; ret (h :: t')
  end.

Definition store (l : list A) (i : Z) (a : A) : M (list A) :=
  if i <? 0 then None else store_nth (Z.to_nat i) a l.

(** [memcpy] out of a plane: [len] elements from index [i]. *)
Fixpoint load_range (l : list A) (i : Z) (len : nat) : M (list A) :=
  match len with
  | O => ret []
  | S len' =>
      a <- load l i ;;
      t <- load_range l (i + 1) len' ;;
      ret (a :: t)
  end.

(** [memcpy] into a plane: the elements of [src] from index [i]. *)
Fixpoint store_range (l : list A) (i : Z) (src : list A) : M (list A) :=
  match src with
  | [] => ret l
  | a :: src' =>
      l' <- store l i a ;;
      store_range l' (i + 1) src'
  end.
End Planes.

(** ** 256-bit helpers *)

Definition WORD_SIZE : Z := 32.

(** A stack word: 32 bytes, big-endian. *)
Definition word : Type := list Z.

Definition is_word (w : word) : Prop :=
  length w = 32%nat /\ Forall Int.is_u8 w.

Definition zero_word : word := repeat 0 32.

(** [for (int i = 24; i < 32; i++) result = (result << 8) | word[i];] *)
Fixpoint word_to_u64_loop (n : nat) (i : nat) (w : word) (result : Z) : Z :=
  match n with
  | O => result
  | S n' =>
      word_to_u64_loop n' (S i) w
        (Z.lor (Int.to_u64 (Z.shiftl result 8)) (nth i w 0))
  end.

Definition word_to_u64 (w : word) : Z := word_to_u64_loop 8 24 w 0.

(** [for (int i = 31; i >= 24; i--) { word[i] = value & 0xFF; value >>= 8; }] *)
Fixpoint u64_to_word_loop (n : nat) (i : nat) (value : Z) (w : word) : word :=
  match n with
  | O => w
  | S n' =>
      u64_to_word_loop n' (pred i) (Z.shiftr value 8)
        (set_nth i (Z.land value 0xFF) w)
  end.

Definition u64_to_word (value : Z) : word :=
  u64_to_word_loop 8 31 value zero_word.

Definition is_zero (w : word) : bool := forallb (fun b => b =? 0) w.

(** [memcmp(a, b, n) == 0] on byte arrays. *)
Fixpoint bytes_eqb (a b : list Z) : bool :=
  match a, b with
  | [], [] => true
  | x :: a', y :: b' => (x =? y) && bytes_eqb a' b'
  | _, _ => false
  end.

(** ** The storage plane ([storage_memory.h]) *)

(** The 7 padding bytes of an entry are never read or written and are left
    out. *)
Record StorageEntry : Type := mkStorageEntry {
  address : list Z;
  key : word;
  value : word;
  original : word;
  is_warm : Z
}.

Module storage.

(** [for (i = 0; i < count; i++) if (memcmp(...) == 0 && memcmp(...) == 0)
    return &entries\[i\]; return nullptr;]  A pointer to an entry is its
    index. *)
Fixpoint find_loop (entries : list StorageEntry) (n : nat) (i : Z)
    (addr : list Z) (k : word) : M (option Z) :=
  match n with
  | O => ret None
  | S n' =>
      e <- load entries i ;;
      if bytes_eqb (address e) addr && bytes_eqb (key e) k
      then ret (Some i)
      else find_loop entries n' (i + 1) addr k
  end.

Definition find (entries : list StorageEntry) (count : Z)
    (addr : list Z) (k : word) : M (option Z) :=
  find_loop entries (Z.to_nat count) 0 addr k.

(** Returns the new entry's pointer, the plane and the updated [*count]. *)
Definition add (entries : list StorageEntry) (count max_slots : Z)
    (addr : list Z) (k : word) : M (option Z * list StorageEntry * Z) :=
  if max_slots <=? count then ret (None, entries, count)
  else
    entries' <- store entries count
      {| address := addr; key := k; value := zero_word;
         original := zero_word; is_warm := 0 |} ;;
    ret (Some count, entries', Int.to_u32 (count + 1)).

End storage.

(** ** The control block ([message_frame_memory.h])

    Only the fields the interpreter reads or writes are kept. *)
Record MessageFrameMemory : Type := mkFrame {
  pc : Z;                  (* int32_t *)
  gas_remaining : Z;       (* int64_t *)
  gas_refund : Z;          (* int64_t *)
  stack_size : Z;          (* int32_t *)
  memory_size : Z;         (* int32_t *)
  state : Z;               (* uint32_t *)
  is_static : Z;           (* uint32_t *)
  code_size : Z;           (* uint32_t *)
  contract : list Z;       (* uint8_t[20] *)
  halt_reason : Z;         (* uint32_t *)
  storage_slot_count : Z;  (* uint32_t *)
  max_storage_slots : Z    (* uint32_t *)
}.

Definition set_pc (v : Z) (f : MessageFrameMemory) : MessageFrameMemory :=
  mkFrame v (gas_remaining f) (gas_refund f) (stack_size f) (memory_size f)
    (state f) (is_static f) (code_size f) (contract f) (halt_reason f)
    (storage_slot_count f) (max_storage_slots f).

Definition set_gas_remaining (v : Z) (f : MessageFrameMemory) : MessageFrameMemory :=
  mkFrame (pc f) v (gas_refund f) (stack_size f) (memory_size f)
    (state f) (is_static f) (code_size f) (contract f) (halt_reason f)
    (storage_slot_count f) (max_storage_slots f).

Definition set_gas_refund (v : Z) (f : MessageFrameMemory) : MessageFrameMemory :=
  mkFrame (pc f) (gas_remaining f) v (stack_size f) (memory_size f)
    (state f) (is_static f) (code_size f) (contract f) (halt_reason f)
    (storage_slot_count f) (max_storage_slots f).

Definition set_stack_size (v : Z) (f : MessageFrameMemory) : MessageFrameMemory :=
  mkFrame (pc f) (gas_remaining f) (gas_refund f) v (memory_size f)
    (state f) (is_static f) (code_size f) (contract f) (halt_reason f)
    (storage_slot_count f) (max_storage_slots f).

Definition set_memory_size (v : Z) (f : MessageFrameMemory) : MessageFrameMemory :=
  mkFrame (pc f) (gas_remaining f) (gas_refund f) (stack_size f) v
    (state f) (is_static f) (code_size f) (contract f) (halt_reason f)
    (storage_slot_count f) (max_storage_slots f).

Definition set_state (v : Z) (f : MessageFrameMemory) : MessageFrameMemory :=
  mkFrame (pc f) (gas_remaining f) (gas_refund f) (stack_size f) (memory_size f)
    v (is_static f) (code_size f) (contract f) (halt_reason f)
    (storage_slot_count f) (max_storage_slots f).

Definition set_halt_reason (v : Z) (f : MessageFrameMemory) : MessageFrameMemory :=
  mkFrame (pc f) (gas_remaining f) (gas_refund f) (stack_size f) (memory_size f)
    (state f) (is_static f) (code_size f) (contract f) v
    (storage_slot_count f) (max_storage_slots f).

Definition set_storage_slot_count (v : Z) (f : MessageFrameMemory) : MessageFrameMemory :=
  mkFrame (pc f) (gas_remaining f) (gas_refund f) (stack_size f) (memory_size f)
    (state f) (is_static f) (code_size f) (contract f) (halt_reason f)
    v (max_storage_slots f).

(** [enum class ExceptionalHaltReason] of [message_frame.h]; an enumerator's
    code is its position. *)
Inductive ExceptionalHaltReason : Type :=
| NONE | INSUFFICIENT_GAS | INVALID_OPERATION | INVALID_JUMP_DESTINATION
| STACK_OVERFLOW | STACK_UNDERFLOW | ILLEGAL_STATE_CHANGE | OUT_OF_BOUNDS
| CODE_TOO_LARGE | INVALID_CODE | PRECOMPILE_ERROR | TOO_MANY_STACK_ITEMS
| INSUFFICIENT_STACK_ITEMS.

Definition halt_code (r : ExceptionalHaltReason) : Z :=
  match r with
  | NONE => 0 | INSUFFICIENT_GAS => 1 | INVALID_OPERATION => 2
  | INVALID_JUMP_DESTINATION => 3 | STACK_OVERFLOW => 4
  | STACK_UNDERFLOW => 5 | ILLEGAL_STATE_CHANGE => 6 | OUT_OF_BOUNDS => 7
  | CODE_TOO_LARGE => 8 | INVALID_CODE => 9 | PRECOMPILE_ERROR => 10
  | TOO_MANY_STACK_ITEMS => 11 | INSUFFICIENT_STACK_ITEMS => 12
  end.

(** ** Execution context *)

Record OpResult : Type := mkOpResult {
  pc_increment : Z;  (* int *)
  gas_cost : Z       (* int *)
}.

(** The frame and the planes its offsets point to: one element of
    [stack_base] is a 32-byte slot, one of [storage_base] a 124-byte entry. *)
Record ExecutionContext : Type := mkCtx {
  frame : MessageFrameMemory;
  stack_base : list word;
  memory_base : list Z;
  code : list Z;
  storage_base : list StorageEntry
}.

Definition set_frame (f : MessageFrameMemory) (ctx : ExecutionContext) :=
  mkCtx f (stack_base ctx) (memory_base ctx) (code ctx) (storage_base ctx).
Definition set_stack (s : list word) (ctx : ExecutionContext) :=
  mkCtx (frame ctx) s (memory_base ctx) (code ctx) (storage_base ctx).
Definition set_memory (m : list Z) (ctx : ExecutionContext) :=
  mkCtx (frame ctx) (stack_base ctx) m (code ctx) (storage_base ctx).
Definition set_storage (s : list StorageEntry) (ctx : ExecutionContext) :=
  mkCtx (frame ctx) (stack_base ctx) (memory_base ctx) (code ctx) s.

(** [ctx->frame->field = v] *)
Definition upd (g : MessageFrameMemory -> MessageFrameMemory)
    (ctx : ExecutionContext) : ExecutionContext :=
  set_frame (g (frame ctx)) ctx.

Definition OpHandler : Type := ExecutionContext -> M (OpResult * ExecutionContext).

(** ** Fast stack helpers

    A pointer into the stack plane is a slot index; [None] is [nullptr]. *)

Definition stack_top (ctx : ExecutionContext) (offset : Z) : option Z :=
  if stack_size (frame ctx) <=? offset then None
  else Some (stack_size (frame ctx) - 1 - offset).

Definition stack_alloc (ctx : ExecutionContext) : option Z * ExecutionContext :=
  if 1024 <=? stack_size (frame ctx) then (None, ctx)
  else (Some (stack_size (frame ctx)),
        upd (set_stack_size (stack_size (frame ctx) + 1)) ctx).

Definition stack_free (ctx : ExecutionContext) (count : Z) : bool * ExecutionContext :=
  if stack_size (frame ctx) <? count then (false, ctx)
  else (true, upd (set_stack_size (stack_size (frame ctx) - count)) ctx).

(** Reading and writing the 32 bytes a stack pointer designates. *)
Definition peek (ctx : ExecutionContext) (p : Z) : M word :=
  load (stack_base ctx) p.

Definition poke (ctx : ExecutionContext) (p : Z) (w : word) : M ExecutionContext :=
  s <- store (stack_base ctx) p w ;; ret (set_stack s ctx).

(** ** Memory helpers *)

Definition ensure_memory (ctx : ExecutionContext) (offset size : Z)
    : M (bool * ExecutionContext) :=
  if size =? 0 then ret (true, ctx)
  else
    let required := Int.to_u64 (offset + size) in
    if Int.to_u64 (memory_size (frame ctx)) <? required then
      let new_size := Int.to_u32 (((required + 31) / 32) * 32) in
      if 1024 * 1024 <? new_size then ret (false, ctx)
      else if Int.to_u32 (memory_size (frame ctx)) <? new_size then
        m <- store_range (memory_base ctx) (memory_size (frame ctx))
               (repeat 0 (Z.to_nat (Int.to_u32 (new_size - memory_size (frame ctx))))) ;;
        ret (true, upd (set_memory_size (Int.to_i32 new_size)) (set_memory m ctx))
      else ret (true, ctx)
    else ret (true, ctx).

(** ** Operation handlers (direct stack writes) *)

Definition error_result : OpResult := mkOpResult (-1) 0.

Definition op_stop : OpHandler := fun ctx =>
  ret (mkOpResult 0 0, upd (set_state 7) ctx).

(** The handlers that read the two top words [a] (top) and [b] (top-1),
    write the result over [b] and pop [a]. *)
Definition binary_op (f : word -> word -> word) (cost : Z) : OpHandler := fun ctx =>
  match stack_top ctx 0, stack_top ctx 1 with
  | Some a, Some b =>
      wa <- peek ctx a ;;
      wb <- peek ctx b ;;
      ctx1 <- poke ctx b (f wa wb) ;;
      ret (mkOpResult 1 cost, snd (stack_free ctx1 1))
  | _, _ => ret (error_result, ctx)
  end.

(** The handlers that rewrite the top word in place. *)
Definition unary_op (f : word -> word) (cost : Z) : OpHandler := fun ctx =>
  match stack_top ctx 0 with
  | Some a =>
      wa <- peek ctx a ;;
      ctx1 <- poke ctx a (f wa) ;;
      ret (mkOpResult 1 cost, ctx1)
  | None => ret (error_result, ctx)
  end.

Definition on_u64 (f : Z -> Z -> Z) (a b : word) : word :=
  u64_to_word (f (word_to_u64 a) (word_to_u64 b)).

Definition bytewise (f : Z -> Z -> Z) (a b : word) : word :=
  map (fun p => f (snd p) (fst p)) (combine a b).

Definition op_add : OpHandler :=
  binary_op (on_u64 (fun val_a val_b => Int.to_u64 (val_a + val_b))) 3.
Definition op_mul : OpHandler :=
  binary_op (on_u64 (fun val_a val_b => Int.to_u64 (val_a * val_b))) 5.
Definition op_sub : OpHandler :=
  binary_op (on_u64 (fun val_a val_b => Int.to_u64 (val_a - val_b))) 3.
Definition op_div : OpHandler :=
  binary_op (on_u64 (fun val_a val_b => if val_b =? 0 then 0 else val_a / val_b)) 5.
Definition op_mod : OpHandler :=
  binary_op (on_u64 (fun val_a val_b => if val_b =? 0 then 0 else val_a mod val_b)) 5.
Definition op_lt : OpHandler :=
  binary_op (on_u64 (fun val_a val_b => if val_a <? val_b then 1 else 0)) 3.
Definition op_gt : OpHandler :=
  binary_op (on_u64 (fun val_a val_b => if val_b <? val_a then 1 else 0)) 3.
Definition op_eq : OpHandler :=
  binary_op (fun a b => u64_to_word (if bytes_eqb a b then 1 else 0)) 3.
Definition op_iszero : OpHandler :=
  unary_op (fun a => u64_to_word (if is_zero a then 1 else 0)) 3.
Definition op_and : OpHandler := binary_op (bytewise Z.land) 3.
Definition op_or : OpHandler := binary_op (bytewise Z.lor) 3.
Definition op_xor : OpHandler := binary_op (bytewise Z.lxor) 3.
Definition op_not : OpHandler :=
  unary_op (map (fun x => Int.to_u8 (Z.lnot x))) 3.

Definition op_pop : OpHandler := fun ctx =>
  match stack_free ctx 1 with
  | (false, _) => ret (error_result, ctx)
  | (true, ctx1) => ret (mkOpResult 1 2, ctx1)
  end.

Definition op_mload : OpHandler := fun ctx =>
  match stack_top ctx 0 with
  | None => ret (error_result, ctx)
  | Some offset_word =>
      w <- peek ctx offset_word ;;
      let offset := Int.to_u32 (word_to_u64 w) in
      r <- ensure_memory ctx offset 32 ;;
      match r with
      | (false, ctx1) => ret (error_result, ctx1)
      | (true, ctx1) =>
          bytes <- load_range (memory_base ctx1) offset 32 ;;
          ctx2 <- poke ctx1 offset_word bytes ;;
          ret (mkOpResult 1 3, ctx2)
      end
  end.

Definition op_mstore : OpHandler := fun ctx =>
  match stack_top ctx 0, stack_top ctx 1 with
  | Some offset_word, Some value_ptr =>
      w <- peek ctx offset_word ;;
      let offset := Int.to_u32 (word_to_u64 w) in
      r <- ensure_memory ctx offset 32 ;;
      match r with
      | (false, ctx1) => ret (error_result, ctx1)
      | (true, ctx1) =>
          v <- peek ctx1 value_ptr ;;
          m <- store_range (memory_base ctx1) offset v ;;
          ret (mkOpResult 1 3, snd (stack_free (set_memory m ctx1) 2))
      end
  | _, _ => ret (error_result, ctx)
  end.

Definition op_mstore8 : OpHandler := fun ctx =>
  match stack_top ctx 0, stack_top ctx 1 with
  | Some offset_word, Some value_word =>
      w <- peek ctx offset_word ;;
      let offset := Int.to_u32 (word_to_u64 w) in
      r <- ensure_memory ctx offset 1 ;;
      match r with
      | (false, ctx1) => ret (error_result, ctx1)
      | (true, ctx1) =>
          v <- peek ctx1 value_word ;;
          m <- store (memory_base ctx1) offset (nth 31 v 0) ;;
          ret (mkOpResult 1 3, snd (stack_free (set_memory m ctx1) 2))
      end
  | _, _ => ret (error_result, ctx)
  end.

Definition set_is_warm (v : Z) (e : StorageEntry) : StorageEntry :=
  mkStorageEntry (address e) (key e) (value e) (original e) v.
Definition set_value (w : word) (e : StorageEntry) : StorageEntry :=
  mkStorageEntry (address e) (key e) w (original e) (is_warm e).
Definition set_original (w : word) (e : StorageEntry) : StorageEntry :=
  mkStorageEntry (address e) (key e) (value e) w (is_warm e).

Definition op_sload : OpHandler := fun ctx =>
  match stack_top ctx 0 with
  | None => ret (error_result, ctx)
  | Some key_word =>
      k <- peek ctx key_word ;;
      found <- storage.find (storage_base ctx)
                 (storage_slot_count (frame ctx)) (contract (frame ctx)) k ;;
      match found with
      | Some entry =>
          e <- load (storage_base ctx) entry ;;
          ctx1 <- poke ctx key_word (value e) ;;
          let cost := if is_warm e =? 0 then 2100 else 100 in
          s <- store (storage_base ctx1) entry (set_is_warm 1 e) ;;
          ret (mkOpResult 1 cost, set_storage s ctx1)
      | None =>
          ctx1 <- poke ctx key_word zero_word ;;
          ret (mkOpResult 1 2100, ctx1)
      end
  end.

(** The gas of an SSTORE to an entry that exists (EIP-2200 branches). *)
Definition sstore_gas (is_zero_value was_zero_original was_zero_current : bool)
    (warm : bool) : Z :=
  if is_zero_value then (if warm then 100 else 2100)
  else if was_zero_current && negb was_zero_original then
    (if warm then 100 else 2100)
  else if was_zero_current then 20000
  else (if warm then 100 else 2100).

Definition op_sstore : OpHandler := fun ctx =>
  if negb (is_static (frame ctx) =? 0) then
    ret (error_result, upd (set_halt_reason 6) (upd (set_state 4) ctx))
  else
    match stack_top ctx 0, stack_top ctx 1 with
    | Some key_word, Some value_word =>
        k <- peek ctx key_word ;;
        v <- peek ctx value_word ;;
        found <- storage.find (storage_base ctx)
                   (storage_slot_count (frame ctx)) (contract (frame ctx)) k ;;
        match found with
        | Some entry =>
            e <- load (storage_base ctx) entry ;;
            let is_zero_value := is_zero v in
            let was_zero_original := is_zero (original e) in
            let was_zero_current := is_zero (value e) in
            let warm := negb (is_warm e =? 0) in
            let ctx1 :=
              if is_zero_value && negb was_zero_current
              then upd (set_gas_refund
                          (Int.to_i64 (gas_refund (frame ctx) + 4800))) ctx
              else ctx in
            let cost :=
              sstore_gas is_zero_value was_zero_original was_zero_current warm in
            s <- store (storage_base ctx1) entry (set_is_warm 1 (set_value v e)) ;;
            ret (mkOpResult 1 cost, snd (stack_free (set_storage s ctx1) 2))
        | None =>
            added <- storage.add (storage_base ctx)
                       (storage_slot_count (frame ctx))
                       (max_storage_slots (frame ctx)) (contract (frame ctx)) k ;;
            match added with
            | (None, _, _) =>
                ret (error_result,
                     upd (set_halt_reason 2) (upd (set_state 4) ctx))
            | (Some entry, entries, count) =>
                let ctx1 := upd (set_storage_slot_count count)
                              (set_storage entries ctx) in
                e <- load (storage_base ctx1) entry ;;
                s <- store (storage_base ctx1) entry
                       (set_is_warm 1 (set_original v (set_value v e))) ;;
                ret (mkOpResult 1 20000, snd (stack_free (set_storage s ctx1) 2))
            end
        end
    | _, _ => ret (error_result, ctx)
    end.

(** [dest >= code_size || code\[dest\] != 0x5b]; the byte is read only when
    the first test fails. *)
Definition bad_jump_dest (ctx : ExecutionContext) (dest : Z) : M bool :=
  if code_size (frame ctx) <=? dest then ret true
  else
    c <- load (code ctx) dest ;;
    ret (negb (c =? 0x5b)).

Definition invalid_jump (ctx : ExecutionContext) : OpResult * ExecutionContext :=
  (error_result, upd (set_halt_reason 3) (upd (set_state 4) ctx)).

Definition op_jump : OpHandler := fun ctx =>
  match stack_top ctx 0 with
  | None => ret (error_result, ctx)
  | Some dest_word =>
      w <- peek ctx dest_word ;;
      let dest := Int.to_u32 (word_to_u64 w) in
      bad <- bad_jump_dest ctx dest ;;
      if (bad : bool) then ret (invalid_jump ctx)
      else
        ret (mkOpResult 0 8,
             upd (set_pc (Int.to_i32 dest)) (snd (stack_free ctx 1)))
  end.

Definition op_jumpi : OpHandler := fun ctx =>
  match stack_top ctx 0, stack_top ctx 1 with
  | Some dest_word, Some cond_word =>
      wd <- peek ctx dest_word ;;
      wc <- peek ctx cond_word ;;
      let should_jump := negb (is_zero wc) in
      let dest := Int.to_u32 (word_to_u64 wd) in
      let ctx1 := snd (stack_free ctx 2) in
      if should_jump then
        bad <- bad_jump_dest ctx1 dest ;;
        if (bad : bool) then ret (invalid_jump ctx1)
        else ret (mkOpResult 0 10, upd (set_pc (Int.to_i32 dest)) ctx1)
      else ret (mkOpResult 1 10, ctx1)
  | _, _ => ret (error_result, ctx)
  end.

(** The handlers that allocate a slot and fill it with one word. *)
Definition push_word (w : ExecutionContext -> M word) (r : OpResult) : OpHandler :=
  fun ctx =>
    match stack_alloc ctx with
    | (None, _) => ret (error_result, ctx)
    | (Some item, ctx1) =>
        v <- w ctx1 ;;
        ctx2 <- poke ctx1 item v ;;
        ret (r, ctx2)
    end.

Definition op_pc : OpHandler :=
  push_word (fun ctx => ret (u64_to_word (Int.to_u64 (pc (frame ctx)))))
    (mkOpResult 1 2).

Definition op_gas : OpHandler :=
  push_word (fun ctx => ret (u64_to_word (Int.to_u64 (gas_remaining (frame ctx)))))
    (mkOpResult 1 2).

Definition op_jumpdest : OpHandler := fun ctx => ret (mkOpResult 1 1, ctx).

Definition op_push0 : OpHandler :=
  push_word (fun _ => ret zero_word) (mkOpResult 1 2).

(** The word PUSHn builds: zero everywhere, then the [bytes_to_copy] bytes
    that follow the opcode copied to its end. *)
Definition push_n_word (n : Z) (ctx : ExecutionContext) : M word :=
  let bytes_to_copy :=
    Z.min n (Int.to_i32 (code_size (frame ctx) - pc (frame ctx) - 1)) in
  if 0 <? bytes_to_copy then
    src <- load_range (code ctx) (pc (frame ctx) + 1) (Z.to_nat bytes_to_copy) ;;
    ret (firstn (Z.to_nat (WORD_SIZE - bytes_to_copy)) zero_word ++ src)
  else ret zero_word.

Definition op_push_n (n : Z) : OpHandler :=
  push_word (push_n_word n) (mkOpResult (1 + n) 3).

Definition op_dup_n (n : Z) : OpHandler := fun ctx =>
  match stack_top ctx (n - 1) with
  | None => ret (error_result, ctx)
  | Some source =>
      match stack_alloc ctx with
      | (None, _) => ret (error_result, ctx)
      | (Some dest, ctx1) =>
          w <- peek ctx1 source ;;
          ctx2 <- poke ctx1 dest w ;;
          ret (mkOpResult 1 3, ctx2)
      end
  end.

Definition op_swap_n (n : Z) : OpHandler := fun ctx =>
  match stack_top ctx 0, stack_top ctx n with
  | Some top, Some other =>
      temp <- peek ctx top ;;
      wo <- peek ctx other ;;
      ctx1 <- poke ctx top wo ;;
      ctx2 <- poke ctx1 other temp ;;
      ret (mkOpResult 1 3, ctx2)
  | _, _ => ret (error_result, ctx)
  end.

Definition op_stub : OpHandler := fun ctx => ret (mkOpResult 1 3, ctx).

Definition op_invalid : OpHandler := fun ctx =>
  ret (error_result, upd (set_halt_reason 2) (upd (set_state 4) ctx)).

(** ** The jump table *)

Definition JUMP_TABLE : list OpHandler :=
  [ op_stop;    op_add;     op_mul;     op_sub;     op_div;     op_stub;    op_mod;     op_stub;
    op_stub;    op_stub;    op_stub;    op_stub;    op_stub;    op_stub;    op_stub;    op_stub;
    op_lt;      op_gt;      op_stub;    op_stub;    op_eq;      op_iszero;  op_and;     op_or;
    op_xor;     op_not;     op_stub;    op_stub;    op_stub;    op_stub;    op_stub;    op_stub;
    op_stub;    op_stub;    op_stub;    op_stub;    op_stub;    op_stub;    op_stub;    op_stub;
    op_stub;    op_stub;    op_stub;    op_stub;    op_stub;    op_stub;    op_stub;    op_stub;
    op_stub;    op_stub;    op_stub;    op_stub;    op_stub;    op_stub;    op_stub;    op_stub;
    op_stub;    op_stub;    op_stub;    op_stub;    op_stub;    op_stub;    op_stub;    op_stub;
    op_stub;    op_stub;    op_stub;    op_stub;    op_sload;   op_sstore;  op_stub;    op_stub;
    op_stub;    op_stub;    op_stub;    op_stub;    op_stub;    op_stub;    op_stub;    op_stub;
    op_pop;     op_mload;   op_mstore;  op_mstore8; op_stub;    op_stub;    op_jump;    op_jumpi;
    op_pc;      op_stub;    op_gas;     op_jumpdest; op_stub;   op_stub;    op_stub;    op_push0;
    op_push_n 1;  op_push_n 2;  op_push_n 3;  op_push_n 4;
    op_push_n 5;  op_push_n 6;  op_push_n 7;  op_push_n 8;
    op_push_n 9;  op_push_n 10; op_push_n 11; op_push_n 12;
    op_push_n 13; op_push_n 14; op_push_n 15; op_push_n 16;
    op_push_n 17; op_push_n 18; op_push_n 19; op_push_n 20;
    op_push_n 21; op_push_n 22; op_push_n 23; op_push_n 24;
    op_push_n 25; op_push_n 26; op_push_n 27; op_push_n 28;
    op_push_n 29; op_push_n 30; op_push_n 31; op_push_n 32;
    op_dup_n 1;   op_dup_n 2;   op_dup_n 3;   op_dup_n 4;
    op_dup_n 5;   op_dup_n 6;   op_dup_n 7;   op_dup_n 8;
    op_dup_n 9;   op_dup_n 10;  op_dup_n 11;  op_dup_n 12;
    op_dup_n 13;  op_dup_n 14;  op_dup_n 15;  op_dup_n 16;
    op_swap_n 1;  op_swap_n 2;  op_swap_n 3;  op_swap_n 4;
    op_swap_n 5;  op_swap_n 6;  op_swap_n 7;  op_swap_n 8;
    op_swap_n 9;  op_swap_n 10; op_swap_n 11; op_swap_n 12;
    op_swap_n 13; op_swap_n 14; op_swap_n 15; op_swap_n 16;
    op_stub;    op_stub;    op_stub;    op_stub;    op_stub;    op_stub;    op_stub;    op_stub;
    op_stub;    op_stub;    op_stub;    op_stub;    op_stub;    op_stub;    op_stub;    op_stub;
    op_stub;    op_stub;    op_stub;    op_stub;    op_stub;    op_stub;    op_stub;    op_stub;
    op_stub;    op_stub;    op_stub;    op_stub;    op_stub;    op_stub;    op_stub;    op_stub;
    op_stub;    op_stub;    op_stub;    op_stub;    op_stub;    op_stub;    op_stub;    op_stub;
    op_stub;    op_stub;    op_stub;    op_stub;    op_stub;    op_stub;    op_stub;    op_stub;
    op_stub;    op_stub;    op_stub;    op_stub;    op_stub;    op_stub;    op_stub;    op_stub;
    op_stub;    op_stub;    op_stub;    op_stub;    op_stub;    op_stub;    op_stub;    op_stub;
    op_stub;    op_stub;    op_stub;    op_stub;    op_stub;    op_stub;    op_stub;    op_stub;
    op_stub;    op_stub;    op_stub;    op_stub;    op_stub;    op_stub;    op_stub;    op_stub;
    op_stub;    op_stub;    op_stub;    op_stub;    op_stub;    op_stub;    op_stub;    op_stub;
    op_stub;    op_stub;    op_stub;    op_stub;    op_stub;    op_invalid; op_invalid; op_invalid ].

(** ** The main execution loop ([tracer_callback.h], [execute_message]) *)

Module OperationResult.
Record t : Type := mk {
  gas_cost : Z;      (* int64_t *)
  halt_reason : Z;   (* uint32_t *)
  pc_increment : Z   (* uint32_t *)
}.
End OperationResult.

(** The two function pointers of the tracer; [false] is a null pointer. *)
Record TracerCallbacks : Type := mkTracer {
  trace_pre_execution : bool;
  trace_post_execution : bool
}.

(** What a run does, in order: the upcalls with the frame they are handed,
    and the loop's own actions (a handler called, its result, gas charged). *)
Inductive event : Type :=
| PreExecution (f : MessageFrameMemory)
| Dispatch (opcode : Z)
| HandlerResult (r : OpResult)
| Charge (cost : Z)
| PostExecution (f : MessageFrameMemory) (r : OperationResult.t).

(** How one pass through the loop body ends. *)
Inductive step_result : Type :=
| Next (ctx : ExecutionContext)   (* back to the loop test *)
| Exit (ctx : ExecutionContext)   (* [return] *)
| Undefined.                      (* undefined behaviour *)

Definition halt (st reason : Z) (ctx : ExecutionContext) : ExecutionContext :=
  upd (set_halt_reason reason) (upd (set_state st) ctx).

Definition has_tracer (tracer : option TracerCallbacks) : bool :=
  match tracer with
  | Some t => trace_pre_execution t
  | None => false
  end.

Definition loop_body (tracer : option TracerCallbacks) (ctx : ExecutionContext)
    : list event * step_result :=
  if gas_remaining (frame ctx) <? 3 then ([], Exit (halt 4 1 ctx))
  else
    match load (code ctx) (pc (frame ctx)) with
    | None => ([], Undefined)
    | Some opcode =>
        let pre :=
          if has_tracer tracer then [PreExecution (frame ctx)] else [] in
        match (h <- load JUMP_TABLE opcode ;; h ctx) with
        | None => (pre ++ [Dispatch opcode], Undefined)
        | Some (result, ctx1) =>
            let evs := pre ++ [Dispatch opcode; HandlerResult result] in
            if pc_increment result <? 0 then
              (evs, Exit (if state (frame ctx1) =? 1 then halt 4 4 ctx1 else ctx1))
            else if gas_remaining (frame ctx1) <? gas_cost result then
              (evs, Exit (halt 4 1 ctx1))
            else
              (* no wrap: 0 <= gas_cost <= gas_remaining here *)
              let ctx2 :=
                upd (set_gas_remaining
                       (gas_remaining (frame ctx1) - gas_cost result)) ctx1 in
              let ctx3 :=
                if 0 <? pc_increment result
                then upd (set_pc (Int.to_i32 (pc (frame ctx2) + pc_increment result))) ctx2
                else ctx2 in
              if has_tracer tracer then
                match tracer with
                | Some (mkTracer _ true) =>
                    (evs ++ [Charge (gas_cost result);
                             PostExecution (frame ctx2)
                               (OperationResult.mk (gas_cost result) 0
                                  (Int.to_u32 (pc_increment result)))],
                     Next ctx3)
                | _ => (evs ++ [Charge (gas_cost result)], Undefined)
                end
              else (evs ++ [Charge (gas_cost result)], Next ctx3)
        end
    end.

(** How a run ends. *)
Inductive outcome : Type :=
| Returned (ctx : ExecutionContext)
| Crashed
| OutOfFuel.

(** [while (frame->pc < static_cast<int32_t>(frame->code_size) &&
    frame->state == 1) { ... }  if (frame->state == 1) frame->state = 7;]
    [fuel] bounds the number of passes. *)
Fixpoint dispatch_loop (fuel : nat) (tracer : option TracerCallbacks)
    (ctx : ExecutionContext) : list event * outcome :=
  match fuel with
  | O => ([], OutOfFuel)
  | S fuel' =>
      if (pc (frame ctx) <? Int.to_i32 (code_size (frame ctx)))
         && (state (frame ctx) =? 1)
      then
        match loop_body tracer ctx with
        | (evs, Next ctx') =>
            let (evs', out) := dispatch_loop fuel' tracer ctx' in
            (evs ++ evs', out)
        | (evs, Exit ctx') => (evs, Returned ctx')
        | (evs, Undefined) => (evs, Crashed)
        end
      else
        ([], Returned (if state (frame ctx) =? 1
                       then upd (set_state 7) ctx else ctx))
  end.

Definition execute_message (fuel : nat) (tracer : option TracerCallbacks)
    (ctx : ExecutionContext) : list event * outcome :=
  dispatch_loop fuel tracer (upd (set_state 1) ctx).

(** Passes that [gas_remaining] can pay for, plus the one that stops. *)
Definition fuel_bound (ctx : ExecutionContext) : nat :=
  S (Z.to_nat (gas_remaining (frame ctx))).

(** ** Reading a trace *)

Definition is_pre (e : event) : bool :=
  match e with PreExecution _ => true | _ => false end.
Definition is_post (e : event) : bool :=
  match e with PostExecution _ _ => true | _ => false end.
Definition is_dispatch (e : event) : bool :=
  match e with Dispatch _ => true | _ => false end.
Definition is_success (e : event) : bool :=
  match e with HandlerResult r => 0 <=? pc_increment r | _ => false end.
Definition is_charge (e : event) : bool :=
  match e with Charge _ => true | _ => false end.

Definition count (p : event -> bool) (evs : list event) : nat :=
  length (filter p evs).

(** ** Layout invariants *)

Definition layout_inv (f : MessageFrameMemory) : Prop :=
  0 <= stack_size f <= 1024 /\ memory_size f mod 32 = 0.

Definition observed (P : MessageFrameMemory -> Prop) (e : event) : Prop :=
  match e with
  | PreExecution f => P f
  | PostExecution f _ => P f
  | _ => True
  end.

(** What every handler leaves alone, and what it keeps. *)
Definition handler_ok (h : OpHandler) : Prop :=
  forall ctx r ctx', h ctx = Some (r, ctx') ->
    gas_remaining (frame ctx') = gas_remaining (frame ctx) /\
    code_size (frame ctx') = code_size (frame ctx) /\
    code ctx' = code ctx /\
    0 <= gas_cost r /\
    (0 <= pc_increment r -> 1 <= gas_cost r \/ state (frame ctx') <> 1) /\
    (pc_increment r < 0 ->
     state (frame ctx') = state (frame ctx) \/ state (frame ctx') = 4) /\
    (layout_inv (frame ctx) -> layout_inv (frame ctx')).

(** A big-endian word holding a small number. *)
Definition word_of_byte (b : Z) : word := repeat 0 31 ++ [b].

(** ** Programs and frames used below *)

(** The two ways [execute_message] is called: without a tracer, or with
    both callbacks set. *)
Definition tracer_of (traced : bool) : option TracerCallbacks :=
  if traced then Some (mkTracer true true) else None.

(** JUMPDEST; PUSH1 0; JUMP: jumps back to its first byte forever. *)
Definition jump_cycle : list Z := [0x5b; 0x60; 0x00; 0x56].

(** The frame after a pass that charged [r] to [ctx1]. *)
Definition charged (r : OpResult) (ctx1 : ExecutionContext) : ExecutionContext :=
  upd (set_gas_remaining (gas_remaining (frame ctx1) - gas_cost r)) ctx1.

Definition advanced (r : OpResult) (ctx2 : ExecutionContext) : ExecutionContext :=
  if 0 <? pc_increment r
  then upd (set_pc (Int.to_i32 (pc (frame ctx2) + pc_increment r))) ctx2
  else ctx2.

(** PUSH1 5; PUSH1 3; ADD; STOP *)
Definition simple_add : list Z := [0x60; 0x05; 0x60; 0x03; 0x01; 0x00].

(** PUSH1 0x2A; PUSH1 0x07; SSTORE; PUSH1 0x07; SLOAD; STOP *)
Definition storage_round_trip : list Z :=
  [0x60; 0x2A; 0x60; 0x07; 0x55; 0x60; 0x07; 0x54; 0x00].

(** A shared region with every plane filled with zeros. *)
Definition blank_frame (gas static code_len slots : Z) : MessageFrameMemory :=
  mkFrame 0 gas 0 0 0 0 static code_len (repeat 0xAA 20) 0 0 slots.

Definition blank_ctx (program : list Z) (gas static : Z) : ExecutionContext :=
  mkCtx (blank_frame gas static (Z.of_nat (length program)) 4)
        (repeat zero_word 1024) (repeat 0 64) program
        (repeat (mkStorageEntry (repeat 0 20) zero_word zero_word zero_word 0) 4).

(** A full stack and the single opcode PUSH0. *)
Definition full_stack_ctx : ExecutionContext :=
  upd (set_stack_size 1024) (blank_ctx [0x5f] 100 0).


(** The opcodes whose handler allocates a stack slot: PC, GAS, PUSH0,
    PUSH1..PUSH32 and DUP1..DUP16. *)
Definition allocates_slot (opcode : Z) : bool :=
  (opcode =? 0x58) || (opcode =? 0x5a)
  || ((0x5f <=? opcode) && (opcode <=? 0x8f)).




(** A frame about to run SSTORE of 42 to slot 7, which holds a cold zero. *)
Definition sstore_ctx : ExecutionContext :=
  mkCtx (mkFrame 0 50000 0 2 0 1 0 1 (repeat 0xAA 20) 0 1 4)
        (word_of_byte 42 :: word_of_byte 7 :: repeat zero_word 1022)
        (repeat 0 64) [0x45]
        (mkStorageEntry (repeat 0xAA 20) (word_of_byte 7) zero_word zero_word 0
         :: repeat (mkStorageEntry (repeat 0 20) zero_word zero_word zero_word 0) 3).

(** The frame of the cycle at byte [p] with [n] stack items and [g] gas
    left; [f] gives the fields the cycle never touches. *)
Definition cycle_ctx (p n g : Z) (f : MessageFrameMemory)
    (stack : list word) (mem : list Z) (sto : list StorageEntry) :=
  mkCtx (mkFrame p g (gas_refund f) n (memory_size f) 1 (is_static f) 4
           (contract f) (halt_reason f) (storage_slot_count f)
           (max_storage_slots f))
        stack mem jump_cycle sto.

(** A run that ends in EXCEPTIONAL_HALT / INSUFFICIENT_GAS. *)
Definition out_of_gas (o : outcome) : Prop :=
  exists ctx', o = Returned ctx' /\ state (frame ctx') = 4 /\
               halt_reason (frame ctx') = 1.

(** [sstore_ctx] with the EVM's SSTORE byte, 0x55, as its code. *)
Definition sstore_opcode_ctx : ExecutionContext :=
  mkCtx (frame sstore_ctx) (stack_base sstore_ctx) (memory_base sstore_ctx)
        [0x55] (storage_base sstore_ctx).

(** ** Definitions used by the further properties *)

(** An entry is the one [storage::find] looks for. *)
Definition entry_matches (addr : list Z) (k : word) (e : StorageEntry) : bool :=
  bytes_eqb (address e) addr && bytes_eqb (key e) k.

(** A frame about to run SLOAD of slot 7, which holds a cold 42. *)
Definition sload_ctx : ExecutionContext :=
  mkCtx (mkFrame 0 50000 0 1 0 1 0 1 (repeat 0xAA 20) 0 1 4)
        (word_of_byte 7 :: repeat zero_word 1023)
        (repeat 0 64) [0x44]
        (mkStorageEntry (repeat 0xAA 20) (word_of_byte 7) (word_of_byte 42)
           (word_of_byte 42) 0
         :: repeat (mkStorageEntry (repeat 0 20) zero_word zero_word zero_word 0) 3).

(** A frame about to run SSTORE of 42 to slot 9, which has no entry. *)
Definition sstore_new_ctx : ExecutionContext :=
  mkCtx (mkFrame 0 50000 0 2 0 1 0 1 (repeat 0xAA 20) 0 1 4)
        (word_of_byte 42 :: word_of_byte 9 :: repeat zero_word 1022)
        (repeat 0 64) [0x45]
        (mkStorageEntry (repeat 0xAA 20) (word_of_byte 7) zero_word zero_word 0
         :: repeat (mkStorageEntry (repeat 0 20) zero_word zero_word zero_word 0) 3).

(** [sstore_ctx] in a static frame. *)
Definition static_sstore_ctx : ExecutionContext :=
  mkCtx (mkFrame 0 50000 0 2 0 1 1 1 (repeat 0xAA 20) 0 1 4)
        (stack_base sstore_ctx) (memory_base sstore_ctx) [0x45]
        (storage_base sstore_ctx).

(** A frame about to run SLOAD of slot 9 on the storage plane an earlier
    run left behind. *)
Definition sload_after (ctx1 : ExecutionContext) : ExecutionContext :=
  mkCtx (mkFrame 0 50000 0 1 0 1 0 1 (repeat 0xAA 20) 0
           (storage_slot_count (frame ctx1)) 4)
        (word_of_byte 9 :: repeat zero_word 1023)
        (repeat 0 64) [0x44] (storage_base ctx1).

(** ** Reading a word as a number *)

(** The number a big-endian byte string denotes. *)
Definition word_value (w : list Z) : Z :=
  fold_left (fun acc b => acc * 256 + b) w 0.

(** The frame a handler leaves when it consumed [popped] items, left [w] in
    the slot that is now the top one and touched nothing else. *)
Definition leaves_on_top (ctx ctx' : ExecutionContext) (popped : Z) (w : word)
    : Prop :=
  frame ctx' = set_stack_size (stack_size (frame ctx) - popped) (frame ctx) /\
  load (stack_base ctx') (stack_size (frame ctx') - 1) = Some w /\
  (forall j, 0 <= j -> j <> stack_size (frame ctx') - 1 ->
     load (stack_base ctx') j = load (stack_base ctx) j) /\
  memory_base ctx' = memory_base ctx /\
  storage_base ctx' = storage_base ctx /\
  code ctx' = code ctx.

(** [h] succeeds at [cost], consumes [popped] items and leaves on top a
    word that denotes [v]. *)
Definition computes (h : OpHandler) (ctx : ExecutionContext)
    (popped cost v : Z) : Prop :=
  exists ctx' w,
    h ctx = Some (mkOpResult 1 cost, ctx') /\
    leaves_on_top ctx ctx' popped w /\ is_word w /\ word_value w = v.

(** A frame with [b] on top of [a] (both small numbers) and nothing else. *)
Definition two_items (a b : Z) : ExecutionContext :=
  mkCtx (mkFrame 0 100 0 2 0 1 0 1 (repeat 0xAA 20) 0 0 4)
        (word_of_byte a :: word_of_byte b :: repeat zero_word 1022)
        (repeat 0 64) [0x01]
        (repeat (mkStorageEntry (repeat 0 20) zero_word zero_word zero_word 0) 4).

(** Three items, [c] on top, and the opcode SWAP2. *)
Definition three_items (a b c : Z) : ExecutionContext :=
  mkCtx (mkFrame 0 100 0 3 0 1 0 1 (repeat 0xAA 20) 0 0 4)
        (word_of_byte a :: word_of_byte b :: word_of_byte c
         :: repeat zero_word 1021)
        (repeat 0 64) [0x91]
        (repeat (mkStorageEntry (repeat 0 20) zero_word zero_word zero_word 0) 4).

(** PUSH2 with a single byte left in the code. *)
Definition short_push : ExecutionContext := blank_ctx [0x61; 0xAB] 100 0.

(** A frame at its only opcode with one item on the stack. *)
Definition one_opcode (opcode gas : Z) : ExecutionContext :=
  mkCtx (mkFrame 0 gas 0 1 0 1 0 1 (repeat 0xAA 20) 0 0 4)
        (word_of_byte 9 :: repeat zero_word 1023)
        (repeat 0 64) [opcode]
        (repeat (mkStorageEntry (repeat 0 20) zero_word zero_word zero_word 0) 4).

(** The destination JUMP and JUMPI read from a word: its low 32 bits. *)
Definition jump_target (w : word) : Z := word_value w mod 2 ^ 32.

(** [dest] is inside the code and holds JUMPDEST. *)
Definition valid_target (ctx : ExecutionContext) (dest : Z) : Prop :=
  dest < code_size (frame ctx) /\ load (code ctx) dest = Some 0x5b.

(** [dest] is outside the code, or holds another byte. *)
Definition invalid_target (ctx : ExecutionContext) (dest : Z) : Prop :=
  code_size (frame ctx) <= dest \/
  exists c, load (code ctx) dest = Some c /\ c <> 0x5b.

(** What a pass leaves besides pc, gas and stack height. *)
Definition same_planes (ctx ctx' : ExecutionContext) : Prop :=
  stack_base ctx' = stack_base ctx /\ memory_base ctx' = memory_base ctx /\
  storage_base ctx' = storage_base ctx /\ code ctx' = code ctx.

(** JUMP; STOP; JUMPDEST; STOP with the destination [dest] on top of the
    condition [cond]. *)
Definition jump_ctx (opcode dest cond : Z) : ExecutionContext :=
  mkCtx (mkFrame 0 100 0 2 0 1 0 4 (repeat 0xAA 20) 0 0 4)
        (word_of_byte cond :: word_of_byte dest :: repeat zero_word 1022)
        (repeat 0 64) [opcode; 0x00; 0x5b; 0x00]
        (repeat (mkStorageEntry (repeat 0 20) zero_word zero_word zero_word 0) 4).

(** The offset the memory handlers read from a word: its low 32 bits. *)
Definition memory_offset (w : word) : Z := word_value w mod 2 ^ 32.

(** The memory size after a request for [size > 0] bytes at [offset] that
    is granted. *)
Definition grown_size (ctx : ExecutionContext) (offset size : Z) : Z :=
  if memory_size (frame ctx) <? offset + size
  then (offset + size + 31) / 32 * 32
  else memory_size (frame ctx).

(** A frame with an empty memory of 64 bytes reserved, the word [v] below the
    offset [offset] on the stack and one opcode. *)
Definition memory_ctx (opcode : Z) (v : word) (offset : Z) : ExecutionContext :=
  mkCtx (mkFrame 0 100 0 2 0 1 0 1 (repeat 0xAA 20) 0 0 4)
        (v :: word_of_byte offset :: repeat zero_word 1022)
        (repeat 0 64) [opcode]
        (repeat (mkStorageEntry (repeat 0 20) zero_word zero_word zero_word 0) 4).

(** The offset 0xFFFFFFE0 on the stack of a frame about to run MLOAD. *)
Definition high_offset : word := repeat 0 28 ++ [0xFF; 0xFF; 0xFF; 0xE0].

Definition high_offset_ctx : ExecutionContext :=
  mkCtx (mkFrame 0 100 0 1 0 1 0 1 (repeat 0xAA 20) 0 0 4)
        (high_offset :: repeat zero_word 1023)
        (repeat 0 64) [0x51]
        (repeat (mkStorageEntry (repeat 0 20) zero_word zero_word zero_word 0) 4).

(** ** How a handler may leave [state] and [halt_reason] *)

(** A handler keeps both, or signals an error labelled 2, 3 or 6 with
    [state = 4], or stops the run with [state = 7]. *)
Definition handler_labels (h : OpHandler) : Prop :=
  forall ctx r ctx', h ctx = Some (r, ctx') ->
    (state (frame ctx') = state (frame ctx) /\
     halt_reason (frame ctx') = halt_reason (frame ctx)) \/
    (pc_increment r < 0 /\ state (frame ctx') = 4 /\
     In (halt_reason (frame ctx')) [2; 3; 6]) \/
    (0 <= pc_increment r /\ state (frame ctx') = 7 /\
     halt_reason (frame ctx') = halt_reason (frame ctx)).

(** The two ways a run can end: COMPLETED_SUCCESS with [halt_reason] as it
    came in, or EXCEPTIONAL_HALT with one of five reasons. *)
Definition final_frame (ctx ctx' : ExecutionContext) : Prop :=
  (state (frame ctx') = 7 /\
   halt_reason (frame ctx') = halt_reason (frame ctx)) \/
  (state (frame ctx') = 4 /\ In (halt_reason (frame ctx')) [1; 2; 3; 4; 6]).

(** The gas a run was charged. *)
Fixpoint charges (evs : list event) : Z :=
  match evs with
  | [] => 0
  | Charge cost :: evs' => cost + charges evs'
  | _ :: evs' => charges evs'
  end.

(** The stack items a handler asks [stack_top] or [stack_free] for before
    it does anything else; 0 for a handler that asks for none. *)
Definition operands (opcode : Z) : Z :=
  if existsb (Z.eqb opcode)
       [0x01; 0x02; 0x03; 0x04; 0x06; 0x10; 0x11; 0x14; 0x16; 0x17; 0x18;
        0x45; 0x52; 0x53; 0x57]
  then 2
  else if existsb (Z.eqb opcode) [0x15; 0x19; 0x44; 0x50; 0x51; 0x56] then 1
  else if (0x80 <=? opcode) && (opcode <=? 0x8f) then opcode - 0x7f
  else if (0x90 <=? opcode) && (opcode <=? 0x9f) then opcode - 0x8e
  else 0.

(** The bytes whose table entry is [op_stub]. *)
Definition is_stub (opcode : Z) : bool :=
  existsb (Z.eqb opcode) [0x05; 0x07; 0x12; 0x13; 0x59; 0x5c; 0x5d; 0x5e]
  || ((0x08 <=? opcode) && (opcode <=? 0x0f))
  || ((0x1a <=? opcode) && (opcode <=? 0x43))
  || ((0x46 <=? opcode) && (opcode <=? 0x4f))
  || ((0x54 <=? opcode) && (opcode <=? 0x55))
  || ((0xa0 <=? opcode) && (opcode <=? 0xfc)).

(** The bytes whose table entry is [op_invalid]. *)
Definition is_invalid (opcode : Z) : bool :=
  (0xfd <=? opcode) && (opcode <=? 0xff).

(** A frame whose [code_size] does not fit [int32_t]. *)
Definition huge_code_ctx : ExecutionContext :=
  mkCtx (mkFrame 0 100 0 0 0 0 0 (2 ^ 31) (repeat 0xAA 20) 0 0 4)
        (repeat zero_word 1024) (repeat 0 64) [0x00]
        (repeat (mkStorageEntry (repeat 0 20) zero_word zero_word zero_word 0) 4).

(** [sstore_new_ctx] with less gas than the 20000 a new slot costs. *)
Definition poor_sstore_ctx : ExecutionContext :=
  upd (set_gas_remaining 100) sstore_new_ctx.

(** ** The copying interpreter ([evm_jumptable.cpp])

    The sibling of the interpreter above: its handlers pop their operands
    into local buffers and push the result.  Its context has no storage
    plane; the one of [ExecutionContext] is carried along untouched.  Its
    [word_to_u64], [u64_to_word], [is_zero] and [ensure_memory] have the
    bodies embedded above. *)

Module jumptable.

Definition stack_peek (ctx : ExecutionContext) (offset : Z) : option Z :=
  if stack_size (frame ctx) <=? offset then None
  else Some (stack_size (frame ctx) - 1 - offset).

(** [value] is read only after the test for a full stack. *)
Definition stack_push (ctx : ExecutionContext) (value : M word)
    : M (bool * ExecutionContext) :=
  if 1024 <=? stack_size (frame ctx) then ret (false, ctx)
  else
    w <- value ;;
    s <- store (stack_base ctx) (stack_size (frame ctx)) w ;;
    ret (true, upd (set_stack_size (stack_size (frame ctx) + 1)) (set_stack s ctx)).

(** [stack_pop] with an [out] buffer: the word copied out, or [None] when
    it returns false. *)
Definition stack_pop (ctx : ExecutionContext) : M (option word * ExecutionContext) :=
  if stack_size (frame ctx) =? 0 then ret (None, ctx)
  else
    w <- load (stack_base ctx) (stack_size (frame ctx) - 1) ;;
    ret (Some w, upd (set_stack_size (stack_size (frame ctx) - 1)) ctx).

(** [stack_pop(frame, stack_base, nullptr)] *)
Definition stack_drop (ctx : ExecutionContext) : bool * ExecutionContext :=
  if stack_size (frame ctx) =? 0 then (false, ctx)
  else (true, upd (set_stack_size (stack_size (frame ctx) - 1)) ctx).

(** The end of every handler that pushes a local buffer. *)
Definition push_result (ctx : ExecutionContext) (w : word) (r : OpResult)
    : M (OpResult * ExecutionContext) :=
  ' (ok, ctx1) <- stack_push ctx (ret w) ;;
  if (ok : bool) then ret (r, ctx1) else ret (error_result, ctx1).

Definition op_stop : OpHandler := fun ctx =>
  ret (mkOpResult 0 0, upd (set_state 7) ctx).

Definition binary_op (f : word -> word -> word) (cost : Z) : OpHandler := fun ctx =>
  ' (a, ctx1) <- stack_pop ctx ;;
  match a with
  | None => ret (error_result, ctx1)
  | Some wa =>
      ' (b, ctx2) <- stack_pop ctx1 ;;
      match b with
      | None => ret (error_result, ctx2)
      | Some wb => push_result ctx2 (f wa wb) (mkOpResult 1 cost)
      end
  end.

Definition unary_op (f : word -> word) (cost : Z) : OpHandler := fun ctx =>
  ' (a, ctx1) <- stack_pop ctx ;;
  match a with
  | None => ret (error_result, ctx1)
  | Some wa => push_result ctx1 (f wa) (mkOpResult 1 cost)
  end.

(** [result\[i\] = a\[i\] op b\[i\]] *)
Definition bytewise (f : Z -> Z -> Z) (a b : word) : word :=
  map (fun p => f (fst p) (snd p)) (combine a b).

Definition op_add : OpHandler :=
  binary_op (on_u64 (fun val_a val_b => Int.to_u64 (val_a + val_b))) 3.
Definition op_mul : OpHandler :=
  binary_op (on_u64 (fun val_a val_b => Int.to_u64 (val_a * val_b))) 5.
Definition op_sub : OpHandler :=
  binary_op (on_u64 (fun val_a val_b => Int.to_u64 (val_a - val_b))) 3.
Definition op_div : OpHandler :=
  binary_op (on_u64 (fun val_a val_b => if val_b =? 0 then 0 else val_a / val_b)) 5.
Definition op_mod : OpHandler :=
  binary_op (on_u64 (fun val_a val_b => if val_b =? 0 then 0 else val_a mod val_b)) 5.
Definition op_lt : OpHandler :=
  binary_op (on_u64 (fun val_a val_b => if val_a <? val_b then 1 else 0)) 3.
Definition op_gt : OpHandler :=
  binary_op (on_u64 (fun val_a val_b => if val_b <? val_a then 1 else 0)) 3.
Definition op_eq : OpHandler :=
  binary_op (fun a b => u64_to_word (if bytes_eqb a b then 1 else 0)) 3.
Definition op_iszero : OpHandler :=
  unary_op (fun a => u64_to_word (if is_zero a then 1 else 0)) 3.
Definition op_and : OpHandler := binary_op (bytewise Z.land) 3.
Definition op_or : OpHandler := binary_op (bytewise Z.lor) 3.
Definition op_xor : OpHandler := binary_op (bytewise Z.lxor) 3.
Definition op_not : OpHandler :=
  unary_op (map (fun x => Int.to_u8 (Z.lnot x))) 3.

Definition op_pop : OpHandler := fun ctx =>
  match stack_drop ctx with
  | (false, ctx1) => ret (error_result, ctx1)
  | (true, ctx1) => ret (mkOpResult 1 2, ctx1)
  end.

Definition op_mload : OpHandler := fun ctx =>
  ' (o, ctx1) <- stack_pop ctx ;;
  match o with
  | None => ret (error_result, ctx1)
  | Some offset_word =>
      let offset := Int.to_u32 (word_to_u64 offset_word) in
      r <- ensure_memory ctx1 offset 32 ;;
      match r with
      | (false, ctx2) => ret (error_result, ctx2)
      | (true, ctx2) =>
          result <- load_range (memory_base ctx2) offset 32 ;;
          push_result ctx2 result (mkOpResult 1 3)
      end
  end.

Definition op_mstore : OpHandler := fun ctx =>
  ' (o, ctx1) <- stack_pop ctx ;;
  match o with
  | None => ret (error_result, ctx1)
  | Some offset_word =>
      ' (v, ctx2) <- stack_pop ctx1 ;;
      match v with
      | None => ret (error_result, ctx2)
      | Some value =>
          let offset := Int.to_u32 (word_to_u64 offset_word) in
          r <- ensure_memory ctx2 offset 32 ;;
          match r with
          | (false, ctx3) => ret (error_result, ctx3)
          | (true, ctx3) =>
              m <- store_range (memory_base ctx3) offset value ;;
              ret (mkOpResult 1 3, set_memory m ctx3)
          end
      end
  end.

Definition op_mstore8 : OpHandler := fun ctx =>
  ' (o, ctx1) <- stack_pop ctx ;;
  match o with
  | None => ret (error_result, ctx1)
  | Some offset_word =>
      ' (v, ctx2) <- stack_pop ctx1 ;;
      match v with
      | None => ret (error_result, ctx2)
      | Some value_word =>
          let offset := Int.to_u32 (word_to_u64 offset_word) in
          r <- ensure_memory ctx2 offset 1 ;;
          match r with
          | (false, ctx3) => ret (error_result, ctx3)
          | (true, ctx3) =>
              m <- store (memory_base ctx3) offset (nth 31 value_word 0) ;;
              ret (mkOpResult 1 3, set_memory m ctx3)
          end
      end
  end.

Definition op_jump : OpHandler := fun ctx =>
  ' (o, ctx1) <- stack_pop ctx ;;
  match o with
  | None => ret (error_result, ctx1)
  | Some dest_word =>
      let dest := Int.to_u32 (word_to_u64 dest_word) in
      bad <- bad_jump_dest ctx1 dest ;;
      if (bad : bool) then ret (invalid_jump ctx1)
      else ret (mkOpResult 0 8, upd (set_pc (Int.to_i32 dest)) ctx1)
  end.

Definition op_jumpi : OpHandler := fun ctx =>
  ' (o, ctx1) <- stack_pop ctx ;;
  match o with
  | None => ret (error_result, ctx1)
  | Some dest_word =>
      ' (c, ctx2) <- stack_pop ctx1 ;;
      match c with
      | None => ret (error_result, ctx2)
      | Some cond_word =>
          if negb (is_zero cond_word) then
            let dest := Int.to_u32 (word_to_u64 dest_word) in
            bad <- bad_jump_dest ctx2 dest ;;
            if (bad : bool) then ret (invalid_jump ctx2)
            else ret (mkOpResult 0 10, upd (set_pc (Int.to_i32 dest)) ctx2)
          else ret (mkOpResult 1 10, ctx2)
      end
  end.

Definition op_pc : OpHandler := fun ctx =>
  push_result ctx (u64_to_word (Int.to_u64 (pc (frame ctx)))) (mkOpResult 1 2).

Definition op_gas : OpHandler := fun ctx =>
  push_result ctx (u64_to_word (Int.to_u64 (gas_remaining (frame ctx))))
    (mkOpResult 1 2).

Definition op_jumpdest : OpHandler := fun ctx => ret (mkOpResult 1 1, ctx).

Definition op_push0 : OpHandler := fun ctx =>
  push_result ctx zero_word (mkOpResult 1 2).

Definition op_push_n (n : Z) : OpHandler := fun ctx =>
  value <- push_n_word n ctx ;;
  push_result ctx value (mkOpResult (1 + n) 3).

Definition op_dup_n (n : Z) : OpHandler := fun ctx =>
  match stack_peek ctx (n - 1) with
  | None => ret (error_result, ctx)
  | Some item =>
      ' (ok, ctx1) <- stack_push ctx (load (stack_base ctx) item) ;;
      if (ok : bool) then ret (mkOpResult 1 3, ctx1) else ret (error_result, ctx1)
  end.

Definition op_swap_n (n : Z) : OpHandler := fun ctx =>
  match stack_peek ctx 0, stack_peek ctx n with
  | Some top, Some other =>
      temp <- peek ctx top ;;
      wo <- peek ctx other ;;
      ctx1 <- poke ctx top wo ;;
      ctx2 <- poke ctx1 other temp ;;
      ret (mkOpResult 1 3, ctx2)
  | _, _ => ret (error_result, ctx)
  end.

Definition op_invalid : OpHandler := fun ctx =>
  ret (error_result, upd (set_halt_reason 2) (upd (set_state 4) ctx)).

Definition op_stub : OpHandler := fun ctx => ret (mkOpResult 1 3, ctx).

Definition JUMP_TABLE : list OpHandler :=
  [ op_stop;    op_add;     op_mul;     op_sub;     op_div;     op_stub;    op_mod;     op_stub;
    op_stub;    op_stub;    op_stub;    op_stub;    op_stub;    op_stub;    op_stub;    op_stub;
    op_lt;      op_gt;      op_stub;    op_stub;    op_eq;      op_iszero;  op_and;     op_or;
    op_xor;     op_not;     op_stub;    op_stub;    op_stub;    op_stub;    op_stub;    op_stub;
    op_stub;    op_stub;    op_stub;    op_stub;    op_stub;    op_stub;    op_stub;    op_stub;
    op_stub;    op_stub;    op_stub;    op_stub;    op_stub;    op_stub;    op_stub;    op_stub;
    op_stub;    op_stub;    op_stub;    op_stub;    op_stub;    op_stub;    op_stub;    op_stub;
    op_stub;    op_stub;    op_stub;    op_stub;    op_stub;    op_stub;    op_stub;    op_stub;
    op_stub;    op_stub;    op_stub;    op_stub;    op_stub;    op_stub;    op_stub;    op_stub;
    op_stub;    op_stub;    op_stub;    op_stub;    op_stub;    op_stub;    op_stub;    op_stub;
    op_pop;     op_mload;   op_mstore;  op_mstore8; op_stub;    op_stub;    op_jump;    op_jumpi;
    op_pc;      op_stub;    op_gas;     op_jumpdest; op_stub;   op_stub;    op_stub;    op_push0;
    op_push_n 1;  op_push_n 2;  op_push_n 3;  op_push_n 4;
    op_push_n 5;  op_push_n 6;  op_push_n 7;  op_push_n 8;
    op_push_n 9;  op_push_n 10; op_push_n 11; op_push_n 12;
    op_push_n 13; op_push_n 14; op_push_n 15; op_push_n 16;
    op_push_n 17; op_push_n 18; op_push_n 19; op_push_n 20;
    op_push_n 21; op_push_n 22; op_push_n 23; op_push_n 24;
    op_push_n 25; op_push_n 26; op_push_n 27; op_push_n 28;
    op_push_n 29; op_push_n 30; op_push_n 31; op_push_n 32;
    op_dup_n 1;   op_dup_n 2;   op_dup_n 3;   op_dup_n 4;
    op_dup_n 5;   op_dup_n 6;   op_dup_n 7;   op_dup_n 8;
    op_dup_n 9;   op_dup_n 10;  op_dup_n 11;  op_dup_n 12;
    op_dup_n 13;  op_dup_n 14;  op_dup_n 15;  op_dup_n 16;
    op_swap_n 1;  op_swap_n 2;  op_swap_n 3;  op_swap_n 4;
    op_swap_n 5;  op_swap_n 6;  op_swap_n 7;  op_swap_n 8;
    op_swap_n 9;  op_swap_n 10; op_swap_n 11; op_swap_n 12;
    op_swap_n 13; op_swap_n 14; op_swap_n 15; op_swap_n 16;
    op_stub;    op_stub;    op_stub;    op_stub;    op_stub;    op_stub;    op_stub;    op_stub;
    op_stub;    op_stub;    op_stub;    op_stub;    op_stub;    op_stub;    op_stub;    op_stub;
    op_stub;    op_stub;    op_stub;    op_stub;    op_stub;    op_stub;    op_stub;    op_stub;
    op_stub;    op_stub;    op_stub;    op_stub;    op_stub;    op_stub;    op_stub;    op_stub;
    op_stub;    op_stub;    op_stub;    op_stub;    op_stub;    op_stub;    op_stub;    op_stub;
    op_stub;    op_stub;    op_stub;    op_stub;    op_stub;    op_stub;    op_stub;    op_stub;
    op_stub;    op_stub;    op_stub;    op_stub;    op_stub;    op_stub;    op_stub;    op_stub;
    op_stub;    op_stub;    op_stub;    op_stub;    op_stub;    op_stub;    op_stub;    op_stub;
    op_stub;    op_stub;    op_stub;    op_stub;    op_stub;    op_stub;    op_stub;    op_stub;
    op_stub;    op_stub;    op_stub;    op_stub;    op_stub;    op_stub;    op_stub;    op_stub;
    op_stub;    op_stub;    op_stub;    op_stub;    op_stub;    op_stub;    op_stub;    op_stub;
    op_stub;    op_stub;    op_stub;    op_stub;    op_stub;    op_invalid; op_invalid; op_invalid ].

(** The loop of [execute_message], which is the one above over this
    table. *)
Definition loop_body (tracer : option TracerCallbacks) (ctx : ExecutionContext)
    : list event * step_result :=
  if gas_remaining (frame ctx) <? 3 then ([], Exit (halt 4 1 ctx))
  else
    match load (code ctx) (pc (frame ctx)) with
    | None => ([], Undefined)
    | Some opcode =>
        let pre :=
          if has_tracer tracer then [PreExecution (frame ctx)] else [] in
        match (h <- load JUMP_TABLE opcode ;; h ctx) with
        | None => (pre ++ [Dispatch opcode], Undefined)
        | Some (result, ctx1) =>
            let evs := pre ++ [Dispatch opcode; HandlerResult result] in
            if pc_increment result <? 0 then
              (evs, Exit (if state (frame ctx1) =? 1 then halt 4 4 ctx1 else ctx1))
            else if gas_remaining (frame ctx1) <? gas_cost result then
              (evs, Exit (halt 4 1 ctx1))
            else
              let ctx2 :=
                upd (set_gas_remaining
                       (gas_remaining (frame ctx1) - gas_cost result)) ctx1 in
              let ctx3 :=
                if 0 <? pc_increment result
                then upd (set_pc (Int.to_i32 (pc (frame ctx2) + pc_increment result))) ctx2
                else ctx2 in
              if has_tracer tracer then
                match tracer with
                | Some (mkTracer _ true) =>
                    (evs ++ [Charge (gas_cost result);
                             PostExecution (frame ctx2)
                               (OperationResult.mk (gas_cost result) 0
                                  (Int.to_u32 (pc_increment result)))],
                     Next ctx3)
                | _ => (evs ++ [Charge (gas_cost result)], Undefined)
                end
              else (evs ++ [Charge (gas_cost result)], Next ctx3)
        end
    end.

Fixpoint dispatch_loop (fuel : nat) (tracer : option TracerCallbacks)
    (ctx : ExecutionContext) : list event * outcome :=
  match fuel with
  | O => ([], OutOfFuel)
  | S fuel' =>
      if (pc (frame ctx) <? Int.to_i32 (code_size (frame ctx)))
         && (state (frame ctx) =? 1)
      then
        match loop_body tracer ctx with
        | (evs, Next ctx') =>
            let (evs', out) := dispatch_loop fuel' tracer ctx' in
            (evs ++ evs', out)
        | (evs, Exit ctx') => (evs, Returned ctx')
        | (evs, Undefined) => (evs, Crashed)
        end
      else
        ([], Returned (if state (frame ctx) =? 1
                       then upd (set_state 7) ctx else ctx))
  end.

Definition execute_message (fuel : nat) (tracer : option TracerCallbacks)
    (ctx : ExecutionContext) : list event * outcome :=
  dispatch_loop fuel tracer (upd (set_state 1) ctx).

End jumptable.

(** [h'] does what [h] does whenever [h] succeeds on a frame whose
    [stack_size] is within its bounds. *)
Definition agrees_on_success (h h' : OpHandler) : Prop :=
  forall ctx r ctx',
    0 <= stack_size (frame ctx) <= 1024 ->
    h ctx = Some (r, ctx') -> 0 <= pc_increment r ->
    h' ctx = Some (r, ctx').

(** Code made of bytes, none of them 0x44 or 0x45 (where only the table
    above has handlers). *)
Definition plain_code (c : list Z) : Prop :=
  Forall (fun b => 0 <= b < 256 /\ b <> 0x44 /\ b <> 0x45) c.

(** PUSH1 5; PUSH1 3; ADD; PUSH1 0; MSTORE; STOP *)
Definition add_and_store : list Z :=
  [0x60; 0x05; 0x60; 0x03; 0x01; 0x60; 0x00; 0x52; 0x00].

(** * Verification *)

(** ** Arithmetic facts used for the word helpers *)

Lemma land_0xFF (v : Z) : Z.land v 0xFF = v mod 256.
Proof. change 0xFF with (Z.ones 8). now rewrite Z.land_ones by lia. Qed.

Lemma shiftr_8 (v : Z) : Z.shiftr v 8 = v / 256.
Proof. now rewrite Z.shiftr_div_pow2 by lia. Qed.

Lemma lor_shiftl_byte (r b : Z) :
  0 <= b < 256 -> Z.lor (Z.shiftl r 8) b = r * 256 + b.
Proof.
  intros Hb.
  assert (Hl : Z.land (Z.shiftl r 8) b = 0).
  { apply Z.bits_inj'. intros n Hn.
    rewrite Z.land_spec, Z.bits_0.
    destruct (Z.ltb_spec n 8) as [Hlt | Hge].
    - now rewrite Z.shiftl_spec_low.
    - replace b with (b mod 2 ^ 8) by (apply Z.mod_small; lia).
      rewrite Z.mod_pow2_bits_high by lia. apply andb_false_r. }
  rewrite <- Z.lxor_lor by exact Hl.
  rewrite <- Z.add_nocarry_lxor by exact Hl.
  now rewrite Z.shiftl_mul_pow2 by lia.
Qed.

Lemma lor_wrap_shiftl_byte (r b : Z) :
  0 <= b < 256 ->
  Z.lor (Int.to_u64 (Z.shiftl r 8)) b = (r mod 2 ^ 56) * 256 + b.
Proof.
  intros Hb. unfold Int.to_u64.
  rewrite Z.shiftl_mul_pow2 by lia.
  replace (r * 2 ^ 8 mod 2 ^ 64) with (Z.shiftl (r mod 2 ^ 56) 8).
  - now apply lor_shiftl_byte.
  - rewrite Z.shiftl_mul_pow2 by lia.
    change (2 ^ 64) with (2 ^ 56 * 2 ^ 8).
    rewrite Z.mul_mod_distr_r by lia. reflexivity.
Qed.

Lemma u64_to_word_shape (v : Z) :
  u64_to_word v =
  repeat 0 24 ++
  [ (v / 256 / 256 / 256 / 256 / 256 / 256 / 256) mod 256;
    (v / 256 / 256 / 256 / 256 / 256 / 256) mod 256;
    (v / 256 / 256 / 256 / 256 / 256) mod 256;
    (v / 256 / 256 / 256 / 256) mod 256;
    (v / 256 / 256 / 256) mod 256;
    (v / 256 / 256) mod 256;
    (v / 256) mod 256;
    v mod 256 ].
Proof.
  unfold u64_to_word, zero_word. cbn [u64_to_word_loop repeat set_nth pred app].
  rewrite !shiftr_8, !land_0xFF. reflexivity.
Qed.

Lemma word_to_u64_shape (z : list Z) b7 b6 b5 b4 b3 b2 b1 b0 :
  length z = 24%nat ->
  Forall Int.is_u8 [b7; b6; b5; b4; b3; b2; b1; b0] ->
  word_to_u64 (z ++ [b7; b6; b5; b4; b3; b2; b1; b0]) =
  ((((((b7 * 256 + b6) * 256 + b5) * 256 + b4) * 256 + b3) * 256 + b2) * 256 + b1) * 256 + b0.
Proof.
  intros Hz Hb.
  repeat match goal with H : Forall _ (_ :: _) |- _ => inversion H; subst; clear H end.
  unfold Int.is_u8 in *.
  unfold word_to_u64. cbn [word_to_u64_loop].
  do 8 (rewrite app_nth2 by lia). rewrite Hz. cbn [Nat.sub nth].
  rewrite !lor_wrap_shiftl_byte by lia.
  repeat (rewrite (Z.mod_small _ (2 ^ 56)) by (Z.div_mod_to_equations; lia)). reflexivity.
Qed.

Lemma div_mod_256 (x : Z) : x / 256 * 256 + x mod 256 = x.
Proof. rewrite (Z.div_mod x 256) at 3 by lia. ring. Qed.

Lemma div_256_byte (r b : Z) : 0 <= b < 256 -> (r * 256 + b) / 256 = r.
Proof. intros Hb. rewrite Z.div_add_l by lia. rewrite Z.div_small by lia. ring. Qed.

Lemma mod_256_byte (r b : Z) : 0 <= b < 256 -> (r * 256 + b) mod 256 = b.
Proof.
  intros Hb. rewrite Z.add_comm, Z.mod_add by lia. now apply Z.mod_small.
Qed.

Lemma u64_top_byte (v : Z) :
  Int.is_u64 v -> 0 <= v / 256 / 256 / 256 / 256 / 256 / 256 / 256 < 256.
Proof.
  unfold Int.is_u64. intros Hv.
  rewrite !Z.div_div by lia. split.
  - apply Z.div_pos; lia.
  - apply Z.div_lt_upper_bound; lia.
Qed.

(** C10: [word_to_u64 (u64_to_word v) = v] for every 64-bit [v], the word
    [u64_to_word] builds is 32 bytes long with its first 24 bytes zero, and
    [u64_to_word (word_to_u64 w) = w] for every 32-byte word [w] whose first
    24 bytes are zero. *)
Theorem word_u64_roundtrip :
  (forall v, Int.is_u64 v ->
     word_to_u64 (u64_to_word v) = v /\
     length (u64_to_word v) = 32%nat /\
     firstn 24 (u64_to_word v) = repeat 0 24) /\
  (forall w, is_word w -> firstn 24 w = repeat 0 24 ->
     u64_to_word (word_to_u64 w) = w).
Proof.
  split.
  - intros v Hv.
    rewrite u64_to_word_shape. repeat split; try reflexivity.
    rewrite word_to_u64_shape.
    + rewrite (Z.mod_small _ 256) by now apply u64_top_byte.
      now rewrite !div_mod_256.
    + reflexivity.
    + repeat (apply Forall_cons; [apply Z.mod_pos_bound; lia |]); apply Forall_nil.
  - intros w [Hlen Hbytes] Hz.
    do 33 (destruct w as [| ? w]; try discriminate Hlen).
    cbn [firstn repeat] in Hz. injection Hz as -> -> -> -> -> -> -> -> -> -> -> -> -> -> -> -> -> -> -> -> -> -> -> ->.
    repeat match goal with H : Forall _ (_ :: _) |- _ => inversion H; subst; clear H end.
    unfold Int.is_u8 in *.
    change (?a :: ?b) with (repeat 0 24 ++ skipn 24 (a :: b)) at 1.
    cbn [skipn]. rewrite word_to_u64_shape by (try reflexivity; repeat (apply Forall_cons; [unfold Int.is_u8; lia |]); apply Forall_nil).
    rewrite u64_to_word_shape. cbn [repeat app].
    rewrite ?div_256_byte, ?mod_256_byte by lia.
    rewrite ?div_256_byte, ?mod_256_byte by lia.
    rewrite (Z.mod_small z23) by lia. reflexivity.
Qed.

Lemma word_u64_roundtrip_witness :
  (Int.is_u64 8 /\ is_word (word_of_byte 8) /\
   firstn 24 (word_of_byte 8) = repeat 0 24) /\
  word_to_u64 (u64_to_word 8) = 8 /\
  firstn 24 (u64_to_word 8) = repeat 0 24 /\
  u64_to_word (word_to_u64 (word_of_byte 8)) = word_of_byte 8.
Proof.
  assert (H8 : Int.is_u64 8) by (split; [discriminate | reflexivity]).
  assert (Hw : is_word (word_of_byte 8)).
  { split; [reflexivity |].
    repeat (apply Forall_cons; [split; [discriminate | reflexivity] |]).
    apply Forall_nil. }
  split; [split; [exact H8 | split; [exact Hw | reflexivity]] |].
  split; [exact (proj1 (proj1 word_u64_roundtrip 8 H8)) |].
  split; [exact (proj2 (proj2 (proj1 word_u64_roundtrip 8 H8))) |].
  exact (proj2 word_u64_roundtrip (word_of_byte 8) Hw eq_refl).
Defined.

(** ** Reasoning about handler runs *)

Ltac bool_hyps :=
  repeat match goal with
  | H : (_ <? _) = true |- _ => apply Z.ltb_lt in H
  | H : (_ <? _) = false |- _ => apply Z.ltb_ge in H
  | H : (_ <=? _) = true |- _ => apply Z.leb_le in H
  | H : (_ <=? _) = false |- _ => apply Z.leb_gt in H
  | H : (_ =? _) = true |- _ => apply Z.eqb_eq in H
  | H : (_ =? _) = false |- _ => apply Z.eqb_neq in H
  end.

Lemma bind_inv {A B : Type} (m : M A) (k : A -> M B) (y : B) :
  bind m k = Some y -> exists x, m = Some x /\ k x = Some y.
Proof. destruct m as [x |]; [eauto | discriminate]. Qed.

Lemma ret_inv {A : Type} (x y : A) : ret x = Some y -> x = y.
Proof. now intros [= ->]. Qed.

(** Splits a run [H : h ctx = Some _] along its binds and tests, keeping the
    helper calls folded. *)
Ltac run_handler H :=
  repeat (
    cbv beta zeta in H;
    lazymatch type of H with
    | bind _ _ = Some _ =>
        let E := fresh "E" in
        apply bind_inv in H; destruct H as (? & E & H)
    | None = Some _ => discriminate H
    | match ?x with _ => _ end = Some _ => destruct x eqn:?
    end).

Lemma stack_top_inv ctx offset p :
  stack_top ctx offset = Some p ->
  offset < stack_size (frame ctx) /\ p = stack_size (frame ctx) - 1 - offset.
Proof.
  unfold stack_top. destruct (Z.leb_spec (stack_size (frame ctx)) offset).
  - discriminate.
  - now intros [= <-].
Qed.

Lemma stack_alloc_inv ctx p ctx1 :
  stack_alloc ctx = (p, ctx1) ->
  (p = None /\ ctx1 = ctx /\ 1024 <= stack_size (frame ctx)) \/
  (p = Some (stack_size (frame ctx)) /\
   ctx1 = upd (set_stack_size (stack_size (frame ctx) + 1)) ctx /\
   stack_size (frame ctx) < 1024).
Proof.
  unfold stack_alloc. destruct (Z.leb_spec 1024 (stack_size (frame ctx))).
  - intros [= <- <-]. now left.
  - intros [= <- <-]. now right.
Qed.

Lemma stack_free_inv ctx n b ctx1 :
  stack_free ctx n = (b, ctx1) ->
  (b = false /\ ctx1 = ctx /\ stack_size (frame ctx) < n) \/
  (b = true /\ ctx1 = upd (set_stack_size (stack_size (frame ctx) - n)) ctx /\
   n <= stack_size (frame ctx)).
Proof.
  unfold stack_free. destruct (Z.ltb_spec (stack_size (frame ctx)) n).
  - intros [= <- <-]. now left.
  - intros [= <- <-]. now right.
Qed.

Lemma stack_free_enough ctx n :
  n <= stack_size (frame ctx) ->
  snd (stack_free ctx n) = upd (set_stack_size (stack_size (frame ctx) - n)) ctx.
Proof.
  intros Hn. unfold stack_free.
  destruct (Z.ltb_spec (stack_size (frame ctx)) n); [lia | reflexivity].
Qed.

Lemma poke_inv ctx p w ctx1 :
  poke ctx p w = Some ctx1 ->
  exists s, store (stack_base ctx) p w = Some s /\ ctx1 = set_stack s ctx.
Proof.
  unfold poke. intros H. apply bind_inv in H. destruct H as (s & E & H).
  apply ret_inv in H. eauto.
Qed.

Ltac proj_simpl :=
  cbn [set_frame set_stack set_memory set_storage upd halt invalid_jump
       frame code stack_base memory_base storage_base
       pc gas_remaining gas_refund stack_size memory_size state is_static
       code_size contract halt_reason storage_slot_count max_storage_slots
       set_pc set_gas_remaining set_gas_refund set_stack_size set_memory_size
       set_state set_halt_reason set_storage_slot_count
       gas_cost pc_increment error_result fst snd] in *.

(** Turns the helper calls a run met into facts about the frame. *)
Ltac helper_facts :=
  repeat match goal with
  | H : stack_top _ _ = Some _ |- _ => apply stack_top_inv in H; destruct H as [? ?]
  | H : stack_alloc _ = (_, _) |- _ =>
      apply stack_alloc_inv in H; destruct H as [(? & ? & ?) | (? & ? & ?)]
  | H : stack_free _ _ = (_, _) |- _ =>
      apply stack_free_inv in H; destruct H as [(? & ? & ?) | (? & ? & ?)]
  | H : poke _ _ _ = Some _ |- _ => apply poke_inv in H; destruct H as (? & ? & ?)
  | H : ret _ = Some _ |- _ => apply ret_inv in H
  | H : Some _ = Some _ |- _ => injection H as H
  | H : (_, _) = (_, _) |- _ => injection H as ? ?
  end; subst; try discriminate.

Ltac finish_handler :=
  helper_facts; proj_simpl;
  repeat match goal with
         | |- context [if ?b then _ else _] => destruct b eqn:?
         end;
  proj_simpl;
  rewrite ?stack_free_enough by (proj_simpl; lia);
  unfold layout_inv in *; proj_simpl; bool_hyps;
  repeat split; try reflexivity; try lia; try (left; lia);
  try (right; discriminate); try tauto.

Lemma binary_op_ok f cost : 1 <= cost -> handler_ok (binary_op f cost).
Proof.
  intros Hc ctx r ctx' H. unfold binary_op in H.
  run_handler H. all: finish_handler.
Qed.

Lemma unary_op_ok f cost : 1 <= cost -> handler_ok (unary_op f cost).
Proof.
  intros Hc ctx r ctx' H. unfold unary_op in H.
  run_handler H. all: finish_handler.
Qed.

Lemma push_word_ok w r0 : 1 <= gas_cost r0 -> handler_ok (push_word w r0).
Proof.
  intros Hc ctx r ctx' H. unfold push_word in H.
  run_handler H. all: finish_handler.
Qed.

Lemma to_i32_small (x : Z) : 0 <= x < 2 ^ 31 -> Int.to_i32 x = x.
Proof.
  intros Hx. unfold Int.to_i32. rewrite Z.mod_small by lia.
  destruct (Z.ltb_spec x (2 ^ 31)); lia.
Qed.

Lemma to_u32_mul32 (k : Z) : Int.to_u32 (k * 32) mod 32 = 0.
Proof.
  unfold Int.to_u32.
  rewrite Z.mod_mod_divide by (exists (2 ^ 27); reflexivity).
  apply Z.mod_mul; lia.
Qed.

Lemma to_u32_range (x : Z) : 0 <= Int.to_u32 x < 2 ^ 32.
Proof. apply Z.mod_pos_bound. lia. Qed.

Lemma to_u64_range (x : Z) : 0 <= Int.to_u64 x < 2 ^ 64.
Proof. apply Z.mod_pos_bound. lia. Qed.

(** [ensure_memory] touches the memory plane and [memory_size] only, and
    keeps [memory_size] a multiple of 32. *)
Lemma ensure_memory_inv ctx offset size b ctx1 :
  ensure_memory ctx offset size = Some (b, ctx1) ->
  exists m mem,
    ctx1 = upd (set_memory_size m) (set_memory mem ctx) /\
    (memory_size (frame ctx) mod 32 = 0 -> m mod 32 = 0) /\
    (b = false -> m = memory_size (frame ctx) /\ mem = memory_base ctx).
Proof.
  intros H. unfold ensure_memory in H.
  assert (Hsame : ctx = upd (set_memory_size (memory_size (frame ctx)))
                          (set_memory (memory_base ctx) ctx))
    by (destruct ctx as [[] ? ? ? ?]; reflexivity).
  run_handler H.
  all: apply ret_inv in H; injection H as <- <-.
  all: try (exists (memory_size (frame ctx)), (memory_base ctx);
            repeat split; [exact Hsame | tauto ..]).
  eexists _, _. split; [reflexivity |]. split; [| discriminate].
  intros _. bool_hyps.
  match goal with |- Int.to_i32 (Int.to_u32 ?x) mod 32 = 0 =>
    pose proof (to_u32_range x); rewrite to_i32_small by lia
  end.
  apply to_u32_mul32.
Qed.

Ltac use_ensure_memory :=
  repeat match goal with
  | E : ensure_memory _ _ _ = Some _ |- _ =>
      apply ensure_memory_inv in E; destruct E as (? & ? & ? & ? & ?)
  end.

Lemma op_mload_ok : handler_ok op_mload.
Proof.
  intros ctx r ctx' H. unfold op_mload in H.
  run_handler H. all: use_ensure_memory. all: finish_handler.
Qed.

Lemma op_mstore_ok : handler_ok op_mstore.
Proof.
  intros ctx r ctx' H. unfold op_mstore in H.
  run_handler H. all: use_ensure_memory. all: finish_handler.
Qed.

Lemma op_mstore8_ok : handler_ok op_mstore8.
Proof.
  intros ctx r ctx' H. unfold op_mstore8 in H.
  run_handler H. all: use_ensure_memory. all: finish_handler.
Qed.

Lemma op_stop_ok : handler_ok op_stop.
Proof. intros ctx r ctx' H. unfold op_stop in H. finish_handler. Qed.

Lemma op_pop_ok : handler_ok op_pop.
Proof.
  intros ctx r ctx' H. unfold op_pop in H.
  run_handler H. all: finish_handler.
Qed.

Lemma op_sload_ok : handler_ok op_sload.
Proof.
  intros ctx r ctx' H. unfold op_sload in H.
  run_handler H. all: finish_handler.
Qed.

Lemma sstore_gas_pos a b c d : 1 <= sstore_gas a b c d.
Proof. unfold sstore_gas. destruct a, b, c, d; cbn; lia. Qed.

Lemma storage_add_inv entries count max_slots addr k p entries' count' :
  storage.add entries count max_slots addr k = Some (p, entries', count') ->
  (p = None /\ entries' = entries /\ count' = count /\ max_slots <= count) \/
  (p = Some count /\ count' = Int.to_u32 (count + 1) /\ count < max_slots /\
   store entries count (mkStorageEntry addr k zero_word zero_word 0) = Some entries').
Proof.
  unfold storage.add. destruct (Z.leb_spec max_slots count) as [Hle | Hgt]; intros H.
  - apply ret_inv in H. injection H as <- <- <-. left. auto.
  - apply bind_inv in H. destruct H as (s & E & H). apply ret_inv in H.
    injection H as <- <- <-. right. auto.
Qed.

Lemma op_sstore_ok : handler_ok op_sstore.
Proof.
  intros ctx r ctx' H. unfold op_sstore in H.
  run_handler H.
  all: repeat match goal with
       | E : storage.add _ _ _ _ _ = Some _ |- _ =>
           apply storage_add_inv in E;
           destruct E as [(? & ? & ? & ?) | (? & ? & ? & ?)]
       end.
  all: try match goal with
       | |- context [sstore_gas ?a ?b ?c ?d] =>
           pose proof (sstore_gas_pos a b c d)
       | H : context [sstore_gas ?a ?b ?c ?d] |- _ =>
           pose proof (sstore_gas_pos a b c d)
       end.
  all: finish_handler.
Qed.

Lemma op_jump_ok : handler_ok op_jump.
Proof.
  intros ctx r ctx' H. unfold op_jump, invalid_jump in H.
  run_handler H. all: finish_handler.
Qed.

Lemma op_jumpi_ok : handler_ok op_jumpi.
Proof.
  intros ctx r ctx' H. unfold op_jumpi, invalid_jump in H.
  run_handler H. all: finish_handler.
Qed.

Lemma op_dup_n_ok n : handler_ok (op_dup_n n).
Proof.
  intros ctx r ctx' H. unfold op_dup_n in H.
  run_handler H. all: finish_handler.
Qed.

Lemma op_swap_n_ok n : handler_ok (op_swap_n n).
Proof.
  intros ctx r ctx' H. unfold op_swap_n in H.
  run_handler H. all: finish_handler.
Qed.

Lemma op_stub_ok : handler_ok op_stub.
Proof. intros ctx r ctx' H. unfold op_stub in H. finish_handler. Qed.

Lemma op_jumpdest_ok : handler_ok op_jumpdest.
Proof. intros ctx r ctx' H. unfold op_jumpdest in H. finish_handler. Qed.

Lemma op_invalid_ok : handler_ok op_invalid.
Proof. intros ctx r ctx' H. unfold op_invalid in H. finish_handler. Qed.

Lemma jump_table_ok : Forall handler_ok JUMP_TABLE.
Proof.
  unfold JUMP_TABLE.
  repeat (apply Forall_cons;
    [ first [ apply op_stub_ok | apply op_stop_ok | apply op_invalid_ok
            | apply op_jumpdest_ok | apply op_pop_ok | apply op_mload_ok
            | apply op_mstore_ok | apply op_mstore8_ok | apply op_sload_ok
            | apply op_sstore_ok | apply op_jump_ok | apply op_jumpi_ok
            | apply op_dup_n_ok | apply op_swap_n_ok
            | apply push_word_ok; cbn; lia
            | apply binary_op_ok; lia | apply unary_op_ok; lia ] | ]).
  apply Forall_nil.
Qed.

Lemma dispatch_ok opcode h : load JUMP_TABLE opcode = Some h -> handler_ok h.
Proof.
  unfold load. destruct (opcode <? 0); [discriminate |].
  intros H. apply nth_error_In in H.
  exact (proj1 (Forall_forall _ _) jump_table_ok _ H).
Qed.

(** ** One pass through the loop body *)

Ltac run_body H :=
  unfold loop_body in H;
  repeat (
    cbv beta zeta in H;
    lazymatch type of H with
    | (_, _) = (_, _) => fail
    | match ?x with _ => _ end = (_, _) => destruct x eqn:?
    end);
  repeat match goal with
  | E : bind (load JUMP_TABLE _) _ = Some _ |- _ =>
      apply bind_inv in E; destruct E as (? & ? & E)
  end.

Lemma Forall_observed_app P evs evs' :
  Forall (observed P) evs -> Forall (observed P) evs' ->
  Forall (observed P) (evs ++ evs').
Proof. intros. apply Forall_app. now split. Qed.

Lemma loop_body_layout tracer ctx evs res :
  loop_body tracer ctx = (evs, res) ->
  layout_inv (frame ctx) ->
  Forall (observed layout_inv) evs /\
  match res with
  | Next ctx' | Exit ctx' => layout_inv (frame ctx')
  | Undefined => True
  end.
Proof.
  intros H Hinv. run_body H.
  all: injection H as <- <-.
  all: try match goal with
       | Hh : load JUMP_TABLE _ = Some ?h, E : ?h _ = Some _ |- _ =>
           destruct (dispatch_ok _ _ Hh _ _ _ E) as (_ & _ & _ & _ & _ & _ & Hl);
           specialize (Hl Hinv)
       end.
  all: unfold layout_inv in *; proj_simpl.
  all: repeat match goal with
       | |- context [if ?b then _ else _] => destruct b
       end; proj_simpl; cbn [app].
  all: split; [| tauto].
  all: repeat (apply Forall_cons; [cbn [observed]; cbv beta; proj_simpl; tauto |]).
  all: apply Forall_nil.
Qed.

Lemma loop_body_gas tracer ctx evs ctx' :
  loop_body tracer ctx = (evs, Next ctx') ->
  3 <= gas_remaining (frame ctx) /\
  (gas_remaining (frame ctx') + 1 <= gas_remaining (frame ctx) \/
   state (frame ctx') <> 1).
Proof.
  intros H. run_body H.
  all: inversion H; subst; clear H.
  all: match goal with
       | Hh : load JUMP_TABLE _ = Some ?h, E : ?h _ = Some _ |- _ =>
           destruct (dispatch_ok _ _ Hh _ _ _ E) as (Hg & _ & _ & _ & Hc & _)
       end.
  all: repeat match goal with
       | |- context [if ?b then _ else _] => destruct b
       end.
  all: bool_hyps; proj_simpl; split; [lia |].
  all: destruct Hc as [Hc | Hc]; [lia | left; lia | right; exact Hc].
Qed.

(** ** The dispatch loop *)

Lemma dispatch_loop_unfold fuel tracer ctx :
  dispatch_loop (S fuel) tracer ctx =
  if (pc (frame ctx) <? Int.to_i32 (code_size (frame ctx)))
     && (state (frame ctx) =? 1)
  then
    match loop_body tracer ctx with
    | (evs, Next ctx') =>
        let (evs', out) := dispatch_loop fuel tracer ctx' in (evs ++ evs', out)
    | (evs, Exit ctx') => (evs, Returned ctx')
    | (evs, Undefined) => (evs, Crashed)
    end
  else ([], Returned (if state (frame ctx) =? 1
                      then upd (set_state 7) ctx else ctx)).
Proof. reflexivity. Qed.

(** Splits a run [H : dispatch_loop (S fuel) tracer ctx = _] by how its first
    pass ends; a pass that continues leaves its events in [Ebody] and the
    rest of the run in [Erest]. *)
Ltac run_loop H Ebody Erest :=
  rewrite dispatch_loop_unfold in H;
  match type of H with
  | (if ?c then _ else _) = _ =>
      let Hc := fresh "Hcond" in
      destruct c eqn:Hc;
      [ match type of H with
        | context [loop_body ?t ?x] =>
            destruct (loop_body t x) as [? [? | ? |]] eqn:Ebody;
            [ match type of H with
              | context [dispatch_loop ?f ?t ?y] =>
                  destruct (dispatch_loop f t y) as [? ?] eqn:Erest
              end | | ]
        end | ];
      inversion H; subst; clear H
  end.

Lemma dispatch_loop_layout fuel tracer : forall ctx evs out,
  dispatch_loop fuel tracer ctx = (evs, out) ->
  layout_inv (frame ctx) ->
  Forall (observed layout_inv) evs /\
  forall ctx', out = Returned ctx' -> layout_inv (frame ctx').
Proof.
  induction fuel as [| fuel IH]; intros ctx evs out H Hinv.
  - injection H as <- <-. split; [constructor | discriminate].
  - run_loop H Ebody Erest.
    + destruct (loop_body_layout _ _ _ _ Ebody Hinv) as [Hevs Hnext].
      destruct (IH _ _ _ Erest Hnext) as [Hevs' Hout].
      split; [now apply Forall_observed_app | exact Hout].
    + destruct (loop_body_layout _ _ _ _ Ebody Hinv) as [Hevs Hnext].
      split; [exact Hevs |]. now intros ? [= <-].
    + destruct (loop_body_layout _ _ _ _ Ebody Hinv) as [Hevs _].
      split; [exact Hevs | discriminate].
    + split; [constructor |]. intros ? [= <-].
      destruct (state (frame ctx) =? 1); exact Hinv.
Qed.

Lemma dispatch_loop_terminates fuel tracer : forall ctx evs out,
  (1 <= fuel)%nat ->
  (state (frame ctx) = 1 -> 3 <= gas_remaining (frame ctx) ->
   (Z.to_nat (gas_remaining (frame ctx)) < fuel)%nat) ->
  dispatch_loop fuel tracer ctx = (evs, out) -> out <> OutOfFuel.
Proof.
  induction fuel as [| fuel IH]; intros ctx evs out Hpos Hfuel H; [lia |].
  run_loop H Ebody Erest; try discriminate.
  apply andb_true_iff in Hcond. destruct Hcond as [_ Hst]. bool_hyps.
  destruct (loop_body_gas _ _ _ _ Ebody) as [Hgas Hdec].
  specialize (Hfuel Hst Hgas).
  apply (IH _ _ _ ltac:(lia)) in Erest; [exact Erest |].
  intros Hst' Hgas'. destruct Hdec as [Hdec | Hdec]; [lia | contradiction].
Qed.

Lemma dispatch_loop_more_fuel fuel tracer : forall ctx evs out fuel',
  dispatch_loop fuel tracer ctx = (evs, out) -> out <> OutOfFuel ->
  (fuel <= fuel')%nat -> dispatch_loop fuel' tracer ctx = (evs, out).
Proof.
  induction fuel as [| fuel IH]; intros ctx evs out fuel' H Hout Hle.
  - injection H as <- <-. contradiction.
  - destruct fuel' as [| fuel']; [lia |].
    rewrite dispatch_loop_unfold. rewrite dispatch_loop_unfold in H.
    destruct ((pc (frame ctx) <? Int.to_i32 (code_size (frame ctx)))
              && (state (frame ctx) =? 1)); [| exact H].
    destruct (loop_body tracer ctx) as [evs1 [c | c |]]; try exact H.
    destruct (dispatch_loop fuel tracer c) as [evs2 out2] eqn:E.
    injection H as <- <-.
    now rewrite (IH _ _ _ fuel' E Hout ltac:(lia)).
Qed.

(** ** Layout invariants (C1) *)

(** C1: from a control block with [stack_size] in [0, 1024] and
    [memory_size] a multiple of 32, every operation handler keeps both, and
    so does [execute_message]: at every tracer upcall during the run and in
    the frame it returns. *)
Theorem layout_invariants_preserved (ctx : ExecutionContext)
    (Hinv : layout_inv (frame ctx)) :
  (forall opcode h r ctx',
     load JUMP_TABLE opcode = Some h -> h ctx = Some (r, ctx') ->
     layout_inv (frame ctx')) /\
  (forall fuel tracer,
     Forall (observed layout_inv) (fst (execute_message fuel tracer ctx)) /\
     forall ctx', snd (execute_message fuel tracer ctx) = Returned ctx' ->
                  layout_inv (frame ctx')).
Proof.
  split.
  - intros opcode h r ctx' Hh Hrun.
    now apply (dispatch_ok _ _ Hh _ _ _ Hrun).
  - intros fuel tracer. unfold execute_message.
    destruct (dispatch_loop fuel tracer (upd (set_state 1) ctx))
      as [evs out] eqn:E.
    apply dispatch_loop_layout in E; [exact E | exact Hinv].
Qed.

(** ** Termination (C9) *)

Lemma execute_message_fuel tracer ctx :
  snd (execute_message (fuel_bound ctx) tracer ctx) <> OutOfFuel /\
  forall fuel, (fuel_bound ctx <= fuel)%nat ->
    execute_message fuel tracer ctx = execute_message (fuel_bound ctx) tracer ctx.
Proof.
  unfold execute_message, fuel_bound.
  destruct (dispatch_loop (S (Z.to_nat (gas_remaining (frame ctx)))) tracer
              (upd (set_state 1) ctx)) as [evs out] eqn:E.
  assert (Hout : out <> OutOfFuel).
  { refine (dispatch_loop_terminates _ _ _ _ _ _ _ E); [lia |].
    intros _ _. cbn [upd set_frame frame set_state gas_remaining]. lia. }
  split; [exact Hout |].
  intros fuel Hle. now apply (dispatch_loop_more_fuel _ _ _ _ _ _ E).
Qed.

(** A pass whose handler succeeds and whose cost is covered. *)
Lemma loop_body_next traced ctx opcode h r ctx1 :
  (gas_remaining (frame ctx) <? 3) = false ->
  load (code ctx) (pc (frame ctx)) = Some opcode ->
  load JUMP_TABLE opcode = Some h ->
  h ctx = Some (r, ctx1) ->
  (pc_increment r <? 0) = false ->
  (gas_remaining (frame ctx1) <? gas_cost r) = false ->
  snd (loop_body (tracer_of traced) ctx) = Next (advanced r (charged r ctx1)).
Proof.
  intros Hgas Hop Hh Hrun Hinc Hcost. unfold loop_body.
  rewrite Hgas, Hop, Hh. cbn [bind]. rewrite Hrun, Hinc, Hcost.
  destruct traced; reflexivity.
Qed.

(** A pass stopped by the gas floor. *)
Lemma loop_body_floor tracer ctx :
  (gas_remaining (frame ctx) <? 3) = true ->
  loop_body tracer ctx = ([], Exit (halt 4 1 ctx)).
Proof. intros Hgas. unfold loop_body. now rewrite Hgas. Qed.

(** A pass whose handler succeeds but costs more than is left. *)
Lemma loop_body_out_of_gas tracer ctx opcode h r ctx1 :
  (gas_remaining (frame ctx) <? 3) = false ->
  load (code ctx) (pc (frame ctx)) = Some opcode ->
  load JUMP_TABLE opcode = Some h ->
  h ctx = Some (r, ctx1) ->
  (pc_increment r <? 0) = false ->
  (gas_remaining (frame ctx1) <? gas_cost r) = true ->
  snd (loop_body tracer ctx) = Exit (halt 4 1 ctx1).
Proof.
  intros Hgas Hop Hh Hrun Hinc Hcost. unfold loop_body.
  rewrite Hgas, Hop, Hh. cbn [bind]. now rewrite Hrun, Hinc, Hcost.
Qed.

(** A pass whose handler signals an error. *)
Lemma loop_body_error tracer ctx opcode h r ctx1 :
  (gas_remaining (frame ctx) <? 3) = false ->
  load (code ctx) (pc (frame ctx)) = Some opcode ->
  load JUMP_TABLE opcode = Some h ->
  h ctx = Some (r, ctx1) ->
  (pc_increment r <? 0) = true ->
  snd (loop_body tracer ctx) =
  Exit (if state (frame ctx1) =? 1 then halt 4 4 ctx1 else ctx1).
Proof.
  intros Hgas Hop Hh Hrun Hinc. unfold loop_body.
  rewrite Hgas, Hop, Hh. cbn [bind]. now rewrite Hrun, Hinc.
Qed.

Lemma dispatch_loop_snd_next fuel tracer ctx ctx' :
  (pc (frame ctx) <? Int.to_i32 (code_size (frame ctx))) = true ->
  state (frame ctx) = 1 ->
  snd (loop_body tracer ctx) = Next ctx' ->
  snd (dispatch_loop (S fuel) tracer ctx) = snd (dispatch_loop fuel tracer ctx').
Proof.
  intros Hpc Hst Hbody. rewrite dispatch_loop_unfold, Hpc, Hst.
  destruct (loop_body tracer ctx) as [evs res]. cbn in Hbody. subst res.
  cbn [andb Z.eqb Pos.eqb]. now destruct (dispatch_loop fuel tracer ctx').
Qed.

Lemma dispatch_loop_snd_exit fuel tracer ctx ctx' :
  (pc (frame ctx) <? Int.to_i32 (code_size (frame ctx))) = true ->
  state (frame ctx) = 1 ->
  snd (loop_body tracer ctx) = Exit ctx' ->
  snd (dispatch_loop (S fuel) tracer ctx) = Returned ctx'.
Proof.
  intros Hpc Hst Hbody. rewrite dispatch_loop_unfold, Hpc, Hst.
  destruct (loop_body tracer ctx) as [evs res]. cbn in Hbody. now subst res.
Qed.

Lemma cycle_pass traced fuel ctx opcode h r ctx1 ctx' :
  3 <= gas_remaining (frame ctx) ->
  (pc (frame ctx) <? Int.to_i32 (code_size (frame ctx))) = true ->
  state (frame ctx) = 1 ->
  load (code ctx) (pc (frame ctx)) = Some opcode ->
  load JUMP_TABLE opcode = Some h ->
  h ctx = Some (r, ctx1) ->
  (pc_increment r <? 0) = false ->
  gas_cost r <= gas_remaining (frame ctx1) ->
  advanced r (charged r ctx1) = ctx' ->
  snd (dispatch_loop (S fuel) (tracer_of traced) ctx) =
  snd (dispatch_loop fuel (tracer_of traced) ctx').
Proof.
  intros Hgas Hpc Hst Hop Hh Hrun Hinc Hcost <-.
  apply dispatch_loop_snd_next; try assumption.
  eapply loop_body_next; eauto; now apply Z.ltb_ge.
Qed.

Lemma cycle_round traced g f w rest mem sto fuel :
  12 <= g ->
  snd (dispatch_loop (S (S (S fuel))) (tracer_of traced)
         (cycle_ctx 0 0 g f (w :: rest) mem sto)) =
  snd (dispatch_loop fuel (tracer_of traced)
         (cycle_ctx 0 0 (g - 12) f (zero_word :: rest) mem sto)).
Proof.
  intros Hg.
  rewrite (cycle_pass traced _ _ 0x5b op_jumpdest (mkOpResult 1 1)
             (cycle_ctx 0 0 g f (w :: rest) mem sto)
             (cycle_ctx 1 0 (g - 1) f (w :: rest) mem sto));
    try reflexivity; try (cbn; lia).
  rewrite (cycle_pass traced _ _ 0x60 (op_push_n 1) (mkOpResult 2 3)
             (cycle_ctx 1 1 (g - 1) f (zero_word :: rest) mem sto)
             (cycle_ctx 3 1 (g - 1 - 3) f (zero_word :: rest) mem sto));
    try reflexivity; try (cbn; lia).
  rewrite (cycle_pass traced _ _ 0x56 op_jump (mkOpResult 0 8)
             (cycle_ctx 0 0 (g - 1 - 3) f (zero_word :: rest) mem sto)
             (cycle_ctx 0 0 (g - 1 - 3 - 8) f (zero_word :: rest) mem sto));
    try reflexivity; try (cbn; lia).
  now replace (g - 1 - 3 - 8) with (g - 12) by lia.
Qed.

Lemma cycle_exit tracer fuel ctx ctx' :
  (pc (frame ctx) <? Int.to_i32 (code_size (frame ctx))) = true ->
  state (frame ctx) = 1 ->
  snd (loop_body tracer ctx) = Exit (halt 4 1 ctx') ->
  out_of_gas (snd (dispatch_loop (S fuel) tracer ctx)).
Proof.
  intros Hpc Hst Hbody.
  rewrite (dispatch_loop_snd_exit _ _ _ _ Hpc Hst Hbody).
  eexists. repeat split.
Qed.

Lemma cycle_short traced g f w rest mem sto fuel :
  g < 12 ->
  out_of_gas (snd (dispatch_loop (S (S (S fuel))) (tracer_of traced)
                     (cycle_ctx 0 0 g f (w :: rest) mem sto))).
Proof.
  intros Hg.
  destruct (Z.ltb_spec g 3) as [H3 | H3].
  { eapply cycle_exit; try reflexivity.
    rewrite loop_body_floor; [reflexivity |]. now apply Z.ltb_lt. }
  rewrite (cycle_pass traced _ _ 0x5b op_jumpdest (mkOpResult 1 1)
             (cycle_ctx 0 0 g f (w :: rest) mem sto)
             (cycle_ctx 1 0 (g - 1) f (w :: rest) mem sto));
    try reflexivity; try (cbn; lia).
  destruct (Z.ltb_spec (g - 1) 3) as [H4 | H4].
  { eapply cycle_exit; try reflexivity.
    rewrite loop_body_floor; [reflexivity |]. now apply Z.ltb_lt. }
  rewrite (cycle_pass traced _ _ 0x60 (op_push_n 1) (mkOpResult 2 3)
             (cycle_ctx 1 1 (g - 1) f (zero_word :: rest) mem sto)
             (cycle_ctx 3 1 (g - 1 - 3) f (zero_word :: rest) mem sto));
    try reflexivity; try (cbn; lia).
  destruct (Z.ltb_spec (g - 1 - 3) 3) as [H7 | H7].
  { eapply cycle_exit; try reflexivity.
    rewrite loop_body_floor; [reflexivity |]. now apply Z.ltb_lt. }
  eapply cycle_exit; try reflexivity.
  eapply (loop_body_out_of_gas _ _ 0x56 op_jump (mkOpResult 0 8));
    try reflexivity.
  - now apply Z.ltb_ge.
  - apply Z.ltb_lt. cbn. lia.
Qed.

Lemma cycle_halts traced f rest mem sto (k : nat) : forall g w fuel,
  g < 12 * Z.of_nat (S k) ->
  out_of_gas (snd (dispatch_loop (3 * S k + fuel) (tracer_of traced)
                     (cycle_ctx 0 0 g f (w :: rest) mem sto))).
Proof.
  induction k as [| k IH]; intros g w fuel Hg.
  - apply cycle_short. lia.
  - destruct (Z.ltb_spec g 12) as [Hlt | Hge].
    + replace (3 * S (S k) + fuel)%nat with (S (S (S (3 * S k + fuel)))) by lia.
      now apply cycle_short.
    + replace (3 * S (S k) + fuel)%nat with (S (S (S (3 * S k + fuel)))) by lia.
      rewrite cycle_round by exact Hge. apply IH. lia.
Qed.

(** C9: [execute_message] stops within [fuel_bound] passes of its loop,
    whatever the control block and the code, and more passes change nothing;
    a pass that goes on needs 3 gas and, unless it leaves [EXECUTING],
    consumes at least 1; the program that jumps in a cycle forever halts
    with [EXCEPTIONAL_HALT] / [INSUFFICIENT_GAS] for every [gas_remaining]. *)
Theorem execute_message_terminates :
  (forall tracer ctx,
     snd (execute_message (fuel_bound ctx) tracer ctx) <> OutOfFuel /\
     forall k : nat,
       execute_message (fuel_bound ctx + k) tracer ctx =
       execute_message (fuel_bound ctx) tracer ctx) /\
  (forall tracer ctx,
     match loop_body tracer ctx with
     | (_, Next ctx') =>
         3 <= gas_remaining (frame ctx) /\
         (gas_remaining (frame ctx') + 1 <= gas_remaining (frame ctx) \/
          state (frame ctx') <> 1)
     | _ => True
     end) /\
  (forall traced g f w rest mem sto,
     out_of_gas
       (snd (execute_message
               (fuel_bound (cycle_ctx 0 0 g f (w :: rest) mem sto))
               (tracer_of traced)
               (cycle_ctx 0 0 g f (w :: rest) mem sto)))).
Proof.
  split; [| split].
  - intros tracer ctx. destruct (execute_message_fuel tracer ctx) as [Hout Hfuel].
    split; [exact Hout |]. intros k. apply Hfuel. lia.
  - intros tracer ctx.
    destruct (loop_body tracer ctx) as [evs [ctx' | ctx' |]] eqn:E; try exact I.
    exact (loop_body_gas _ _ _ _ E).
  - intros traced g f w rest mem sto.
    set (ctx := cycle_ctx 0 0 g f (w :: rest) mem sto).
    destruct (execute_message_fuel (tracer_of traced) ctx) as [_ Hfuel].
    rewrite <- (Hfuel (3 * S (Z.to_nat g) + fuel_bound ctx)%nat) by lia.
    apply (cycle_halts traced f rest mem sto (Z.to_nat g) g w (fuel_bound ctx)).
    lia.
Qed.

(** ** Concrete runs *)

(** Opens a context whose fields the hypotheses fix: [st] names its stack
    plane. *)
Ltac explode ctx st :=
  let fr := fresh "fr" in
  destruct ctx as [fr st ? ? ?]; destruct fr; cbn in *; subst.

Lemma returned_more_fuel fuel tracer ctx ctx' fuel' :
  snd (dispatch_loop fuel tracer ctx) = Returned ctx' ->
  (fuel <= fuel')%nat ->
  snd (dispatch_loop fuel' tracer ctx) = Returned ctx'.
Proof.
  intros H Hle.
  destruct (dispatch_loop fuel tracer ctx) as [evs out] eqn:E.
  cbn [snd] in H. subst out.
  now rewrite (dispatch_loop_more_fuel _ _ _ _ _ fuel' E ltac:(discriminate) Hle).
Qed.

(** C2: PUSH1 5, PUSH1 3, ADD, STOP from [pc = 0], an empty stack and
    1,000,000 gas returns with [state = 7], [stack_size = 1], the word 8 on
    top of the stack, [gas_remaining = 999,991] and [pc = 5]. *)
Theorem simple_add_run (traced : bool) (ctx : ExecutionContext)
    (Hcode : code ctx = simple_add)
    (Hsize : code_size (frame ctx) = 6)
    (Hpc : pc (frame ctx) = 0)
    (Hstack : stack_size (frame ctx) = 0)
    (Hgas : gas_remaining (frame ctx) = 1000000)
    (Hplane : length (stack_base ctx) = 1024%nat) :
  exists ctx',
    (forall fuel, (5 <= fuel)%nat ->
       snd (execute_message fuel (tracer_of traced) ctx) = Returned ctx') /\
    state (frame ctx') = 7 /\
    stack_size (frame ctx') = 1 /\
    load (stack_base ctx') (stack_size (frame ctx') - 1) = Some (word_of_byte 8) /\
    gas_remaining (frame ctx') = 999991 /\
    pc (frame ctx') = 5.
Proof.
  explode ctx st.
  destruct st as [| w0 [| w1 stack]]; [discriminate | discriminate |].
  clear Hplane.
  eexists. split.
  - intros fuel Hfuel. unfold execute_message.
    apply (returned_more_fuel 5); [| exact Hfuel].
    destruct traced; vm_compute; reflexivity.
  - vm_compute. repeat split.
Qed.

Lemma simple_add_run_witness :
  length (stack_base (blank_ctx simple_add 1000000 0)) = 1024%nat /\
  exists ctx',
    (forall fuel, (5 <= fuel)%nat ->
       snd (execute_message fuel (tracer_of true)
              (blank_ctx simple_add 1000000 0)) = Returned ctx') /\
    state (frame ctx') = 7 /\
    stack_size (frame ctx') = 1 /\
    load (stack_base ctx') (stack_size (frame ctx') - 1) = Some (word_of_byte 8) /\
    gas_remaining (frame ctx') = 999991 /\
    pc (frame ctx') = 5.
Proof.
  split; [reflexivity |].
  apply (simple_add_run true (blank_ctx simple_add 1000000 0)); reflexivity.
Defined.

Lemma layout_invariants_witness :
  layout_inv (frame (blank_ctx simple_add 1000000 0)) /\
  (forall opcode h r ctx',
     load JUMP_TABLE opcode = Some h ->
     h (blank_ctx simple_add 1000000 0) = Some (r, ctx') ->
     layout_inv (frame ctx')) /\
  (forall fuel tracer,
     Forall (observed layout_inv)
       (fst (execute_message fuel tracer (blank_ctx simple_add 1000000 0))) /\
     forall ctx',
       snd (execute_message fuel tracer (blank_ctx simple_add 1000000 0)) =
       Returned ctx' ->
       layout_inv (frame ctx')).
Proof.
  assert (H : layout_inv (frame (blank_ctx simple_add 1000000 0))).
  { unfold layout_inv. cbn. repeat split; [lia | lia]. }
  split; [exact H |].
  exact (layout_invariants_preserved (blank_ctx simple_add 1000000 0) H).
Defined.

(** C4: on the program PUSH1 0x2A; PUSH1 0x07; SSTORE; PUSH1 0x07; SLOAD;
    STOP with empty storage, 50,000 gas and [is_static = 0], the code
    dispatches bytes 0x55 and 0x54 to [op_stub]: the run charges 3 gas for
    each, creates no storage entry, and ends with three words on the stack,
    the key 7 on top, and 49,985 gas. *)
Theorem storage_round_trip_run :
  load JUMP_TABLE 0x55 = Some op_stub /\
  load JUMP_TABLE 0x54 = Some op_stub /\
  load JUMP_TABLE 0x45 = Some op_sstore /\
  load JUMP_TABLE 0x44 = Some op_sload /\
  exists ctx',
    snd (execute_message 7 None (blank_ctx storage_round_trip 50000 0)) =
    Returned ctx' /\
    state (frame ctx') = 7 /\
    storage_slot_count (frame ctx') = 0 /\
    storage_base ctx' = storage_base (blank_ctx storage_round_trip 50000 0) /\
    stack_size (frame ctx') = 3 /\
    load (stack_base ctx') 2 = Some (word_of_byte 7) /\
    gas_remaining (frame ctx') = 49985.
Proof.
  repeat split; try reflexivity.
  eexists. split; [vm_compute; reflexivity |].
  vm_compute. repeat split.
Qed.

(** C5: in a static frame ([is_static = 1]) the byte 0x55 is dispatched to
    [op_stub], not to [op_sstore]: the storage round trip program runs to
    [COMPLETED_SUCCESS] with [halt_reason = 0] instead of halting with
    [ILLEGAL_STATE_CHANGE]; its storage plane is unchanged. *)
Theorem static_sstore_run :
  exists ctx',
    snd (execute_message 7 None (blank_ctx storage_round_trip 50000 1)) =
    Returned ctx' /\
    is_static (frame ctx') = 1 /\
    state (frame ctx') = 7 /\
    halt_reason (frame ctx') = 0 /\
    storage_slot_count (frame ctx') = 0 /\
    storage_base ctx' = storage_base (blank_ctx storage_round_trip 50000 1).
Proof.
  eexists. split; [vm_compute; reflexivity |].
  vm_compute. repeat split.
Qed.

(** ** Errors a handler leaves unlabelled (C6, C7) *)

Lemma stack_top_some ctx offset :
  offset < stack_size (frame ctx) ->
  stack_top ctx offset = Some (stack_size (frame ctx) - 1 - offset).
Proof.
  intros H. unfold stack_top.
  destruct (Z.leb_spec (stack_size (frame ctx)) offset); [lia | reflexivity].
Qed.

Lemma stack_alloc_full ctx :
  1024 <= stack_size (frame ctx) -> stack_alloc ctx = (None, ctx).
Proof.
  intros H. unfold stack_alloc.
  destruct (Z.leb_spec 1024 (stack_size (frame ctx))); [reflexivity | lia].
Qed.

Lemma push_word_full w r ctx :
  1024 <= stack_size (frame ctx) -> push_word w r ctx = Some (error_result, ctx).
Proof. intros H. unfold push_word. now rewrite stack_alloc_full. Qed.

Lemma op_dup_n_full n ctx :
  stack_size (frame ctx) = 1024 -> 1 <= n <= 16 ->
  op_dup_n n ctx = Some (error_result, ctx).
Proof.
  intros H Hn. unfold op_dup_n.
  rewrite stack_top_some by lia. now rewrite stack_alloc_full by lia.
Qed.

Lemma opcode_cases (P : Z -> Prop) (lo : Z) (n : nat) :
  (forall k, (k < n)%nat -> P (lo + Z.of_nat k)) ->
  forall opcode, lo <= opcode < lo + Z.of_nat n -> P opcode.
Proof.
  intros H opcode Hop.
  replace opcode with (lo + Z.of_nat (Z.to_nat (opcode - lo))) by lia.
  apply H. lia.
Qed.

Lemma allocating_handler_full opcode :
  allocates_slot opcode = true ->
  exists h, load JUMP_TABLE opcode = Some h /\
    forall ctx, stack_size (frame ctx) = 1024 ->
                h ctx = Some (error_result, ctx).
Proof.
  unfold allocates_slot. intros H.
  apply orb_true_iff in H. destruct H as [H | H];
    [apply orb_true_iff in H; destruct H as [H | H] |].
  - apply Z.eqb_eq in H. subst. eexists. split; [reflexivity |].
    intros ctx Hfull. apply push_word_full. lia.
  - apply Z.eqb_eq in H. subst. eexists. split; [reflexivity |].
    intros ctx Hfull. apply push_word_full. lia.
  - apply andb_true_iff in H. destruct H as [Hlo Hhi]. bool_hyps.
    pattern opcode. apply (opcode_cases _ 0x5f 49); [| lia].
    intros k Hk.
    do 49 (destruct k as [| k];
           [ eexists; split; [reflexivity |]; intros ctx Hfull;
             first [ apply push_word_full; lia
                   | apply op_dup_n_full; [exact Hfull | lia] ] |]).
    lia.
Qed.

(** C7, as the code has it: a push onto a stack of 1024 entries halts the
    frame with [state = EXCEPTIONAL_HALT] and [halt_reason = 4], the value
    the loop writes for every error a handler did not label; 4 is the code
    of [STACK_OVERFLOW] in [ExceptionalHaltReason]. *)
Theorem stack_overflow_halt (tracer : option TracerCallbacks)
    (ctx : ExecutionContext) (opcode : Z)
    (Hfull : stack_size (frame ctx) = 1024)
    (Hop : allocates_slot opcode = true)
    (Hfetch : load (code ctx) (pc (frame ctx)) = Some opcode)
    (Hgas : 3 <= gas_remaining (frame ctx))
    (Hstate : state (frame ctx) = 1) :
  snd (loop_body tracer ctx) = Exit (halt 4 4 ctx) /\
  state (frame (halt 4 4 ctx)) = 4 /\
  halt_reason (frame (halt 4 4 ctx)) = halt_code STACK_OVERFLOW /\
  halt_code STACK_OVERFLOW = 4.
Proof.
  destruct (allocating_handler_full opcode Hop) as (h & Hh & Hrun).
  split; [| repeat split].
  rewrite (loop_body_error tracer ctx opcode h error_result ctx);
    [now rewrite Hstate | now apply Z.ltb_ge | exact Hfetch | exact Hh
    | now apply Hrun | reflexivity].
Qed.

Lemma stack_overflow_halt_witness :
  (stack_size (frame (upd (set_state 1) full_stack_ctx)) = 1024 /\
   allocates_slot 0x5f = true /\
   load (code (upd (set_state 1) full_stack_ctx))
     (pc (frame (upd (set_state 1) full_stack_ctx))) = Some 0x5f /\
   3 <= gas_remaining (frame (upd (set_state 1) full_stack_ctx)) /\
   state (frame (upd (set_state 1) full_stack_ctx)) = 1) /\
  snd (loop_body None (upd (set_state 1) full_stack_ctx)) =
  Exit (halt 4 4 (upd (set_state 1) full_stack_ctx)).
Proof.
  split.
  - repeat split; try reflexivity. cbn. lia.
  - apply (stack_overflow_halt None (upd (set_state 1) full_stack_ctx) 0x5f);
      try reflexivity. cbn. lia.
Defined.

(** C7 fails as stated: PUSH0 on a full stack ends with [halt_reason = 4],
    not 5. *)
Lemma stack_overflow_not_5 :
  exists ctx',
    stack_size (frame full_stack_ctx) = 1024 /\
    snd (execute_message 2 None full_stack_ctx) = Returned ctx' /\
    state (frame ctx') = 4 /\
    halt_reason (frame ctx') = 4 /\
    halt_reason (frame ctx') <> 5.
Proof.
  eexists. split; [reflexivity |].
  split; [vm_compute; reflexivity |].
  vm_compute. repeat split. discriminate.
Qed.

Lemma to_u64_small (x : Z) : 0 <= x < 2 ^ 64 -> Int.to_u64 x = x.
Proof. apply Z.mod_small. Qed.

Lemma to_u32_small (x : Z) : 0 <= x < 2 ^ 32 -> Int.to_u32 x = x.
Proof. apply Z.mod_small. Qed.





(** ** Tracer upcalls (C8) *)

Lemma count_app p evs evs' :
  count p (evs ++ evs') = (count p evs + count p evs')%nat.
Proof. unfold count. now rewrite filter_app, length_app. Qed.

Ltac count_events :=
  cbn [app count filter length is_pre is_post is_dispatch is_charge is_success
       has_tracer trace_pre_execution];
  rewrite ?Z.leb_antisym;
  repeat match goal with
         | H : (_ <? 0) = _ |- _ => rewrite H
         end;
  cbn [app count filter length is_pre is_post is_dispatch is_charge is_success
       negb].

(** The events of one pass with both callbacks set. *)
Lemma loop_body_counts ctx evs res :
  loop_body (tracer_of true) ctx = (evs, res) ->
  state (frame ctx) = 1 ->
  count is_pre evs = count is_dispatch evs /\
  count is_post evs = count is_charge evs /\
  match res with
  | Next _ =>
      count is_dispatch evs = 1%nat /\ count is_charge evs = 1%nat /\
      count is_success evs = 1%nat
  | Exit ctx' =>
      count is_charge evs = 0%nat /\
      (count is_success evs <= count is_dispatch evs <= 1)%nat /\
      state (frame ctx') = 4
  | Undefined =>
      count is_charge evs = 0%nat /\
      (count is_success evs <= count is_dispatch evs <= 1)%nat
  end.
Proof.
  intros H Hst. unfold tracer_of in H. run_body H.
  all: try match goal with
       | Ht : has_tracer _ = false |- _ => discriminate Ht
       end.
  all: inversion H; subst; clear H.
  all: try match goal with
       | Hh : load JUMP_TABLE _ = Some ?h, E : ?h _ = Some _ |- _ =>
           destruct (dispatch_ok _ _ Hh _ _ _ E) as (_ & _ & _ & _ & _ & Hs & _)
       end.
  all: count_events; repeat split; try lia.
  destruct (Z.eqb_spec (state (frame e)) 1) as [Heq | Hne]; [reflexivity |].
  bool_hyps. destruct Hs as [Hs | Hs]; [assumption | congruence | exact Hs].
Qed.

Lemma dispatch_loop_counts fuel : forall ctx evs out,
  dispatch_loop fuel (tracer_of true) ctx = (evs, out) ->
  count is_pre evs = count is_dispatch evs /\
  count is_post evs = count is_charge evs /\
  (count is_charge evs <= count is_success evs <= count is_dispatch evs)%nat /\
  (count is_dispatch evs <= count is_charge evs + 1)%nat /\
  (forall ctx', out = Returned ctx' -> state (frame ctx') = 7 ->
     count is_dispatch evs = count is_charge evs) /\
  (out = OutOfFuel -> count is_dispatch evs = count is_charge evs).
Proof.
  induction fuel as [| fuel IH]; intros ctx evs out H.
  - injection H as <- <-. cbn. repeat split; lia.
  - run_loop H Ebody Erest.
    all: try (apply andb_true_iff in Hcond; destruct Hcond as [_ Hst];
              apply Z.eqb_eq in Hst;
              destruct (loop_body_counts _ _ _ Ebody Hst) as (Hp & Hq & Hr)).
    + destruct (IH _ _ _ Erest) as (Hp' & Hq' & Hr' & Hs' & Ht' & Hu').
      destruct Hr as (Hd & Hc & Hk).
      rewrite !count_app. repeat split; try lia.
      * intros c Hc' H7. specialize (Ht' c Hc' H7). lia.
      * intros Ho. specialize (Hu' Ho). lia.
    + destruct Hr as (Hc & Hk & H4).
      repeat split; try lia; try discriminate.
      intros c [= <-] H7. congruence.
    + destruct Hr as (Hc & Hk).
      repeat split; try lia; discriminate.
    + cbn. repeat split; try lia; try discriminate.
Qed.

(** C8, as the code has it: with a tracer attached, every dispatched opcode
    is preceded by one [trace_pre_execution] upcall and every charged one
    is followed by one [trace_post_execution] upcall; an opcode is charged
    only if its handler did not signal an error, so the pre count is the
    post count or one more, and the two are equal (and equal to the number
    of dispatched opcodes whose handler did not signal an error) when the
    run ends in [COMPLETED_SUCCESS]. *)
Theorem tracer_call_counts (fuel : nat) (ctx : ExecutionContext) :
  let evs := fst (execute_message fuel (tracer_of true) ctx) in
  let out := snd (execute_message fuel (tracer_of true) ctx) in
  count is_pre evs = count is_dispatch evs /\
  count is_post evs = count is_charge evs /\
  (count is_charge evs <= count is_success evs <= count is_dispatch evs)%nat /\
  (count is_post evs <= count is_pre evs <= count is_post evs + 1)%nat /\
  (forall ctx', out = Returned ctx' -> state (frame ctx') = 7 ->
     count is_pre evs = count is_post evs /\
     count is_post evs = count is_success evs).
Proof.
  unfold execute_message. cbv zeta.
  destruct (dispatch_loop fuel (tracer_of true) (upd (set_state 1) ctx))
    as [evs out] eqn:E.
  destruct (dispatch_loop_counts _ _ _ _ E) as (Hp & Hq & Hr & Hs & Ht & _).
  cbn [fst snd].
  split; [exact Hp |]. split; [exact Hq |]. split; [exact Hr |].
  split; [lia |].
  intros c Hc H7. specialize (Ht c Hc H7). lia.
Qed.

(** C8 fails as stated: ADD on an empty stack is announced to the tracer
    once and never reported back. *)
Lemma tracer_counts_differ :
  count is_pre (fst (execute_message 2 (tracer_of true) (blank_ctx [0x01] 100 0)))
  = 1%nat /\
  count is_post (fst (execute_message 2 (tracer_of true) (blank_ctx [0x01] 100 0)))
  = 0%nat /\
  count is_success
    (fst (execute_message 2 (tracer_of true) (blank_ctx [0x01] 100 0)))
  = 0%nat.
Proof. vm_compute. repeat split. Qed.

(** ** SSTORE on an entry that exists (C3, X29) *)

Lemma store_nth_load {A : Type} (l : list A) (n : nat) (a b : A) :
  nth_error l n = Some a ->
  exists l', store_nth n b l = Some l' /\ nth_error l' n = Some b.
Proof.
  revert n. induction l as [| h t IH]; intros [| n] H; try discriminate.
  - eexists. split; reflexivity.
  - cbn in H. destruct (IH n H) as (t' & Ht & Hn).
    exists (h :: t'). cbn. rewrite Ht. split; [reflexivity | exact Hn].
Qed.

(** A store over an element that can be loaded succeeds, and the element
    loads back. *)
Lemma store_load {A : Type} (l : list A) (i : Z) (a b : A) :
  load l i = Some a ->
  exists l', store l i b = Some l' /\ load l' i = Some b.
Proof.
  unfold load, store. destruct (i <? 0); [discriminate |].
  apply store_nth_load.
Qed.

Lemma to_i64_small (x : Z) : - 2 ^ 63 <= x < 2 ^ 63 -> Int.to_i64 x = x.
Proof.
  intros Hx. unfold Int.to_i64.
  destruct (Z.ltb_spec (x mod 2 ^ 64) (2 ^ 63)); Z.div_mod_to_equations; lia.
Qed.

(** X29: the handler [op_sstore], called in a non-static frame on an entry
    that exists, returns the cost 20000 when the new value is non-zero and
    both the current and the original value are zero, and otherwise 100 for
    a warm entry and 2100 for a cold one; it adds 4800 to [gas_refund]
    exactly when the new value is zero and the current one is not, leaves
    the new value in the entry, marks it warm and pops both operands.  This
    is what the handler returns, not what a run over the opcode charges. *)
Theorem sstore_present_entry (ctx : ExecutionContext)
    (key_word value_word : word) (entry : Z) (e : StorageEntry)
    (Hstatic : is_static (frame ctx) = 0)
    (Hitems : 2 <= stack_size (frame ctx))
    (Hkey : load (stack_base ctx) (stack_size (frame ctx) - 1) = Some key_word)
    (Hvalue : load (stack_base ctx) (stack_size (frame ctx) - 2) = Some value_word)
    (Hfind : storage.find (storage_base ctx) (storage_slot_count (frame ctx))
               (contract (frame ctx)) key_word = Some (Some entry))
    (Hentry : load (storage_base ctx) entry = Some e)
    (Hrefund : - 2 ^ 63 <= gas_refund (frame ctx) < 2 ^ 63 - 4800) :
  let W := negb (is_warm e =? 0) in
  let Z0 := is_zero (original e) in
  let Zc := is_zero (value e) in
  let Zv := is_zero value_word in
  exists ctx',
    op_sstore ctx =
    Some (mkOpResult 1 (if negb Zv && Zc && Z0 then 20000
                        else if W then 100 else 2100), ctx') /\
    gas_refund (frame ctx') =
    gas_refund (frame ctx) + (if Zv && negb Zc then 4800 else 0) /\
    load (storage_base ctx') entry =
    Some (mkStorageEntry (address e) (key e) value_word (original e) 1) /\
    stack_size (frame ctx') = stack_size (frame ctx) - 2.
Proof.
  cbv zeta.
  destruct (store_load (storage_base ctx) entry e
              (set_is_warm 1 (set_value value_word e)) Hentry) as (s & Hs & Hl).
  unfold op_sstore. rewrite Hstatic. cbn [Z.eqb negb].
  rewrite !stack_top_some by lia.
  unfold peek. rewrite Z.sub_0_r, Hkey.
  replace (stack_size (frame ctx) - 1 - 1) with (stack_size (frame ctx) - 2) by lia.
  rewrite Hvalue. cbn [bind]. rewrite Hfind. cbn [bind]. rewrite Hentry. cbn [bind].
  cbv zeta.
  replace (storage_base
             (if is_zero value_word && negb (is_zero (value e))
              then upd (set_gas_refund (Int.to_i64 (gas_refund (frame ctx) + 4800))) ctx
              else ctx))
    with (storage_base ctx)
    by (destruct (is_zero value_word && negb (is_zero (value e))); reflexivity).
  rewrite Hs. cbn [bind ret].
  replace (sstore_gas (is_zero value_word) (is_zero (original e))
             (is_zero (value e)) (negb (is_warm e =? 0)))
    with (if negb (is_zero value_word) && is_zero (value e) && is_zero (original e)
          then 20000 else if negb (is_warm e =? 0) then 100 else 2100)
    by (unfold sstore_gas;
        destruct (is_zero value_word), (is_zero (value e)),
          (is_zero (original e)), (negb (is_warm e =? 0)); reflexivity).
  eexists. split; [reflexivity |].
  rewrite stack_free_enough.
  - destruct (is_zero value_word && negb (is_zero (value e)));
      proj_simpl; repeat split; try exact Hl; try lia.
    now rewrite to_i64_small by lia.
  - destruct (is_zero value_word && negb (is_zero (value e)));
      proj_simpl; lia.
Qed.

Lemma sstore_present_entry_witness :
  (is_static (frame sstore_ctx) = 0 /\
   2 <= stack_size (frame sstore_ctx) /\
   load (stack_base sstore_ctx) (stack_size (frame sstore_ctx) - 1) =
   Some (word_of_byte 7) /\
   load (stack_base sstore_ctx) (stack_size (frame sstore_ctx) - 2) =
   Some (word_of_byte 42) /\
   storage.find (storage_base sstore_ctx)
     (storage_slot_count (frame sstore_ctx)) (contract (frame sstore_ctx))
     (word_of_byte 7) = Some (Some 0) /\
   load (storage_base sstore_ctx) 0 =
   Some (mkStorageEntry (repeat 0xAA 20) (word_of_byte 7) zero_word zero_word 0) /\
   - 2 ^ 63 <= gas_refund (frame sstore_ctx) < 2 ^ 63 - 4800) /\
  exists ctx',
    op_sstore sstore_ctx = Some (mkOpResult 1 20000, ctx') /\
    gas_refund (frame ctx') = 0 /\
    load (storage_base ctx') 0 =
    Some (mkStorageEntry (repeat 0xAA 20) (word_of_byte 7) (word_of_byte 42)
            zero_word 1) /\
    stack_size (frame ctx') = 0.
Proof.
  assert (Hrefund : - 2 ^ 63 <= gas_refund (frame sstore_ctx) < 2 ^ 63 - 4800)
    by (vm_compute; split; [discriminate | reflexivity]).
  assert (Hitems : 2 <= stack_size (frame sstore_ctx))
    by (vm_compute; discriminate).
  split; [repeat split; try reflexivity; apply Hrefund || exact Hitems |].
  exact (sstore_present_entry sstore_ctx (word_of_byte 7) (word_of_byte 42) 0
           (mkStorageEntry (repeat 0xAA 20) (word_of_byte 7) zero_word zero_word 0)
           eq_refl Hitems eq_refl eq_refl eq_refl eq_refl Hrefund).
Defined.

(** C3: executing the SSTORE opcode (byte 0x55) in a non-static frame whose
    storage plane holds a cold entry with zero value and zero original for
    the contract and key, with the non-zero value 42 to store and 50,000
    gas, does not reach [op_sstore]: the table dispatches 0x55 to
    [op_stub].  The run charges 3 gas, not 20000, leaves the entry's value
    zero and the entry cold, pops nothing and ends in COMPLETED_SUCCESS.
    The handler itself, which the table holds at 0x45, would return the
    cost 20000 and write the value on the same frame. *)
Theorem sstore_opcode_run :
  load JUMP_TABLE 0x55 = Some op_stub /\
  load JUMP_TABLE 0x45 = Some op_sstore /\
  load (code sstore_opcode_ctx) (pc (frame sstore_opcode_ctx)) = Some 0x55 /\
  is_static (frame sstore_opcode_ctx) = 0 /\
  storage.find (storage_base sstore_opcode_ctx)
    (storage_slot_count (frame sstore_opcode_ctx))
    (contract (frame sstore_opcode_ctx)) (word_of_byte 7) = Some (Some 0) /\
  load (stack_base sstore_opcode_ctx) 1 = Some (word_of_byte 7) /\
  load (stack_base sstore_opcode_ctx) 0 = Some (word_of_byte 42) /\
  (exists evs ctx',
     execute_message 2 None sstore_opcode_ctx = (evs, Returned ctx') /\
     charges evs = 3 /\
     state (frame ctx') = 7 /\
     gas_remaining (frame ctx') = 49997 /\
     gas_refund (frame ctx') = 0 /\
     stack_size (frame ctx') = 2 /\
     storage_slot_count (frame ctx') = 1 /\
     load (storage_base ctx') 0 =
       Some (mkStorageEntry (repeat 0xAA 20) (word_of_byte 7)
               zero_word zero_word 0) /\
     storage_base ctx' = storage_base sstore_opcode_ctx) /\
  (exists ctx1,
     op_sstore sstore_opcode_ctx = Some (mkOpResult 1 20000, ctx1) /\
     load (storage_base ctx1) 0 =
       Some (mkStorageEntry (repeat 0xAA 20) (word_of_byte 7)
               (word_of_byte 42) zero_word 1)).
Proof.
  repeat (split; [reflexivity |]).
  split.
  - eexists _, _. split; [vm_compute; reflexivity |].
    vm_compute. repeat split.
  - eexists. split; [vm_compute; reflexivity |]. reflexivity.
Qed.

(** * Further properties of the code *)

(** ** Plane access *)

Lemma bytes_eqb_refl (a : list Z) : bytes_eqb a a = true.
Proof. induction a as [| x a IH]; cbn; [reflexivity |]. now rewrite Z.eqb_refl. Qed.

Lemma bytes_eqb_eq (a b : list Z) : bytes_eqb a b = true -> a = b.
Proof.
  revert b. induction a as [| x a IH]; intros [| y b] H; try discriminate.
  - reflexivity.
  - cbn in H. apply andb_true_iff in H. destruct H as [Hx Hab].
    apply Z.eqb_eq in Hx. subst. f_equal. now apply IH.
Qed.

Lemma store_nth_other {A : Type} (l l' : list A) (n m : nat) (b : A) :
  store_nth n b l = Some l' -> n <> m -> nth_error l' m = nth_error l m.
Proof.
  revert l' n m. induction l as [| h t IH]; intros l' [| n] [| m] H Hne;
    try discriminate; try congruence.
  - cbn in H. injection H as <-. reflexivity.
  - cbn in H. apply bind_inv in H. destruct H as (t' & Ht & H).
    apply ret_inv in H. subst. reflexivity.
  - cbn in H. apply bind_inv in H. destruct H as (t' & Ht & H).
    apply ret_inv in H. subst. cbn. apply (IH _ _ _ Ht). congruence.
Qed.

(** A store leaves every other element as it was. *)
Lemma store_other {A : Type} (l l' : list A) (i j : Z) (b : A) :
  store l i b = Some l' -> 0 <= j -> i <> j -> load l' j = load l j.
Proof.
  unfold store, load. destruct (Z.ltb_spec i 0) as [Hi | Hi]; [discriminate |].
  intros H Hj Hne. destruct (Z.ltb_spec j 0) as [Hj' | Hj']; [lia |].
  apply (store_nth_other _ _ _ _ _ H). lia.
Qed.

Lemma store_same {A : Type} (l l' : list A) (i : Z) (b : A) :
  store l i b = Some l' -> load l' i = Some b.
Proof.
  unfold store, load. destruct (i <? 0); [discriminate |].
  generalize (Z.to_nat i). clear i. intros n. revert l' n.
  induction l as [| h t IH]; intros l' [| n] H; try discriminate.
  - cbn in H. injection H as <-. reflexivity.
  - cbn in H. apply bind_inv in H. destruct H as (t' & Ht & H).
    apply ret_inv in H. subst. cbn. now apply IH.
Qed.

(** ** The storage plane *)

Lemma find_loop_spec entries addr k : forall n i r,
  0 <= i ->
  storage.find_loop entries n i addr k = Some r ->
  match r with
  | Some p =>
      i <= p < i + Z.of_nat n /\
      (exists e, load entries p = Some e /\ entry_matches addr k e = true) /\
      (forall j e, i <= j < p -> load entries j = Some e ->
                   entry_matches addr k e = false)
  | None =>
      forall j e, i <= j < i + Z.of_nat n -> load entries j = Some e ->
                  entry_matches addr k e = false
  end.
Proof.
  induction n as [| n IH]; intros i r Hi H.
  - cbn in H. apply ret_inv in H. subst. intros j e Hj. lia.
  - cbn [storage.find_loop] in H. apply bind_inv in H.
    destruct H as (e & He & H).
    destruct (bytes_eqb (address e) addr && bytes_eqb (key e) k) eqn:Hm.
    + apply ret_inv in H. subst. split; [lia |]. split.
      * exists e. now split.
      * intros j e' Hj. lia.
    + apply IH in H; [| lia]. destruct r as [p |].
      * destruct H as (Hp & Hex & Hbefore). split; [lia |]. split; [exact Hex |].
        intros j e' Hj Hl. destruct (Z.eq_dec j i) as [-> | Hne].
        -- rewrite He in Hl. injection Hl as <-. exact Hm.
        -- apply (Hbefore j); [lia | exact Hl].
      * intros j e' Hj Hl. destruct (Z.eq_dec j i) as [-> | Hne].
        -- rewrite He in Hl. injection Hl as <-. exact Hm.
        -- apply (H j); [lia | exact Hl].
Qed.

Lemma find_some_load entries count addr k p :
  storage.find entries count addr k = Some (Some p) ->
  exists e, load entries p = Some e /\ entry_matches addr k e = true.
Proof.
  intros H. unfold storage.find in H.
  apply find_loop_spec in H; [| lia]. tauto.
Qed.

(** X1: [storage::find] returns the first of the [count] entries whose
    address and key are the ones asked for, and [nullptr] exactly when none
    of them is. *)
Theorem find_first_match (entries : list StorageEntry) (count : Z)
    (addr : list Z) (k : word) (r : option Z)
    (Hfind : storage.find entries count addr k = Some r) :
  match r with
  | Some p =>
      0 <= p < count /\
      (exists e, load entries p = Some e /\ address e = addr /\ key e = k) /\
      (forall j e, 0 <= j < p -> load entries j = Some e ->
                   entry_matches addr k e = false)
  | None =>
      forall j e, 0 <= j < count -> load entries j = Some e ->
                  entry_matches addr k e = false
  end.
Proof.
  unfold storage.find in Hfind.
  apply find_loop_spec in Hfind; [| lia].
  destruct r as [p |].
  - destruct Hfind as (Hp & (e & He & Hm) & Hbefore).
    split; [lia |]. split; [| exact Hbefore].
    exists e. apply andb_true_iff in Hm. destruct Hm as [Ha Hk].
    split; [exact He |]. split; now apply bytes_eqb_eq.
  - intros j e Hj. apply Hfind. lia.
Qed.

Lemma find_first_match_witness :
  storage.find (storage_base sload_ctx) 1 (repeat 0xAA 20) (word_of_byte 7)
  = Some (Some 0) /\
  0 <= 0 < 1 /\
  (exists e, load (storage_base sload_ctx) 0 = Some e /\
             address e = repeat 0xAA 20 /\ key e = word_of_byte 7) /\
  (forall j e, 0 <= j < 0 -> load (storage_base sload_ctx) j = Some e ->
               entry_matches (repeat 0xAA 20) (word_of_byte 7) e = false).
Proof.
  split; [reflexivity |].
  exact (find_first_match (storage_base sload_ctx) 1 (repeat 0xAA 20)
           (word_of_byte 7) (Some 0) eq_refl).
Defined.

Lemma find_loop_ext l l' addr k : forall n i,
  (forall j, i <= j < i + Z.of_nat n -> load l' j = load l j) ->
  storage.find_loop l' n i addr k = storage.find_loop l n i addr k.
Proof.
  induction n as [| n IH]; intros i Hsame; [reflexivity |].
  cbn [storage.find_loop]. rewrite Hsame by lia.
  destruct (load l i) as [e |]; [| reflexivity]. cbn [bind].
  destruct (bytes_eqb (address e) addr && bytes_eqb (key e) k); [reflexivity |].
  apply IH. intros j Hj. apply Hsame. lia.
Qed.

Lemma find_loop_app l addr k m : forall n i,
  storage.find_loop l n i addr k = Some None ->
  storage.find_loop l (n + m) i addr k =
  storage.find_loop l m (i + Z.of_nat n) addr k.
Proof.
  induction n as [| n IH]; intros i H.
  - cbn [Nat.add]. f_equal. cbn. lia.
  - cbn [Nat.add storage.find_loop] in *.
    destruct (load l i) as [e |]; [| discriminate]. cbn [bind] in *.
    destruct (bytes_eqb (address e) addr && bytes_eqb (key e) k);
      [discriminate |].
    rewrite (IH _ H). f_equal. lia.
Qed.

(** [storage::add] with room left. *)
Lemma add_entry_some (entries : list StorageEntry) (count max_slots : Z)
    (addr : list Z) (k : word) (spare : StorageEntry) :
  0 <= count < max_slots -> max_slots < 2 ^ 32 ->
  load entries count = Some spare ->
  exists entries',
    storage.add entries count max_slots addr k =
    Some (Some count, entries', count + 1) /\
    load entries' count = Some (mkStorageEntry addr k zero_word zero_word 0) /\
    (forall j, 0 <= j -> j <> count -> load entries' j = load entries j).
Proof.
  intros Hroom Hmax Hplane.
  destruct (store_load entries count spare
              (mkStorageEntry addr k zero_word zero_word 0) Hplane)
    as (entries' & Hstore & Hload).
  exists entries'. split; [| split; [exact Hload |]].
  - unfold storage.add.
    destruct (Z.leb_spec max_slots count) as [Hle | _]; [lia |].
    rewrite Hstore. cbn [bind ret]. now rewrite to_u32_small by lia.
  - intros j Hj Hne. apply (store_other _ _ _ _ _ Hstore); [exact Hj | lia].
Qed.

(** X2: after [storage::find] misses, [storage::add] with room left writes
    a zero, cold entry for the address and key at index [count], leaves the
    entries before it alone, counts it, and [storage::find] then returns
    it. *)
Theorem add_then_find (entries : list StorageEntry) (count max_slots : Z)
    (addr : list Z) (k : word) (spare : StorageEntry)
    (Hmiss : storage.find entries count addr k = Some None)
    (Hroom : 0 <= count < max_slots)
    (Hmax : max_slots < 2 ^ 32)
    (Hplane : load entries count = Some spare) :
  exists entries',
    storage.add entries count max_slots addr k =
    Some (Some count, entries', count + 1) /\
    load entries' count = Some (mkStorageEntry addr k zero_word zero_word 0) /\
    (forall j, 0 <= j -> j <> count -> load entries' j = load entries j) /\
    storage.find entries' (count + 1) addr k = Some (Some count).
Proof.
  destruct (store_load entries count spare
              (mkStorageEntry addr k zero_word zero_word 0) Hplane)
    as (entries' & Hstore & Hload).
  exists entries'. split; [| split; [exact Hload | split]].
  - unfold storage.add.
    destruct (Z.leb_spec max_slots count) as [Hle | _]; [lia |].
    rewrite Hstore. cbn [bind ret]. now rewrite to_u32_small by lia.
  - intros j Hj Hne. apply (store_other _ _ _ _ _ Hstore); [exact Hj | lia].
  - unfold storage.find in *.
    replace (Z.to_nat (count + 1)) with (Z.to_nat count + 1)%nat by lia.
    assert (Hmiss' : storage.find_loop entries' (Z.to_nat count) 0 addr k = Some None).
    { rewrite <- Hmiss. apply find_loop_ext. intros j Hj.
      apply (store_other _ _ _ _ _ Hstore); lia. }
    rewrite (find_loop_app _ _ _ _ _ _ Hmiss').
    cbn [storage.find_loop]. replace (0 + Z.of_nat (Z.to_nat count)) with count by lia.
    rewrite Hload. cbn [bind address key]. now rewrite !bytes_eqb_refl.
Qed.

Lemma add_then_find_witness :
  (storage.find (storage_base sload_ctx) 1 (repeat 0xAA 20) (word_of_byte 9)
   = Some None /\
   0 <= 1 < 4 /\ 4 < 2 ^ 32 /\
   load (storage_base sload_ctx) 1 =
   Some (mkStorageEntry (repeat 0 20) zero_word zero_word zero_word 0)) /\
  exists entries',
    storage.add (storage_base sload_ctx) 1 4 (repeat 0xAA 20) (word_of_byte 9) =
    Some (Some 1, entries', 1 + 1) /\
    load entries' 1 =
    Some (mkStorageEntry (repeat 0xAA 20) (word_of_byte 9) zero_word zero_word 0) /\
    (forall j, 0 <= j -> j <> 1 ->
               load entries' j = load (storage_base sload_ctx) j) /\
    storage.find entries' (1 + 1) (repeat 0xAA 20) (word_of_byte 9) =
    Some (Some 1).
Proof.
  assert (Hroom : 0 <= 1 < 4) by (split; [discriminate | reflexivity]).
  assert (Hmax : 4 < 2 ^ 32) by reflexivity.
  split; [repeat split; try reflexivity; apply Hroom |].
  exact (add_then_find (storage_base sload_ctx) 1 4 (repeat 0xAA 20)
           (word_of_byte 9) _ eq_refl Hroom Hmax eq_refl).
Defined.

(** ** SLOAD and SSTORE handlers *)

Lemma poke_some ctx p w w' :
  load (stack_base ctx) p = Some w ->
  exists s, poke ctx p w' = Some (set_stack s ctx) /\
            load s p = Some w' /\
            (forall j, 0 <= j -> j <> p -> load s j = load (stack_base ctx) j).
Proof.
  intros H. destruct (store_load _ _ _ w' H) as (s & Hs & Hl).
  exists s. unfold poke. rewrite Hs. repeat split; [exact Hl |].
  intros j Hj Hne. apply (store_other _ _ _ _ _ Hs); [exact Hj | congruence].
Qed.

(** X3: SLOAD of a slot that has an entry replaces the key on top of the
    stack by the entry's value, costs 2100 for a cold entry and 100 for a
    warm one, and marks the entry warm; SLOAD of a slot without entry
    replaces the key by zero for 2100 and leaves the storage plane alone. *)
Theorem sload_result (ctx : ExecutionContext) (key_word : word)
    (found : option Z)
    (Hitems : 1 <= stack_size (frame ctx))
    (Hkey : load (stack_base ctx) (stack_size (frame ctx) - 1) = Some key_word)
    (Hfind : storage.find (storage_base ctx) (storage_slot_count (frame ctx))
               (contract (frame ctx)) key_word = Some found) :
  exists r ctx',
    op_sload ctx = Some (r, ctx') /\
    pc_increment r = 1 /\
    frame ctx' = frame ctx /\
    match found with
    | Some entry =>
        exists e, load (storage_base ctx) entry = Some e /\
          gas_cost r = (if is_warm e =? 0 then 2100 else 100) /\
          load (stack_base ctx') (stack_size (frame ctx) - 1) = Some (value e) /\
          load (storage_base ctx') entry = Some (set_is_warm 1 e)
    | None =>
        gas_cost r = 2100 /\
        load (stack_base ctx') (stack_size (frame ctx) - 1) = Some zero_word /\
        storage_base ctx' = storage_base ctx
    end.
Proof.
  unfold op_sload. rewrite stack_top_some by lia.
  unfold peek. rewrite Z.sub_0_r, Hkey. cbn [bind]. rewrite Hfind. cbn [bind].
  destruct found as [entry |].
  - destruct (find_some_load _ _ _ _ _ Hfind) as (e & He & _).
    rewrite He. cbn [bind].
    destruct (poke_some ctx _ _ (value e) Hkey) as (s & Hpoke & Hs & _).
    rewrite Hpoke. cbn [bind].
    destruct (store_load (storage_base (set_stack s ctx)) entry e
                (set_is_warm 1 e) He) as (sto & Hsto & Hl).
    rewrite Hsto. cbn [bind ret].
    eexists _, _. split; [reflexivity |]. repeat split.
    exists e. repeat split; [exact Hs | exact Hl].
  - destruct (poke_some ctx _ _ zero_word Hkey) as (s & Hpoke & Hs & _).
    rewrite Hpoke. cbn [bind ret].
    eexists _, _. split; [reflexivity |]. repeat split. exact Hs.
Qed.

Lemma sload_result_witness :
  (1 <= stack_size (frame sload_ctx) /\
   load (stack_base sload_ctx) (stack_size (frame sload_ctx) - 1) =
   Some (word_of_byte 7) /\
   storage.find (storage_base sload_ctx) (storage_slot_count (frame sload_ctx))
     (contract (frame sload_ctx)) (word_of_byte 7) = Some (Some 0)) /\
  exists r ctx',
    op_sload sload_ctx = Some (r, ctx') /\
    pc_increment r = 1 /\
    frame ctx' = frame sload_ctx /\
    exists e, load (storage_base sload_ctx) 0 = Some e /\
      gas_cost r = (if is_warm e =? 0 then 2100 else 100) /\
      load (stack_base ctx') (stack_size (frame sload_ctx) - 1) = Some (value e) /\
      load (storage_base ctx') 0 = Some (set_is_warm 1 e).
Proof.
  assert (Hitems : 1 <= stack_size (frame sload_ctx)) by discriminate.
  split; [repeat split; exact Hitems |].
  exact (sload_result sload_ctx (word_of_byte 7) (Some 0) Hitems eq_refl eq_refl).
Defined.

(** X4: SSTORE in a non-static frame to a slot without entry, with room in
    the storage plane, appends an entry for the contract and key whose
    value and original are both the stored value and which is warm, counts
    it, pops both operands and costs 20000; without room it halts the frame
    with [INVALID_OPERATION] and changes nothing else. *)
Theorem sstore_new_entry (ctx : ExecutionContext) (key_word value_word : word)
    (Hstatic : is_static (frame ctx) = 0)
    (Hitems : 2 <= stack_size (frame ctx))
    (Hkey : load (stack_base ctx) (stack_size (frame ctx) - 1) = Some key_word)
    (Hvalue : load (stack_base ctx) (stack_size (frame ctx) - 2) = Some value_word)
    (Hfind : storage.find (storage_base ctx) (storage_slot_count (frame ctx))
               (contract (frame ctx)) key_word = Some None)
    (Hcount : 0 <= storage_slot_count (frame ctx))
    (Hmax : max_storage_slots (frame ctx) < 2 ^ 32)
    (Hplane : max_storage_slots (frame ctx)
              <= Z.of_nat (length (storage_base ctx))) :
  if max_storage_slots (frame ctx) <=? storage_slot_count (frame ctx) then
    op_sstore ctx = Some (error_result, halt 4 2 ctx)
  else
    exists ctx',
      op_sstore ctx = Some (mkOpResult 1 20000, ctx') /\
      storage_slot_count (frame ctx') = storage_slot_count (frame ctx) + 1 /\
      load (storage_base ctx') (storage_slot_count (frame ctx)) =
      Some (mkStorageEntry (contract (frame ctx)) key_word value_word
              value_word 1) /\
      (forall j, 0 <= j -> j <> storage_slot_count (frame ctx) ->
                 load (storage_base ctx') j = load (storage_base ctx) j) /\
      stack_size (frame ctx') = stack_size (frame ctx) - 2 /\
      gas_refund (frame ctx') = gas_refund (frame ctx).
Proof.
  unfold op_sstore. rewrite Hstatic. cbn [Z.eqb negb].
  rewrite !stack_top_some by lia.
  unfold peek. rewrite Z.sub_0_r, Hkey.
  replace (stack_size (frame ctx) - 1 - 1) with (stack_size (frame ctx) - 2) by lia.
  rewrite Hvalue. cbn [bind]. rewrite Hfind. cbn [bind].
  destruct (Z.leb_spec (max_storage_slots (frame ctx))
              (storage_slot_count (frame ctx))) as [Hfull | Hroom].
  - unfold storage.add.
    destruct (Z.leb_spec (max_storage_slots (frame ctx))
                (storage_slot_count (frame ctx))); [reflexivity | lia].
  - assert (Hspare : exists spare,
               load (storage_base ctx) (storage_slot_count (frame ctx)) = Some spare).
    { unfold load. destruct (Z.ltb_spec (storage_slot_count (frame ctx)) 0); [lia |].
      destruct (nth_error (storage_base ctx)
                  (Z.to_nat (storage_slot_count (frame ctx)))) eqn:E; [eauto |].
      apply nth_error_None in E. lia. }
    destruct Hspare as (spare & Hspare).
    destruct (add_entry_some _ _ _ (contract (frame ctx)) key_word spare
                (conj Hcount Hroom) Hmax Hspare) as (entries' & Hadd & Hnew & Hold).
    rewrite Hadd. cbn [bind]. proj_simpl. rewrite Hnew. cbn [bind].
    destruct (store_load entries' _ _
                (set_is_warm 1 (set_original value_word
                   (set_value value_word
                      (mkStorageEntry (contract (frame ctx)) key_word
                         zero_word zero_word 0)))) Hnew) as (s & Hs & Hl).
    rewrite Hs. cbn [bind ret].
    eexists. split; [reflexivity |].
    rewrite stack_free_enough by (proj_simpl; lia). proj_simpl.
    repeat split; try lia.
    + exact Hl.
    + intros j Hj Hne. rewrite (store_other _ _ _ _ _ Hs) by congruence.
      now apply Hold.
Qed.

Lemma sstore_new_entry_witness :
  (is_static (frame sstore_new_ctx) = 0 /\
   2 <= stack_size (frame sstore_new_ctx) /\
   load (stack_base sstore_new_ctx) (stack_size (frame sstore_new_ctx) - 1) =
   Some (word_of_byte 9) /\
   load (stack_base sstore_new_ctx) (stack_size (frame sstore_new_ctx) - 2) =
   Some (word_of_byte 42) /\
   storage.find (storage_base sstore_new_ctx)
     (storage_slot_count (frame sstore_new_ctx))
     (contract (frame sstore_new_ctx)) (word_of_byte 9) = Some None /\
   0 <= storage_slot_count (frame sstore_new_ctx) /\
   max_storage_slots (frame sstore_new_ctx) < 2 ^ 32 /\
   max_storage_slots (frame sstore_new_ctx)
   <= Z.of_nat (length (storage_base sstore_new_ctx))) /\
  if max_storage_slots (frame sstore_new_ctx)
     <=? storage_slot_count (frame sstore_new_ctx)
  then op_sstore sstore_new_ctx = Some (error_result, halt 4 2 sstore_new_ctx)
  else
    exists ctx',
      op_sstore sstore_new_ctx = Some (mkOpResult 1 20000, ctx') /\
      storage_slot_count (frame ctx') =
      storage_slot_count (frame sstore_new_ctx) + 1 /\
      load (storage_base ctx') (storage_slot_count (frame sstore_new_ctx)) =
      Some (mkStorageEntry (contract (frame sstore_new_ctx)) (word_of_byte 9)
              (word_of_byte 42) (word_of_byte 42) 1) /\
      (forall j, 0 <= j -> j <> storage_slot_count (frame sstore_new_ctx) ->
                 load (storage_base ctx') j =
                 load (storage_base sstore_new_ctx) j) /\
      stack_size (frame ctx') = stack_size (frame sstore_new_ctx) - 2 /\
      gas_refund (frame ctx') = gas_refund (frame sstore_new_ctx).
Proof.
  assert (Hitems : 2 <= stack_size (frame sstore_new_ctx)) by discriminate.
  assert (Hcount : 0 <= storage_slot_count (frame sstore_new_ctx)) by discriminate.
  assert (Hmax : max_storage_slots (frame sstore_new_ctx) < 2 ^ 32) by reflexivity.
  assert (Hplane : max_storage_slots (frame sstore_new_ctx)
                   <= Z.of_nat (length (storage_base sstore_new_ctx)))
    by discriminate.
  split; [repeat split; assumption |].
  exact (sstore_new_entry sstore_new_ctx (word_of_byte 9) (word_of_byte 42)
           eq_refl Hitems eq_refl eq_refl eq_refl Hcount Hmax Hplane).
Defined.

(** X5: in a static frame a pass of the loop that dispatches the SSTORE
    handler (byte 0x45 of this table) returns with [state =
    EXCEPTIONAL_HALT] and [halt_reason = ILLEGAL_STATE_CHANGE] (6) and
    changes nothing else: neither the stack, whatever it holds, nor the
    storage plane, nor [gas_remaining]. *)
Theorem static_sstore_handler (tracer : option TracerCallbacks)
    (ctx : ExecutionContext)
    (Hstatic : is_static (frame ctx) <> 0)
    (Hfetch : load (code ctx) (pc (frame ctx)) = Some 0x45)
    (Hgas : 3 <= gas_remaining (frame ctx)) :
  op_sstore ctx = Some (error_result, halt 4 6 ctx) /\
  snd (loop_body tracer ctx) = Exit (halt 4 6 ctx) /\
  halt_code ILLEGAL_STATE_CHANGE = 6.
Proof.
  assert (Hrun : op_sstore ctx = Some (error_result, halt 4 6 ctx)).
  { unfold op_sstore.
    destruct (Z.eqb_spec (is_static (frame ctx)) 0); [contradiction | reflexivity]. }
  split; [exact Hrun |]. split; [| reflexivity].
  now rewrite (loop_body_error tracer ctx 0x45 op_sstore error_result
                 (halt 4 6 ctx) ltac:(now apply Z.ltb_ge) Hfetch eq_refl Hrun eq_refl).
Qed.

Lemma static_sstore_handler_witness :
  (is_static (frame static_sstore_ctx) <> 0 /\
   load (code static_sstore_ctx) (pc (frame static_sstore_ctx)) = Some 0x45 /\
   3 <= gas_remaining (frame static_sstore_ctx)) /\
  op_sstore static_sstore_ctx = Some (error_result, halt 4 6 static_sstore_ctx) /\
  snd (loop_body None static_sstore_ctx) = Exit (halt 4 6 static_sstore_ctx) /\
  halt_code ILLEGAL_STATE_CHANGE = 6.
Proof.
  assert (Hstatic : is_static (frame static_sstore_ctx) <> 0) by discriminate.
  assert (Hgas : 3 <= gas_remaining (frame static_sstore_ctx)) by discriminate.
  split; [repeat split; [exact Hstatic | exact Hgas] |].
  exact (static_sstore_handler None static_sstore_ctx Hstatic eq_refl Hgas).
Defined.

Lemma find_loop_same_keys l l' addr k : forall n i,
  (forall j, i <= j < i + Z.of_nat n ->
     option_map (entry_matches addr k) (load l' j) =
     option_map (entry_matches addr k) (load l j)) ->
  storage.find_loop l' n i addr k = storage.find_loop l n i addr k.
Proof.
  induction n as [| n IH]; intros i Hsame; [reflexivity |].
  cbn [storage.find_loop].
  pose proof (Hsame i ltac:(lia)) as Hi.
  rewrite IH by (intros j Hj; apply Hsame; lia).
  destruct (load l i) as [e |], (load l' i) as [e' |]; try discriminate;
    [| reflexivity].
  cbn [bind option_map] in *. injection Hi as Hi.
  unfold entry_matches in Hi. now rewrite Hi.
Qed.

(** Overwriting an entry's value and warmth does not change what
    [storage::find] returns. *)
Lemma find_after_update entries entries' count addr k p e e' :
  load entries p = Some e ->
  store entries p e' = Some entries' ->
  address e' = address e -> key e' = key e ->
  storage.find entries' count addr k = storage.find entries count addr k.
Proof.
  intros He Hs Ha Hk. unfold storage.find. apply find_loop_same_keys.
  intros j Hj. destruct (Z.eq_dec j p) as [-> | Hne].
  - rewrite (store_same _ _ _ _ Hs), He. cbn. unfold entry_matches.
    now rewrite Ha, Hk.
  - now rewrite (store_other _ _ _ _ _ Hs) by lia.
Qed.

Lemma load_nonneg {A : Type} (l : list A) (i : Z) (a : A) :
  load l i = Some a -> 0 <= i.
Proof. unfold load. destruct (Z.ltb_spec i 0); [discriminate | lia]. Qed.

(** What a successful SSTORE leaves in the storage plane. *)
Lemma sstore_stores ctx r ctx1 k v :
  op_sstore ctx = Some (r, ctx1) ->
  0 <= pc_increment r ->
  load (stack_base ctx) (stack_size (frame ctx) - 1) = Some k ->
  load (stack_base ctx) (stack_size (frame ctx) - 2) = Some v ->
  0 <= storage_slot_count (frame ctx) ->
  max_storage_slots (frame ctx) < 2 ^ 32 ->
  contract (frame ctx1) = contract (frame ctx) /\
  exists p e,
    storage.find (storage_base ctx1) (storage_slot_count (frame ctx1))
      (contract (frame ctx)) k = Some (Some p) /\
    load (storage_base ctx1) p = Some e /\ value e = v /\ is_warm e = 1.
Proof.
  intros H Hok Hk Hv Hcount Hmax. unfold op_sstore in H.
  run_handler H;
    repeat match goal with
    | E : storage.add _ _ _ _ _ = Some _ |- _ =>
        apply storage_add_inv in E;
        destruct E as [(? & ? & ? & ?) | (? & ? & ? & ?)]
    end;
    helper_facts; proj_simpl; try lia;
    unfold peek in *;
    repeat match goal with
    | E : load (stack_base _) (stack_size (frame _) - 1 - 0) = _ |- _ =>
        rewrite Z.sub_0_r, Hk in E; injection E as <-
    | E : load (stack_base _) (stack_size (frame _) - 1 - 1) = _ |- _ =>
        replace (stack_size (frame ctx) - 1 - 1)
          with (stack_size (frame ctx) - 2) in E by lia;
        rewrite Hv in E; injection E as <-
    end.
  - (* the entry exists *)
    match goal with
    | E2 : load (storage_base ctx) ?p = Some ?e,
      E3 : store _ ?p ?e' = Some ?l |- _ =>
        destruct (is_zero v && negb (is_zero (value e)));
        proj_simpl;
        (rewrite stack_free_enough by (proj_simpl; lia)); proj_simpl;
        (split; [reflexivity |]); exists p, e';
        rewrite (find_after_update _ _ _ _ _ _ _ _ E2 E3 eq_refl eq_refl);
        (split; [assumption |]);
        (split; [exact (store_same _ _ _ _ E3) | split; reflexivity])
    end.
  - (* a new entry *)
    rewrite stack_free_enough by (proj_simpl; lia). proj_simpl.
    split; [reflexivity |].
    match goal with
    | Hnew : store (storage_base ctx) _ ?e0 = Some ?l0,
      E2 : load ?l0 _ = Some ?e,
      E3 : store ?l0 _ ?e' = Some ?l1,
      E1 : storage.find _ _ _ _ = Some None |- _ =>
        exists (storage_slot_count (frame ctx)), e';
        (split; [| split; [exact (store_same _ _ _ _ E3) | split; reflexivity]]);
        pose proof (store_same _ _ _ _ Hnew) as Hsame;
        rewrite E2 in Hsame; injection Hsame as ->;
        rewrite (find_after_update _ _ _ _ _ _ _ _ E2 E3 eq_refl eq_refl);
        rewrite to_u32_small by lia;
        unfold storage.find in *;
        replace (Z.to_nat (storage_slot_count (frame ctx) + 1))
          with (Z.to_nat (storage_slot_count (frame ctx)) + 1)%nat by lia;
        rewrite find_loop_app;
        [ cbn [storage.find_loop];
          replace (0 + Z.of_nat (Z.to_nat (storage_slot_count (frame ctx))))
            with (storage_slot_count (frame ctx)) by lia;
          rewrite E2; cbn [bind address key]; rewrite !bytes_eqb_refl;
          reflexivity
        | rewrite <- E1; apply find_loop_ext; intros j Hj;
          apply (store_other _ _ _ _ _ Hnew); lia ]
    end.
Qed.

(** X6: a value written by a successful SSTORE is what a later SLOAD of the
    same key in the same contract puts on the stack, at the warm price of
    100, whether SSTORE found the entry or created it. *)
Theorem sstore_then_sload (ctx ctx1 ctx2 : ExecutionContext) (r : OpResult)
    (key_word value_word : word)
    (Hstore : op_sstore ctx = Some (r, ctx1))
    (Hok : 0 <= pc_increment r)
    (Hkey : load (stack_base ctx) (stack_size (frame ctx) - 1) = Some key_word)
    (Hvalue : load (stack_base ctx) (stack_size (frame ctx) - 2) = Some value_word)
    (Hcount : 0 <= storage_slot_count (frame ctx))
    (Hmax : max_storage_slots (frame ctx) < 2 ^ 32)
    (Hplane : storage_base ctx2 = storage_base ctx1)
    (Hslots : storage_slot_count (frame ctx2) = storage_slot_count (frame ctx1))
    (Hcontract : contract (frame ctx2) = contract (frame ctx))
    (Hitems : 1 <= stack_size (frame ctx2))
    (Hkey2 : load (stack_base ctx2) (stack_size (frame ctx2) - 1) = Some key_word) :
  exists ctx3,
    op_sload ctx2 = Some (mkOpResult 1 100, ctx3) /\
    frame ctx3 = frame ctx2 /\
    load (stack_base ctx3) (stack_size (frame ctx2) - 1) = Some value_word.
Proof.
  destruct (sstore_stores _ _ _ _ _ Hstore Hok Hkey Hvalue Hcount Hmax)
    as (_ & p & e & Hfind & He & Hv & Hwarm).
  unfold op_sload. rewrite stack_top_some by lia.
  unfold peek. rewrite Z.sub_0_r, Hkey2. cbn [bind].
  rewrite Hplane, Hslots, Hcontract, Hfind. cbn [bind].
  rewrite He. cbn [bind].
  destruct (poke_some ctx2 _ _ (value e) Hkey2) as (s & Hpoke & Hs & _).
  rewrite Hpoke. cbn [bind].
  assert (He2 : load (storage_base (set_stack s ctx2)) p = Some e)
    by (cbn [storage_base set_stack]; now rewrite Hplane).
  destruct (store_load _ p e (set_is_warm 1 e) He2) as (sto & Hsto & _).
  rewrite Hsto. cbn [bind ret]. rewrite Hwarm. cbn [Z.eqb].
  eexists. split; [reflexivity |]. split; [reflexivity |].
  cbn [stack_base set_storage set_stack]. now rewrite Hs, Hv.
Qed.

Lemma sstore_then_sload_witness :
  exists r ctx1,
    op_sstore sstore_new_ctx = Some (r, ctx1) /\
    exists ctx3,
      op_sload (sload_after ctx1) = Some (mkOpResult 1 100, ctx3) /\
      frame ctx3 = frame (sload_after ctx1) /\
      load (stack_base ctx3) (stack_size (frame (sload_after ctx1)) - 1) =
      Some (word_of_byte 42).
Proof.
  eexists _, _. split; [vm_compute; reflexivity |].
  refine (sstore_then_sload sstore_new_ctx _ _ _ (word_of_byte 9) (word_of_byte 42)
            _ _ _ _ _ _ _ _ _ _ _); vm_compute; try reflexivity; try discriminate.
Defined.

(** ** Words as numbers *)

Lemma fold_value_app (b : list Z) : forall acc,
  fold_left (fun acc b => acc * 256 + b) b acc =
  acc * 256 ^ Z.of_nat (length b) + word_value b.
Proof.
  unfold word_value. induction b as [| x b IH]; intros acc.
  - cbn. lia.
  - cbn [fold_left length]. rewrite IH, (IH (0 * 256 + x)).
    rewrite Nat2Z.inj_succ, Z.pow_succ_r by lia. ring.
Qed.

Lemma word_value_app (a b : list Z) :
  word_value (a ++ b) = word_value a * 256 ^ Z.of_nat (length b) + word_value b.
Proof. unfold word_value at 1. rewrite fold_left_app. apply fold_value_app. Qed.

Lemma word_value_range (w : list Z) :
  Forall Int.is_u8 w -> 0 <= word_value w < 256 ^ Z.of_nat (length w).
Proof.
  induction w as [| x w IH] using rev_ind; intros H.
  - cbn. lia.
  - apply Forall_app in H. destruct H as [Hw Hx].
    inversion Hx as [| ? ? Hb _]; subst. unfold Int.is_u8 in Hb.
    specialize (IH Hw). rewrite word_value_app, length_app.
    cbn [length]. change (word_value [x]) with (0 * 256 + x).
    rewrite Nat2Z.inj_add, Z.pow_add_r by lia.
    change (256 ^ Z.of_nat 1) with 256. nia.
Qed.

(** A 32-byte word splits into its upper 24 and its lower 8 bytes. *)
Lemma word_split (w : word) :
  is_word w ->
  exists z b7 b6 b5 b4 b3 b2 b1 b0,
    w = z ++ [b7; b6; b5; b4; b3; b2; b1; b0] /\ length z = 24%nat /\
    Forall Int.is_u8 z /\ Forall Int.is_u8 [b7; b6; b5; b4; b3; b2; b1; b0].
Proof.
  intros [Hlen Hbytes].
  rewrite <- (firstn_skipn 24 w) in Hbytes. apply Forall_app in Hbytes.
  destruct Hbytes as [Hz Hlow].
  assert (Hl : length (skipn 24 w) = 8%nat) by (rewrite length_skipn; lia).
  destruct (skipn 24 w) as [| b7 [| b6 [| b5 [| b4 [| b3 [| b2 [| b1 [| b0 [| ? ?]]]]]]]]] eqn:E;
    try discriminate Hl.
  exists (firstn 24 w), b7, b6, b5, b4, b3, b2, b1, b0.
  split; [now rewrite <- E, firstn_skipn |].
  split; [rewrite length_firstn; lia |]. now split.
Qed.

(** [word_to_u64] keeps the low 64 bits of the number. *)
Lemma word_to_u64_value (w : word) :
  is_word w -> word_to_u64 w = word_value w mod 2 ^ 64.
Proof.
  intros Hw.
  destruct (word_split w Hw) as (z & b7 & b6 & b5 & b4 & b3 & b2 & b1 & b0 &
                                 -> & Hz & _ & Hlow).
  rewrite word_to_u64_shape by assumption.
  rewrite word_value_app.
  pose proof (word_value_range _ Hlow) as Hr.
  cbn [length] in *. change (256 ^ Z.of_nat 8) with (2 ^ 64) in *.
  rewrite (Z.add_comm (word_value z * 2 ^ 64)), Z.mod_add by lia.
  rewrite Z.mod_small by exact Hr. reflexivity.
Qed.

Lemma u64_to_word_is_word (v : Z) : is_word (u64_to_word v).
Proof.
  rewrite u64_to_word_shape. split; [reflexivity |].
  apply Forall_app. split.
  - apply Forall_forall. intros x Hx. apply repeat_spec in Hx. subst.
    unfold Int.is_u8. lia.
  - repeat (apply Forall_cons; [apply Z.mod_pos_bound; lia |]); apply Forall_nil.
Qed.

Lemma word_value_u64 (v : Z) : Int.is_u64 v -> word_value (u64_to_word v) = v.
Proof.
  intros Hv. rewrite u64_to_word_shape, word_value_app.
  change (word_value (repeat 0 24)) with 0.
  unfold word_value. cbn [fold_left Z.mul Z.add].
  rewrite (Z.mod_small _ 256) by now apply u64_top_byte.
  now rewrite !div_mod_256.
Qed.

Lemma word_to_u64_range (w : word) : is_word w -> Int.is_u64 (word_to_u64 w).
Proof.
  intros Hw. rewrite word_to_u64_value by exact Hw.
  unfold Int.is_u64. apply Z.mod_pos_bound. lia.
Qed.

Lemma word_of_byte_is_word (b : Z) : 0 <= b < 256 -> is_word (word_of_byte b).
Proof.
  intros Hb. split; [reflexivity |]. unfold word_of_byte.
  apply Forall_app. split.
  - apply Forall_forall. intros x Hx. apply repeat_spec in Hx. subst.
    unfold Int.is_u8. lia.
  - apply Forall_cons; [exact Hb | apply Forall_nil].
Qed.

Lemma word_value_of_byte (b : Z) : word_value (word_of_byte b) = b.
Proof.
  unfold word_of_byte. rewrite word_value_app.
  change (word_value (repeat 0 31)) with 0. unfold word_value. cbn. lia.
Qed.

(** ** Handlers that combine the two top words *)

Lemma binary_op_run f cost ctx wa wb :
  2 <= stack_size (frame ctx) ->
  load (stack_base ctx) (stack_size (frame ctx) - 1) = Some wa ->
  load (stack_base ctx) (stack_size (frame ctx) - 2) = Some wb ->
  exists ctx',
    binary_op f cost ctx = Some (mkOpResult 1 cost, ctx') /\
    leaves_on_top ctx ctx' 1 (f wa wb).
Proof.
  intros Hitems Ha Hb. unfold binary_op.
  rewrite !stack_top_some by lia. unfold peek.
  rewrite Z.sub_0_r, Ha.
  replace (stack_size (frame ctx) - 1 - 1) with (stack_size (frame ctx) - 2) by lia.
  rewrite Hb. cbn [bind].
  destruct (poke_some ctx _ _ (f wa wb) Hb) as (s & Hpoke & Hs & Hrest).
  rewrite Hpoke. cbn [bind ret].
  rewrite stack_free_enough by (proj_simpl; lia).
  eexists. split; [reflexivity |].
  unfold leaves_on_top. proj_simpl.
  replace (stack_size (frame ctx) - 1 - 1) with (stack_size (frame ctx) - 2) by lia.
  repeat split; assumption.
Qed.

Lemma unary_op_run f cost ctx wa :
  1 <= stack_size (frame ctx) ->
  load (stack_base ctx) (stack_size (frame ctx) - 1) = Some wa ->
  exists ctx',
    unary_op f cost ctx = Some (mkOpResult 1 cost, ctx') /\
    leaves_on_top ctx ctx' 0 (f wa).
Proof.
  intros Hitems Ha. unfold unary_op.
  rewrite stack_top_some by lia. unfold peek.
  rewrite Z.sub_0_r, Ha. cbn [bind].
  destruct (poke_some ctx _ _ (f wa) Ha) as (s & Hpoke & Hs & Hrest).
  rewrite Hpoke. cbn [bind ret].
  eexists. split; [reflexivity |].
  unfold leaves_on_top. proj_simpl. rewrite Z.sub_0_r.
  repeat split; try assumption.
  now destruct (frame ctx).
Qed.

Lemma on_u64_computes f cost ctx wa wb :
  2 <= stack_size (frame ctx) ->
  load (stack_base ctx) (stack_size (frame ctx) - 1) = Some wa ->
  load (stack_base ctx) (stack_size (frame ctx) - 2) = Some wb ->
  Int.is_u64 (f (word_to_u64 wa) (word_to_u64 wb)) ->
  computes (binary_op (on_u64 f) cost) ctx 1 cost
    (f (word_to_u64 wa) (word_to_u64 wb)).
Proof.
  intros Hitems Ha Hb Hr.
  destruct (binary_op_run (on_u64 f) cost ctx wa wb Hitems Ha Hb) as (ctx' & Hrun & Hl).
  exists ctx', (on_u64 f wa wb).
  split; [exact Hrun |]. split; [exact Hl |]. unfold on_u64.
  split; [apply u64_to_word_is_word | now apply word_value_u64].
Qed.

(** X7: ADD, MUL and SUB replace the two top words by one that denotes the
    sum, product or difference (top minus second) of the numbers the two
    words denote, reduced modulo 2^64 rather than 2^256; they cost 3, 5
    and 3 and touch nothing else. *)
Theorem wrapping_arithmetic (ctx : ExecutionContext) (wa wb : word)
    (Hitems : 2 <= stack_size (frame ctx))
    (Htop : load (stack_base ctx) (stack_size (frame ctx) - 1) = Some wa)
    (Hsecond : load (stack_base ctx) (stack_size (frame ctx) - 2) = Some wb)
    (Hwa : is_word wa) (Hwb : is_word wb) :
  computes op_add ctx 1 3 ((word_value wa + word_value wb) mod 2 ^ 64) /\
  computes op_mul ctx 1 5 ((word_value wa * word_value wb) mod 2 ^ 64) /\
  computes op_sub ctx 1 3 ((word_value wa - word_value wb) mod 2 ^ 64).
Proof.
  assert (Hadd : (word_value wa + word_value wb) mod 2 ^ 64 =
                 Int.to_u64 (word_to_u64 wa + word_to_u64 wb)).
  { unfold Int.to_u64. rewrite !word_to_u64_value by assumption.
    apply Z.add_mod. lia. }
  assert (Hmul : (word_value wa * word_value wb) mod 2 ^ 64 =
                 Int.to_u64 (word_to_u64 wa * word_to_u64 wb)).
  { unfold Int.to_u64. rewrite !word_to_u64_value by assumption.
    apply Z.mul_mod. lia. }
  assert (Hsub : (word_value wa - word_value wb) mod 2 ^ 64 =
                 Int.to_u64 (word_to_u64 wa - word_to_u64 wb)).
  { unfold Int.to_u64. rewrite !word_to_u64_value by assumption.
    apply Zminus_mod. }
  rewrite Hadd, Hmul, Hsub.
  split; [| split].
  - exact (on_u64_computes (fun a b => Int.to_u64 (a + b)) 3 ctx wa wb
             Hitems Htop Hsecond (to_u64_range _)).
  - exact (on_u64_computes (fun a b => Int.to_u64 (a * b)) 5 ctx wa wb
             Hitems Htop Hsecond (to_u64_range _)).
  - exact (on_u64_computes (fun a b => Int.to_u64 (a - b)) 3 ctx wa wb
             Hitems Htop Hsecond (to_u64_range _)).
Qed.

Lemma wrapping_arithmetic_witness :
  computes op_add (two_items 5 3) 1 3
    ((word_value (word_of_byte 3) + word_value (word_of_byte 5)) mod 2 ^ 64) /\
  computes op_mul (two_items 5 3) 1 5
    ((word_value (word_of_byte 3) * word_value (word_of_byte 5)) mod 2 ^ 64) /\
  computes op_sub (two_items 5 3) 1 3
    ((word_value (word_of_byte 3) - word_value (word_of_byte 5)) mod 2 ^ 64).
Proof.
  apply (wrapping_arithmetic (two_items 5 3) (word_of_byte 3) (word_of_byte 5)).
  - cbn. lia.
  - reflexivity.
  - reflexivity.
  - apply word_of_byte_is_word. lia.
  - apply word_of_byte_is_word. lia.
Defined.

(** X8: DIV, MOD, LT and GT see only the low 64 bits of their operands: with
    [a] and [b] the numbers of the top and the second word modulo 2^64, DIV
    leaves [a / b] and MOD [a mod b], both 0 when [b] is 0 (so also when
    the divisor is a non-zero multiple of 2^64), LT leaves 1 when [a < b]
    and GT when [a > b], else 0. *)
Theorem truncated_division_and_order (ctx : ExecutionContext) (wa wb : word)
    (Hitems : 2 <= stack_size (frame ctx))
    (Htop : load (stack_base ctx) (stack_size (frame ctx) - 1) = Some wa)
    (Hsecond : load (stack_base ctx) (stack_size (frame ctx) - 2) = Some wb)
    (Hwa : is_word wa) (Hwb : is_word wb) :
  let a := word_value wa mod 2 ^ 64 in
  let b := word_value wb mod 2 ^ 64 in
  computes op_div ctx 1 5 (if b =? 0 then 0 else a / b) /\
  computes op_mod ctx 1 5 (if b =? 0 then 0 else a mod b) /\
  computes op_lt ctx 1 3 (if a <? b then 1 else 0) /\
  computes op_gt ctx 1 3 (if b <? a then 1 else 0).
Proof.
  intros a b. subst a b.
  rewrite <- !word_to_u64_value by assumption.
  pose proof (word_to_u64_range wa Hwa) as Ha.
  pose proof (word_to_u64_range wb Hwb) as Hb.
  unfold Int.is_u64 in Ha, Hb.
  repeat split.
  - apply (on_u64_computes (fun a b => if b =? 0 then 0 else a / b));
      try assumption. cbv beta. unfold Int.is_u64.
    destruct (Z.eqb_spec (word_to_u64 wb) 0) as [| Hne]; [lia |].
    split; [apply Z.div_pos; lia |].
    apply Z.div_lt_upper_bound; nia.
  - apply (on_u64_computes (fun a b => if b =? 0 then 0 else a mod b));
      try assumption. cbv beta. unfold Int.is_u64.
    destruct (Z.eqb_spec (word_to_u64 wb) 0) as [| Hne]; [lia |].
    pose proof (Z.mod_pos_bound (word_to_u64 wa) (word_to_u64 wb)). lia.
  - apply (on_u64_computes (fun a b => if a <? b then 1 else 0));
      try assumption. cbv beta. unfold Int.is_u64.
    destruct (word_to_u64 wa <? word_to_u64 wb); lia.
  - apply (on_u64_computes (fun a b => if b <? a then 1 else 0));
      try assumption. cbv beta. unfold Int.is_u64.
    destruct (word_to_u64 wb <? word_to_u64 wa); lia.
Qed.

Lemma truncated_division_and_order_witness :
  let a := word_value (word_of_byte 7) mod 2 ^ 64 in
  let b := word_value (word_of_byte 3) mod 2 ^ 64 in
  computes op_div (two_items 3 7) 1 5 (if b =? 0 then 0 else a / b) /\
  computes op_mod (two_items 3 7) 1 5 (if b =? 0 then 0 else a mod b) /\
  computes op_lt (two_items 3 7) 1 3 (if a <? b then 1 else 0) /\
  computes op_gt (two_items 3 7) 1 3 (if b <? a then 1 else 0).
Proof.
  apply (truncated_division_and_order (two_items 3 7)
           (word_of_byte 7) (word_of_byte 3)).
  - cbn. lia.
  - reflexivity.
  - reflexivity.
  - apply word_of_byte_is_word. lia.
  - apply word_of_byte_is_word. lia.
Defined.

(** ** Comparisons and bitwise handlers work on all 256 bits *)

Lemma word_value_cons (x : Z) (w : list Z) :
  word_value (x :: w) = x * 256 ^ Z.of_nat (length w) + word_value w.
Proof.
  change (x :: w) with ([x] ++ w). rewrite word_value_app.
  unfold word_value at 1. cbn [fold_left]. lia.
Qed.

Lemma is_zero_value (w : list Z) :
  Forall Int.is_u8 w -> is_zero w = (word_value w =? 0).
Proof.
  induction w as [| x w IH]; intros H; [reflexivity |].
  inversion H as [| ? ? Hx Hw]; subst. unfold Int.is_u8 in Hx.
  pose proof (word_value_range w Hw) as Hr.
  rewrite word_value_cons. unfold is_zero in *. cbn [forallb].
  rewrite (IH Hw).
  assert (Hp : 0 < 256 ^ Z.of_nat (length w)) by (apply Z.pow_pos_nonneg; lia).
  destruct (Z.eqb_spec x 0) as [-> | Hne]; cbn [andb].
  - now rewrite Z.mul_0_l, Z.add_0_l.
  - symmetry. apply Z.eqb_neq. nia.
Qed.

Lemma word_value_inj (a : list Z) : forall b,
  length a = length b -> Forall Int.is_u8 a -> Forall Int.is_u8 b ->
  word_value a = word_value b -> a = b.
Proof.
  induction a as [| x a IH]; intros [| y b] Hlen Ha Hb Hv; try discriminate.
  - reflexivity.
  - inversion Ha as [| ? ? Hx Ha']; subst. inversion Hb as [| ? ? Hy Hb']; subst.
    injection Hlen as Hlen. unfold Int.is_u8 in Hx, Hy.
    rewrite !word_value_cons, <- Hlen in Hv.
    pose proof (word_value_range a Ha') as Hra.
    pose proof (word_value_range b Hb') as Hrb. rewrite <- Hlen in Hrb.
    assert (x = y) by nia. subst y.
    f_equal. apply IH; try assumption. lia.
Qed.

(** X9: EQ and ISZERO look at all 32 bytes: EQ leaves 1 exactly when the two
    top words denote the same number and ISZERO exactly when the top word
    denotes 0, else 0. *)
Theorem full_width_tests (ctx : ExecutionContext) (wa wb : word)
    (Hitems : 2 <= stack_size (frame ctx))
    (Htop : load (stack_base ctx) (stack_size (frame ctx) - 1) = Some wa)
    (Hsecond : load (stack_base ctx) (stack_size (frame ctx) - 2) = Some wb)
    (Hwa : is_word wa) (Hwb : is_word wb) :
  computes op_eq ctx 1 3 (if word_value wa =? word_value wb then 1 else 0) /\
  computes op_iszero ctx 0 3 (if word_value wa =? 0 then 1 else 0).
Proof.
  split.
  - destruct (binary_op_run (fun a b => u64_to_word (if bytes_eqb a b then 1 else 0))
                3 ctx wa wb Hitems Htop Hsecond) as (ctx' & Hrun & Hl).
    exists ctx', (u64_to_word (if bytes_eqb wa wb then 1 else 0)).
    split; [exact Hrun |]. split; [exact Hl |].
    split; [apply u64_to_word_is_word |].
    rewrite word_value_u64 by (unfold Int.is_u64; destruct (bytes_eqb wa wb); lia).
    destruct (Z.eqb_spec (word_value wa) (word_value wb)) as [Heq | Hne].
    + apply word_value_inj in Heq;
        [| destruct Hwa, Hwb; congruence | apply Hwa | apply Hwb].
      subst. now rewrite bytes_eqb_refl.
    + destruct (bytes_eqb wa wb) eqn:E; [| reflexivity].
      apply bytes_eqb_eq in E. congruence.
  - destruct (unary_op_run (fun a => u64_to_word (if is_zero a then 1 else 0))
                3 ctx wa ltac:(lia) Htop) as (ctx' & Hrun & Hl).
    exists ctx', (u64_to_word (if is_zero wa then 1 else 0)).
    split; [exact Hrun |]. split; [exact Hl |].
    split; [apply u64_to_word_is_word |].
    rewrite word_value_u64 by (unfold Int.is_u64; destruct (is_zero wa); lia).
    now rewrite is_zero_value by apply Hwa.
Qed.

Lemma full_width_tests_witness :
  computes op_eq (two_items 3 7) 1 3
    (if word_value (word_of_byte 7) =? word_value (word_of_byte 3) then 1 else 0) /\
  computes op_iszero (two_items 3 7) 0 3
    (if word_value (word_of_byte 7) =? 0 then 1 else 0).
Proof.
  apply (full_width_tests (two_items 3 7) (word_of_byte 7) (word_of_byte 3)).
  - cbn. lia.
  - reflexivity.
  - reflexivity.
  - apply word_of_byte_is_word. lia.
  - apply word_of_byte_is_word. lia.
Defined.

Lemma concat_bits (x u k n : Z) :
  0 <= k -> 0 <= u < 2 ^ k -> 0 <= n ->
  Z.testbit (x * 2 ^ k + u) n =
  if n <? k then Z.testbit u n else Z.testbit x (n - k).
Proof.
  intros Hk Hu Hn.
  assert (Hhigh : forall m, k <= m -> Z.testbit u m = false).
  { intros m Hm. replace u with (u mod 2 ^ k) by (apply Z.mod_small; lia).
    apply Z.mod_pow2_bits_high. lia. }
  assert (Hl : Z.land (Z.shiftl x k) u = 0).
  { apply Z.bits_inj'. intros m Hm. rewrite Z.land_spec, Z.bits_0.
    destruct (Z.ltb_spec m k) as [Hlt | Hge].
    - now rewrite Z.shiftl_spec_low.
    - rewrite Hhigh by lia. apply andb_false_r. }
  replace (x * 2 ^ k + u) with (Z.lor (Z.shiftl x k) u).
  - rewrite Z.lor_spec.
    destruct (Z.ltb_spec n k) as [Hlt | Hge].
    + now rewrite Z.shiftl_spec_low.
    + rewrite Hhigh by lia. rewrite Z.shiftl_spec by lia. apply orb_false_r.
  - rewrite <- Z.lxor_lor by exact Hl.
    rewrite <- Z.add_nocarry_lxor by exact Hl.
    now rewrite Z.shiftl_mul_pow2 by lia.
Qed.

Section BitOp.
Variable op : Z -> Z -> Z.
Variable bop : bool -> bool -> bool.
Hypothesis op_spec : forall a b n,
  Z.testbit (op a b) n = bop (Z.testbit a n) (Z.testbit b n).
Hypothesis bop_ff : bop false false = false.

Lemma bitop_range (u v k : Z) :
  0 <= k -> 0 <= u < 2 ^ k -> 0 <= v < 2 ^ k -> 0 <= op u v < 2 ^ k.
Proof.
  intros Hk Hu Hv.
  assert (E : op u v = op u v mod 2 ^ k).
  { apply Z.bits_inj'. intros n Hn.
    destruct (Z.ltb_spec n k) as [Hlt | Hge].
    - now rewrite Z.mod_pow2_bits_low.
    - rewrite Z.mod_pow2_bits_high by lia. rewrite op_spec.
      replace u with (u mod 2 ^ k) by (apply Z.mod_small; lia).
      replace v with (v mod 2 ^ k) by (apply Z.mod_small; lia).
      rewrite !Z.mod_pow2_bits_high by lia. exact bop_ff. }
  rewrite E. apply Z.mod_pos_bound. apply Z.pow_pos_nonneg; lia.
Qed.

Lemma bitop_concat (x y u v k : Z) :
  0 <= k -> 0 <= u < 2 ^ k -> 0 <= v < 2 ^ k ->
  op (x * 2 ^ k + u) (y * 2 ^ k + v) = op x y * 2 ^ k + op u v.
Proof.
  intros Hk Hu Hv. apply Z.bits_inj'. intros n Hn.
  rewrite op_spec, !concat_bits by (try apply bitop_range; lia).
  destruct (n <? k); now rewrite op_spec.
Qed.

Lemma bitop_zero : op 0 0 = 0.
Proof.
  apply Z.bits_inj'. intros n Hn. now rewrite op_spec, Z.bits_0.
Qed.

(** The loop [b\[i\] = b\[i\] op a\[i\]] over two byte strings is [op] on
    the numbers they denote. *)
Lemma bytewise_value (a : list Z) : forall b,
  length a = length b -> Forall Int.is_u8 a -> Forall Int.is_u8 b ->
  length (bytewise op a b) = length a /\
  Forall Int.is_u8 (bytewise op a b) /\
  word_value (bytewise op a b) = op (word_value b) (word_value a).
Proof.
  induction a as [| x a IH]; intros [| y b] Hlen Ha Hb; try discriminate.
  - cbn. repeat split; [constructor | now rewrite bitop_zero].
  - inversion Ha as [| ? ? Hx Ha']; subst. inversion Hb as [| ? ? Hy Hb']; subst.
    injection Hlen as Hlen.
    destruct (IH b Hlen Ha' Hb') as (Hl & Hf & Hv).
    unfold bytewise in *. cbn [combine map fst snd length].
    split; [now rewrite Hl |].
    split.
    + apply Forall_cons; [| exact Hf].
      unfold Int.is_u8 in *. apply (bitop_range _ _ 8); lia.
    + rewrite !word_value_cons, Hl, Hv, <- Hlen.
      pose proof (word_value_range a Ha') as Hra.
      pose proof (word_value_range b Hb') as Hrb. rewrite <- Hlen in Hrb.
      replace (256 ^ Z.of_nat (length a)) with (2 ^ (8 * Z.of_nat (length a))) in *
        by (rewrite Z.pow_mul_r by lia; reflexivity).
      now rewrite bitop_concat by lia.
Qed.

Lemma bytewise_computes (ctx : ExecutionContext) (wa wb : word) :
  2 <= stack_size (frame ctx) ->
  load (stack_base ctx) (stack_size (frame ctx) - 1) = Some wa ->
  load (stack_base ctx) (stack_size (frame ctx) - 2) = Some wb ->
  is_word wa -> is_word wb ->
  computes (binary_op (bytewise op) 3) ctx 1 3 (op (word_value wb) (word_value wa)).
Proof.
  intros Hitems Ha Hb [Hla Hfa] [Hlb Hfb].
  destruct (binary_op_run (bytewise op) 3 ctx wa wb Hitems Ha Hb) as (ctx' & Hrun & Hl).
  destruct (bytewise_value wa wb ltac:(congruence) Hfa Hfb) as (Hlen & Hf & Hv).
  exists ctx', (bytewise op wa wb).
  split; [exact Hrun |]. split; [exact Hl |].
  split; [split; [congruence | exact Hf] | exact Hv].
Qed.
End BitOp.

Lemma not_byte (x : Z) : Int.is_u8 x -> Int.to_u8 (Z.lnot x) = 255 - x.
Proof.
  unfold Int.is_u8, Int.to_u8, Z.lnot. intros Hx.
  replace (Z.pred (- x)) with (255 - x + (-1) * 2 ^ 8) by lia.
  rewrite Z.mod_add by lia. apply Z.mod_small. lia.
Qed.

Lemma not_value (w : list Z) :
  Forall Int.is_u8 w ->
  Forall Int.is_u8 (map (fun x => Int.to_u8 (Z.lnot x)) w) /\
  word_value (map (fun x => Int.to_u8 (Z.lnot x)) w) =
  256 ^ Z.of_nat (length w) - 1 - word_value w.
Proof.
  induction w as [| x w IH]; intros H.
  - split; [constructor | reflexivity].
  - inversion H as [| ? ? Hx Hw]; subst. destruct (IH Hw) as [Hf Hv].
    cbn [map]. rewrite not_byte by exact Hx. split.
    + apply Forall_cons; [unfold Int.is_u8 in *; lia | exact Hf].
    + rewrite !word_value_cons, length_map, Hv. cbn [length].
      rewrite Nat2Z.inj_succ, Z.pow_succ_r by lia. ring.
Qed.

(** X10: AND, OR and XOR replace the two top words by the bitwise
    conjunction, disjunction and exclusive disjunction of the 256-bit
    numbers they denote, and NOT replaces the top word by its 256-bit
    complement; each costs 3. *)
Theorem bitwise_full_width (ctx : ExecutionContext) (wa wb : word)
    (Hitems : 2 <= stack_size (frame ctx))
    (Htop : load (stack_base ctx) (stack_size (frame ctx) - 1) = Some wa)
    (Hsecond : load (stack_base ctx) (stack_size (frame ctx) - 2) = Some wb)
    (Hwa : is_word wa) (Hwb : is_word wb) :
  computes op_and ctx 1 3 (Z.land (word_value wb) (word_value wa)) /\
  computes op_or ctx 1 3 (Z.lor (word_value wb) (word_value wa)) /\
  computes op_xor ctx 1 3 (Z.lxor (word_value wb) (word_value wa)) /\
  computes op_not ctx 0 3 (2 ^ 256 - 1 - word_value wa).
Proof.
  split; [| split; [| split]].
  - exact (bytewise_computes Z.land andb Z.land_spec eq_refl ctx wa wb
             Hitems Htop Hsecond Hwa Hwb).
  - exact (bytewise_computes Z.lor orb Z.lor_spec eq_refl ctx wa wb
             Hitems Htop Hsecond Hwa Hwb).
  - exact (bytewise_computes Z.lxor xorb Z.lxor_spec eq_refl ctx wa wb
             Hitems Htop Hsecond Hwa Hwb).
  - destruct (unary_op_run (map (fun x => Int.to_u8 (Z.lnot x))) 3 ctx wa
                ltac:(lia) Htop) as (ctx' & Hrun & Hl).
    destruct Hwa as [Hlen Hf]. destruct (not_value wa Hf) as [Hf' Hv].
    exists ctx', (map (fun x => Int.to_u8 (Z.lnot x)) wa).
    split; [exact Hrun |]. split; [exact Hl |].
    split; [split; [now rewrite length_map | exact Hf'] |].
    rewrite Hv, Hlen. reflexivity.
Qed.

Lemma bitwise_full_width_witness :
  computes op_and (two_items 3 7) 1 3
    (Z.land (word_value (word_of_byte 3)) (word_value (word_of_byte 7))) /\
  computes op_or (two_items 3 7) 1 3
    (Z.lor (word_value (word_of_byte 3)) (word_value (word_of_byte 7))) /\
  computes op_xor (two_items 3 7) 1 3
    (Z.lxor (word_value (word_of_byte 3)) (word_value (word_of_byte 7))) /\
  computes op_not (two_items 3 7) 0 3 (2 ^ 256 - 1 - word_value (word_of_byte 7)).
Proof.
  apply (bitwise_full_width (two_items 3 7) (word_of_byte 7) (word_of_byte 3)).
  - cbn. lia.
  - reflexivity.
  - reflexivity.
  - apply word_of_byte_is_word. lia.
  - apply word_of_byte_is_word. lia.
Defined.

(** ** Handlers that move words on the stack *)

Lemma load_ext {A : Type} (l l' : list A) :
  (forall j, 0 <= j -> load l' j = load l j) -> l' = l.
Proof.
  intros H. apply nth_error_ext. intros n.
  specialize (H (Z.of_nat n) ltac:(lia)). unfold load in H.
  destruct (Z.ltb_spec (Z.of_nat n) 0); [lia |].
  now rewrite Nat2Z.id in H.
Qed.

Lemma swap_run n ctx wt wo :
  1 <= n < stack_size (frame ctx) ->
  load (stack_base ctx) (stack_size (frame ctx) - 1) = Some wt ->
  load (stack_base ctx) (stack_size (frame ctx) - 1 - n) = Some wo ->
  exists s,
    op_swap_n n ctx = Some (mkOpResult 1 3, set_stack s ctx) /\
    load s (stack_size (frame ctx) - 1) = Some wo /\
    load s (stack_size (frame ctx) - 1 - n) = Some wt /\
    (forall j, 0 <= j -> j <> stack_size (frame ctx) - 1 ->
       j <> stack_size (frame ctx) - 1 - n ->
       load s j = load (stack_base ctx) j).
Proof.
  intros Hn Ht Ho. unfold op_swap_n.
  rewrite !stack_top_some by lia. unfold peek.
  rewrite Z.sub_0_r, Ht, Ho. cbn [bind].
  destruct (poke_some ctx _ _ wo Ht) as (s1 & Hp1 & Hs1 & Hr1).
  rewrite Hp1. cbn [bind].
  pose proof (load_nonneg _ _ _ Ho) as Hpos.
  assert (Ho1 : load (stack_base (set_stack s1 ctx))
                  (stack_size (frame (set_stack s1 ctx)) - 1 - n) = Some wo).
  { proj_simpl. rewrite Hr1 by lia. exact Ho. }
  destruct (poke_some (set_stack s1 ctx) _ _ wt Ho1) as (s2 & Hp2 & Hs2 & Hr2).
  proj_simpl. rewrite Hp2. cbn [bind ret].
  exists s2. split; [reflexivity |].
  split; [| split; [exact Hs2 |]].
  - pose proof (load_nonneg _ _ _ Ht). rewrite Hr2 by lia. exact Hs1.
  - intros j Hj H1 H2. rewrite Hr2 by lia. apply Hr1; lia.
Qed.

(** X11: SWAPn exchanges the top word with the one [n] below it and leaves
    every other slot, the frame and the other planes alone; a second SWAPn
    gives back exactly the context the first one started from. *)
Theorem swap_exchanges_and_undoes (n : Z) (ctx : ExecutionContext)
    (wt wo : word)
    (Hn : 1 <= n < stack_size (frame ctx))
    (Htop : load (stack_base ctx) (stack_size (frame ctx) - 1) = Some wt)
    (Hother : load (stack_base ctx) (stack_size (frame ctx) - 1 - n) = Some wo) :
  exists ctx',
    op_swap_n n ctx = Some (mkOpResult 1 3, ctx') /\
    frame ctx' = frame ctx /\
    load (stack_base ctx') (stack_size (frame ctx) - 1) = Some wo /\
    load (stack_base ctx') (stack_size (frame ctx) - 1 - n) = Some wt /\
    (forall j, 0 <= j -> j <> stack_size (frame ctx) - 1 ->
       j <> stack_size (frame ctx) - 1 - n ->
       load (stack_base ctx') j = load (stack_base ctx) j) /\
    op_swap_n n ctx' = Some (mkOpResult 1 3, ctx).
Proof.
  destruct (swap_run n ctx wt wo Hn Htop Hother) as (s & Hrun & Hs1 & Hs2 & Hrest).
  exists (set_stack s ctx). split; [exact Hrun |].
  split; [reflexivity |]. split; [exact Hs1 |]. split; [exact Hs2 |].
  split; [exact Hrest |].
  destruct (swap_run n (set_stack s ctx) wo wt Hn Hs1 Hs2)
    as (s' & Hrun' & Hs1' & Hs2' & Hrest').
  rewrite Hrun'. do 2 f_equal.
  assert (Hback : s' = stack_base ctx).
  { apply load_ext. intros j Hj. proj_simpl.
    destruct (Z.eq_dec j (stack_size (frame ctx) - 1)) as [-> | H1];
      [congruence |].
    destruct (Z.eq_dec j (stack_size (frame ctx) - 1 - n)) as [-> | H2];
      [congruence |].
    rewrite Hrest' by assumption. now apply Hrest. }
  rewrite Hback. now destruct ctx.
Qed.

Lemma swap_exchanges_and_undoes_witness :
  exists ctx',
    op_swap_n 2 (three_items 1 2 3) = Some (mkOpResult 1 3, ctx') /\
    frame ctx' = frame (three_items 1 2 3) /\
    load (stack_base ctx') (stack_size (frame (three_items 1 2 3)) - 1) =
      Some (word_of_byte 1) /\
    load (stack_base ctx') (stack_size (frame (three_items 1 2 3)) - 1 - 2) =
      Some (word_of_byte 3) /\
    (forall j, 0 <= j -> j <> stack_size (frame (three_items 1 2 3)) - 1 ->
       j <> stack_size (frame (three_items 1 2 3)) - 1 - 2 ->
       load (stack_base ctx') j = load (stack_base (three_items 1 2 3)) j) /\
    op_swap_n 2 ctx' = Some (mkOpResult 1 3, three_items 1 2 3).
Proof.
  apply (swap_exchanges_and_undoes 2 (three_items 1 2 3)
           (word_of_byte 3) (word_of_byte 1)).
  - cbn. lia.
  - reflexivity.
  - reflexivity.
Defined.

Lemma alloc_some ctx :
  stack_size (frame ctx) < 1024 ->
  stack_alloc ctx =
  (Some (stack_size (frame ctx)),
   upd (set_stack_size (stack_size (frame ctx) + 1)) ctx).
Proof.
  intros H. unfold stack_alloc.
  destruct (Z.leb_spec 1024 (stack_size (frame ctx))); [lia | reflexivity].
Qed.

Lemma set_stack_size_back (f : MessageFrameMemory) (n : Z) :
  set_stack_size (n + 1 - 1) (set_stack_size (n + 1) f) =
  set_stack_size n f.
Proof. unfold set_stack_size. cbn. now rewrite Z.add_simpl_r. Qed.

(** A handler that fills a new slot with [v]. *)
Lemma push_word_run w r ctx v old :
  0 <= stack_size (frame ctx) < 1024 ->
  load (stack_base ctx) (stack_size (frame ctx)) = Some old ->
  w (upd (set_stack_size (stack_size (frame ctx) + 1)) ctx) = Some v ->
  exists ctx',
    push_word w r ctx = Some (r, ctx') /\ leaves_on_top ctx ctx' (-1) v.
Proof.
  intros Hsize Hslot Hw. unfold push_word.
  rewrite alloc_some by lia. rewrite Hw. cbn [bind].
  destruct (poke_some (upd (set_stack_size (stack_size (frame ctx) + 1)) ctx)
              _ _ v Hslot) as (s & Hpoke & Hs & Hrest).
  rewrite Hpoke. cbn [bind ret].
  eexists. split; [reflexivity |].
  unfold leaves_on_top. proj_simpl.
  replace (stack_size (frame ctx) - -1) with (stack_size (frame ctx) + 1) by lia.
  rewrite Z.add_simpl_r. repeat split; assumption.
Qed.

(** X12: DUPn pushes a copy of the word [n - 1] below the top for 3 gas and
    changes no other slot; a POP after it gives back the frame and every
    slot that was in use. *)
Theorem dup_copies_then_pop_restores (n : Z) (ctx : ExecutionContext)
    (w old : word)
    (Hn : 1 <= n <= stack_size (frame ctx))
    (Hroom : stack_size (frame ctx) < 1024)
    (Hsource : load (stack_base ctx) (stack_size (frame ctx) - n) = Some w)
    (Hslot : load (stack_base ctx) (stack_size (frame ctx)) = Some old) :
  exists ctx1 ctx2,
    op_dup_n n ctx = Some (mkOpResult 1 3, ctx1) /\
    leaves_on_top ctx ctx1 (-1) w /\
    op_pop ctx1 = Some (mkOpResult 1 2, ctx2) /\
    frame ctx2 = frame ctx /\
    (forall j, 0 <= j < stack_size (frame ctx) ->
       load (stack_base ctx2) j = load (stack_base ctx) j).
Proof.
  unfold op_dup_n. rewrite stack_top_some by lia. rewrite alloc_some by lia.
  unfold peek. proj_simpl.
  replace (stack_size (frame ctx) - 1 - (n - 1))
    with (stack_size (frame ctx) - n) by lia.
  rewrite Hsource. cbn [bind].
  destruct (poke_some (upd (set_stack_size (stack_size (frame ctx) + 1)) ctx)
              _ _ w Hslot) as (s & Hpoke & Hs & Hrest).
  rewrite Hpoke. cbn [bind ret].
  eexists _, _. split; [reflexivity |]. split; [| split; [| split]].
  - unfold leaves_on_top. proj_simpl.
    replace (stack_size (frame ctx) - -1) with (stack_size (frame ctx) + 1) by lia.
    rewrite Z.add_simpl_r. repeat split; assumption.
  - unfold op_pop, stack_free. proj_simpl.
    destruct (Z.ltb_spec (stack_size (frame ctx) + 1) 1); [lia | reflexivity].
  - proj_simpl. rewrite set_stack_size_back. now destruct (frame ctx).
  - intros j Hj. proj_simpl. apply Hrest; lia.
Qed.

Lemma dup_copies_then_pop_restores_witness :
  exists ctx1 ctx2,
    op_dup_n 3 (three_items 1 2 3) = Some (mkOpResult 1 3, ctx1) /\
    leaves_on_top (three_items 1 2 3) ctx1 (-1) (word_of_byte 1) /\
    op_pop ctx1 = Some (mkOpResult 1 2, ctx2) /\
    frame ctx2 = frame (three_items 1 2 3) /\
    (forall j, 0 <= j < stack_size (frame (three_items 1 2 3)) ->
       load (stack_base ctx2) j = load (stack_base (three_items 1 2 3)) j).
Proof.
  apply (dup_copies_then_pop_restores 3 (three_items 1 2 3)
           (word_of_byte 1) zero_word).
  - cbn. lia.
  - cbn. lia.
  - reflexivity.
  - reflexivity.
Defined.

(** ** PUSHn *)

Lemma load_range_length {A : Type} (l : list A) : forall len i src,
  load_range l i len = Some src -> length src = len.
Proof.
  induction len as [| len IH]; intros i src H.
  - apply ret_inv in H. now subst.
  - cbn [load_range] in H.
    apply bind_inv in H. destruct H as (a & _ & H).
    apply bind_inv in H. destruct H as (t & Ht & H).
    apply ret_inv in H. subst. cbn [length]. f_equal. exact (IH _ _ Ht).
Qed.

Lemma zero_prefix_value (n : nat) : word_value (firstn n zero_word) = 0.
Proof.
  unfold zero_word. generalize 32%nat. revert n.
  induction n as [| n IH]; intros [| m]; try reflexivity.
  cbn [repeat firstn]. rewrite word_value_cons, IH. lia.
Qed.

Lemma zero_prefix_bytes (n : nat) : Forall Int.is_u8 (firstn n zero_word).
Proof.
  unfold zero_word. generalize 32%nat. revert n.
  induction n as [| n IH]; intros [| m]; try apply Forall_nil.
  cbn [repeat firstn]. apply Forall_cons; [unfold Int.is_u8; lia | apply IH].
Qed.

(** X13: PUSHn pushes the bytes that follow the opcode as one big-endian
    number, for 3 gas and a pc step of [1 + n].  When the code ends before
    [n] bytes, the [k] bytes that are there are pushed as a [k]-byte
    number (they are not shifted left by the missing bytes) and the pc step
    is still [1 + n]. *)
Theorem push_n_value (n : Z) (ctx : ExecutionContext) (src : list Z)
    (old : word)
    (Hn : 1 <= n <= 32)
    (Hsize : 0 <= stack_size (frame ctx) < 1024)
    (Hslot : load (stack_base ctx) (stack_size (frame ctx)) = Some old)
    (Hpc : 0 <= pc (frame ctx) < code_size (frame ctx))
    (Hcode : code_size (frame ctx) < 2 ^ 31)
    (Hsrc : load_range (code ctx) (pc (frame ctx) + 1)
              (Z.to_nat (Z.min n (code_size (frame ctx) - pc (frame ctx) - 1)))
            = Some src)
    (Hbytes : Forall Int.is_u8 src) :
  exists ctx' w,
    op_push_n n ctx = Some (mkOpResult (1 + n) 3, ctx') /\
    leaves_on_top ctx ctx' (-1) w /\
    is_word w /\ word_value w = word_value src.
Proof.
  pose proof (load_range_length _ _ _ _ Hsrc) as Hlen.
  set (k := Z.min n (code_size (frame ctx) - pc (frame ctx) - 1)) in *.
  assert (Hk : 0 <= k <= 32) by lia.
  assert (Hword : push_n_word n (upd (set_stack_size (stack_size (frame ctx) + 1)) ctx)
                  = Some (if 0 <? k then firstn (Z.to_nat (32 - k)) zero_word ++ src
                          else zero_word)).
  { unfold push_n_word. proj_simpl. rewrite to_i32_small by lia. fold k.
    destruct (0 <? k); [| reflexivity]. now rewrite Hsrc. }
  destruct (push_word_run (push_n_word n) (mkOpResult (1 + n) 3) ctx _ old
              Hsize Hslot Hword) as (ctx' & Hrun & Hl).
  eexists ctx', _. split; [exact Hrun |]. split; [exact Hl |].
  destruct (Z.ltb_spec 0 k) as [Hpos | Hzero].
  - split; [split |].
    + rewrite length_app, length_firstn, Hlen.
      change (length zero_word) with 32%nat. lia.
    + apply Forall_app. split; [apply zero_prefix_bytes | exact Hbytes].
    + rewrite word_value_app, zero_prefix_value. lia.
  - replace k with 0 in * by lia. destruct src; [| discriminate Hlen].
    split; [| reflexivity]. split; [reflexivity | apply (zero_prefix_bytes 32)].
Qed.

Lemma push_n_value_witness :
  exists ctx' w,
    op_push_n 2 short_push = Some (mkOpResult (1 + 2) 3, ctx') /\
    leaves_on_top short_push ctx' (-1) w /\
    is_word w /\ word_value w = word_value [0xAB].
Proof.
  apply (push_n_value 2 short_push [0xAB] zero_word).
  - lia.
  - cbn. lia.
  - reflexivity.
  - cbn. lia.
  - reflexivity.
  - reflexivity.
  - apply Forall_cons; [unfold Int.is_u8; lia | apply Forall_nil].
Defined.

(** ** PC and GAS *)

(** X14: a pass of the loop over PC or GAS charges 2 gas, steps the pc by
    one and pushes one word: PC pushes the pc of the opcode itself, and GAS
    pushes the gas that was left before its own 2 gas were charged. *)
Theorem pc_and_gas_push (traced : bool) (ctx : ExecutionContext)
    (opcode : Z) (old : word)
    (Hop : opcode = 0x58 \/ opcode = 0x5a)
    (Hfetch : load (code ctx) (pc (frame ctx)) = Some opcode)
    (Hgas : 3 <= gas_remaining (frame ctx) < 2 ^ 63)
    (Hpc : 0 <= pc (frame ctx) < 2 ^ 31 - 1)
    (Hsize : 0 <= stack_size (frame ctx) < 1024)
    (Hslot : load (stack_base ctx) (stack_size (frame ctx)) = Some old) :
  exists ctx' w,
    snd (loop_body (tracer_of traced) ctx) = Next ctx' /\
    gas_remaining (frame ctx') = gas_remaining (frame ctx) - 2 /\
    pc (frame ctx') = pc (frame ctx) + 1 /\
    stack_size (frame ctx') = stack_size (frame ctx) + 1 /\
    load (stack_base ctx') (stack_size (frame ctx)) = Some w /\
    word_value w =
      (if opcode =? 0x58 then pc (frame ctx) else gas_remaining (frame ctx)).
Proof.
  assert (Hrun : exists h v ctx1,
            load JUMP_TABLE opcode = Some h /\
            h ctx = Some (mkOpResult 1 2, ctx1) /\
            leaves_on_top ctx ctx1 (-1) (u64_to_word v) /\
            Int.is_u64 v /\
            v = (if opcode =? 0x58 then pc (frame ctx)
                 else gas_remaining (frame ctx))).
  { destruct Hop as [-> | ->].
    - destruct (push_word_run
                  (fun ctx => ret (u64_to_word (Int.to_u64 (pc (frame ctx)))))
                  (mkOpResult 1 2) ctx _ old Hsize Hslot eq_refl)
        as (ctx1 & Hh & Hl).
      exists op_pc, (Int.to_u64 (pc (frame ctx))), ctx1.
      split; [reflexivity |]. split; [exact Hh |]. split; [exact Hl |].
      split; [apply to_u64_range |]. cbn [Z.eqb Pos.eqb]. apply to_u64_small. lia.
    - destruct (push_word_run
                  (fun ctx => ret (u64_to_word (Int.to_u64 (gas_remaining (frame ctx)))))
                  (mkOpResult 1 2) ctx _ old Hsize Hslot eq_refl)
        as (ctx1 & Hh & Hl).
      exists op_gas, (Int.to_u64 (gas_remaining (frame ctx))), ctx1.
      split; [reflexivity |]. split; [exact Hh |]. split; [exact Hl |].
      split; [apply to_u64_range |]. cbn [Z.eqb Pos.eqb]. apply to_u64_small. lia. }
  destruct Hrun as (h & v & ctx1 & Htable & Hh & Hl & Hv & Hval).
  destruct Hl as (Hframe & Htopw & _).
  assert (Hg1 : gas_remaining (frame ctx1) = gas_remaining (frame ctx))
    by now rewrite Hframe.
  exists (advanced (mkOpResult 1 2) (charged (mkOpResult 1 2) ctx1)), (u64_to_word v).
  split.
  - apply (loop_body_next traced ctx opcode h); try assumption.
    + apply Z.ltb_ge. lia.
    + reflexivity.
    + apply Z.ltb_ge. proj_simpl. lia.
  - unfold advanced, charged. proj_simpl. cbn [Z.ltb Z.compare]. proj_simpl.
    rewrite Hframe in *. proj_simpl.
    rewrite to_i32_small by lia.
    replace (stack_size (frame ctx) - -1) with (stack_size (frame ctx) + 1) in * by lia.
    rewrite Z.add_simpl_r in Htopw.
    repeat split; try assumption.
    rewrite word_value_u64 by exact Hv. exact Hval.
Qed.

Lemma pc_and_gas_push_witness :
  exists ctx' w,
    snd (loop_body (tracer_of true) (one_opcode 0x5a 100)) = Next ctx' /\
    gas_remaining (frame ctx') = gas_remaining (frame (one_opcode 0x5a 100)) - 2 /\
    pc (frame ctx') = pc (frame (one_opcode 0x5a 100)) + 1 /\
    stack_size (frame ctx') = stack_size (frame (one_opcode 0x5a 100)) + 1 /\
    load (stack_base ctx') (stack_size (frame (one_opcode 0x5a 100))) = Some w /\
    word_value w =
      (if 0x5a =? 0x58 then pc (frame (one_opcode 0x5a 100))
       else gas_remaining (frame (one_opcode 0x5a 100))).
Proof.
  apply (pc_and_gas_push true (one_opcode 0x5a 100) 0x5a zero_word).
  - right. reflexivity.
  - reflexivity.
  - cbn. lia.
  - cbn. lia.
  - cbn. lia.
  - reflexivity.
Defined.

(** ** Jumps *)

Lemma jump_target_read (w : word) :
  is_word w -> Int.to_u32 (word_to_u64 w) = jump_target w.
Proof.
  intros Hw. unfold Int.to_u32, jump_target.
  rewrite word_to_u64_value by exact Hw.
  change (2 ^ 64) with (2 ^ 32 * 2 ^ 32).
  rewrite Z.rem_mul_r by lia.
  rewrite (Z.mul_comm (2 ^ 32)), Z.mod_add by lia.
  apply Z.mod_mod. lia.
Qed.

Lemma bad_jump_dest_valid ctx dest :
  valid_target ctx dest -> bad_jump_dest ctx dest = Some false.
Proof.
  intros [Hlt Hc]. unfold bad_jump_dest.
  destruct (Z.leb_spec (code_size (frame ctx)) dest); [lia |].
  now rewrite Hc.
Qed.

Lemma bad_jump_dest_invalid ctx dest :
  invalid_target ctx dest -> bad_jump_dest ctx dest = Some true.
Proof.
  intros H. unfold bad_jump_dest.
  destruct (Z.leb_spec (code_size (frame ctx)) dest) as [Hle | Hgt];
    [reflexivity |].
  destruct H as [H | (c & Hc & Hne)]; [lia |].
  rewrite Hc. cbn [bind ret]. apply Z.eqb_neq in Hne. now rewrite Hne.
Qed.

(** X15: a pass over JUMP reads the destination from the low 32 bits of the
    top word.  To a JUMPDEST inside the code it pops the word, sets the pc
    to the destination and charges 8 gas; otherwise the run ends in
    EXCEPTIONAL_HALT with INVALID_JUMP_DESTINATION (3), nothing charged and
    the destination still on the stack. *)
Theorem jump_pass (traced : bool) (ctx : ExecutionContext) (w : word)
    (Hfetch : load (code ctx) (pc (frame ctx)) = Some 0x56)
    (Hgas : 8 <= gas_remaining (frame ctx))
    (Hitems : 1 <= stack_size (frame ctx))
    (Htop : load (stack_base ctx) (stack_size (frame ctx) - 1) = Some w)
    (Hw : is_word w)
    (Hcode : code_size (frame ctx) <= 2 ^ 31) :
  (valid_target ctx (jump_target w) ->
   exists ctx',
     snd (loop_body (tracer_of traced) ctx) = Next ctx' /\
     frame ctx' =
       set_gas_remaining (gas_remaining (frame ctx) - 8)
         (set_pc (jump_target w)
            (set_stack_size (stack_size (frame ctx) - 1) (frame ctx))) /\
     same_planes ctx ctx') /\
  (invalid_target ctx (jump_target w) ->
   snd (loop_body (tracer_of traced) ctx) = Exit (halt 4 3 ctx)).
Proof.
  assert (Hfloor : (gas_remaining (frame ctx) <? 3) = false)
    by (apply Z.ltb_ge; lia).
  assert (Htable : load JUMP_TABLE 0x56 = Some op_jump) by reflexivity.
  split.
  - intros Hvalid. pose proof Hvalid as [Hlt _].
    assert (Hrun : op_jump ctx =
              Some (mkOpResult 0 8,
                    upd (set_pc (jump_target w))
                      (upd (set_stack_size (stack_size (frame ctx) - 1)) ctx))).
    { unfold op_jump. rewrite stack_top_some by lia. unfold peek.
      rewrite Z.sub_0_r, Htop. cbn [bind].
      rewrite jump_target_read by exact Hw.
      rewrite (bad_jump_dest_valid _ _ Hvalid). cbn [bind ret].
      rewrite stack_free_enough by lia.
      rewrite to_i32_small; [reflexivity |].
      unfold jump_target in *. pose proof (Z.mod_pos_bound (word_value w) (2 ^ 32)).
      lia. }
    eexists. split.
    + apply (loop_body_next traced ctx 0x56 op_jump _ _ Hfloor Hfetch Htable Hrun).
      * reflexivity.
      * apply Z.ltb_ge. proj_simpl. lia.
    + unfold advanced, charged, same_planes. proj_simpl.
      cbn [Z.ltb Z.compare]. proj_simpl. repeat split.
  - intros Hinvalid.
    assert (Hrun : op_jump ctx = Some (error_result, halt 4 3 ctx)).
    { unfold op_jump. rewrite stack_top_some by lia. unfold peek.
      rewrite Z.sub_0_r, Htop. cbn [bind].
      rewrite jump_target_read by exact Hw.
      now rewrite (bad_jump_dest_invalid _ _ Hinvalid). }
    rewrite (loop_body_error _ ctx 0x56 op_jump _ _ Hfloor Hfetch Htable Hrun)
      by reflexivity.
    reflexivity.
Qed.

Lemma jump_pass_witness :
  (exists ctx',
     snd (loop_body (tracer_of false) (jump_ctx 0x56 2 0)) = Next ctx' /\
     frame ctx' =
       set_gas_remaining (gas_remaining (frame (jump_ctx 0x56 2 0)) - 8)
         (set_pc (jump_target (word_of_byte 2))
            (set_stack_size (stack_size (frame (jump_ctx 0x56 2 0)) - 1)
               (frame (jump_ctx 0x56 2 0)))) /\
     same_planes (jump_ctx 0x56 2 0) ctx') /\
  snd (loop_body (tracer_of false) (jump_ctx 0x56 3 0)) =
  Exit (halt 4 3 (jump_ctx 0x56 3 0)).
Proof.
  split.
  - apply (jump_pass false (jump_ctx 0x56 2 0) (word_of_byte 2)).
    + reflexivity.
    + cbn. lia.
    + cbn. lia.
    + reflexivity.
    + apply word_of_byte_is_word. lia.
    + cbn. lia.
    + split; [vm_compute |]; reflexivity.
  - apply (jump_pass false (jump_ctx 0x56 3 0) (word_of_byte 3)).
    + reflexivity.
    + cbn. lia.
    + cbn. lia.
    + reflexivity.
    + apply word_of_byte_is_word. lia.
    + cbn. lia.
    + right. exists 0. split; [reflexivity | discriminate].
Defined.

(** X16: a pass over JUMPI pops the destination and the condition before
    it looks at either.  With a condition that denotes 0 it steps to the
    next opcode, whatever the destination; otherwise, to a JUMPDEST inside
    the code it sets the pc to the destination; both cost 10.  Otherwise
    the run ends in EXCEPTIONAL_HALT with INVALID_JUMP_DESTINATION (3), and
    (unlike after JUMP) the two operands are gone from the stack. *)
Theorem jumpi_pass (traced : bool) (ctx : ExecutionContext) (wd wc : word)
    (Hfetch : load (code ctx) (pc (frame ctx)) = Some 0x57)
    (Hgas : 10 <= gas_remaining (frame ctx))
    (Hitems : 2 <= stack_size (frame ctx))
    (Htop : load (stack_base ctx) (stack_size (frame ctx) - 1) = Some wd)
    (Hsecond : load (stack_base ctx) (stack_size (frame ctx) - 2) = Some wc)
    (Hwd : is_word wd) (Hwc : is_word wc)
    (Hpc : 0 <= pc (frame ctx) < 2 ^ 31 - 1)
    (Hcode : code_size (frame ctx) <= 2 ^ 31) :
  let popped := upd (set_stack_size (stack_size (frame ctx) - 2)) ctx in
  (word_value wc = 0 ->
   exists ctx',
     snd (loop_body (tracer_of traced) ctx) = Next ctx' /\
     frame ctx' =
       set_pc (pc (frame ctx) + 1)
         (set_gas_remaining (gas_remaining (frame ctx) - 10) (frame popped)) /\
     same_planes ctx ctx') /\
  (word_value wc <> 0 -> valid_target ctx (jump_target wd) ->
   exists ctx',
     snd (loop_body (tracer_of traced) ctx) = Next ctx' /\
     frame ctx' =
       set_gas_remaining (gas_remaining (frame ctx) - 10)
         (set_pc (jump_target wd) (frame popped)) /\
     same_planes ctx ctx') /\
  (word_value wc <> 0 -> invalid_target ctx (jump_target wd) ->
   snd (loop_body (tracer_of traced) ctx) = Exit (halt 4 3 popped)).
Proof.
  intros popped.
  assert (Hfloor : (gas_remaining (frame ctx) <? 3) = false)
    by (apply Z.ltb_ge; lia).
  assert (Htable : load JUMP_TABLE 0x57 = Some op_jumpi) by reflexivity.
  assert (Hstart : op_jumpi ctx =
            if negb (is_zero wc) then
              bad <- bad_jump_dest popped (jump_target wd) ;;
              if (bad : bool) then ret (invalid_jump popped)
              else ret (mkOpResult 0 10,
                        upd (set_pc (Int.to_i32 (jump_target wd))) popped)
            else ret (mkOpResult 1 10, popped)).
  { unfold op_jumpi. rewrite !stack_top_some by lia. unfold peek.
    rewrite Z.sub_0_r, Htop.
    replace (stack_size (frame ctx) - 1 - 1) with (stack_size (frame ctx) - 2) by lia.
    rewrite Hsecond. cbn [bind].
    rewrite jump_target_read by exact Hwd.
    now rewrite stack_free_enough by lia. }
  rewrite (is_zero_value wc) in Hstart by apply Hwc.
  split; [| split].
  - intros Hzero. rewrite Hzero in Hstart. cbn [Z.eqb negb] in Hstart.
    eexists. split.
    + apply (loop_body_next traced ctx 0x57 op_jumpi _ _ Hfloor Hfetch Htable Hstart).
      * reflexivity.
      * apply Z.ltb_ge. subst popped. proj_simpl. lia.
    + unfold advanced, charged, same_planes. subst popped. proj_simpl.
      cbn [Z.ltb Z.compare]. proj_simpl.
      rewrite to_i32_small by lia. repeat split.
  - intros Hne Hvalid. apply Z.eqb_neq in Hne. rewrite Hne in Hstart.
    cbn [negb] in Hstart.
    rewrite (bad_jump_dest_valid popped _ Hvalid) in Hstart. cbn [bind ret] in Hstart.
    destruct Hvalid as [Hlt _].
    rewrite to_i32_small in Hstart
      by (unfold jump_target in *;
          pose proof (Z.mod_pos_bound (word_value wd) (2 ^ 32)); lia).
    eexists. split.
    + apply (loop_body_next traced ctx 0x57 op_jumpi _ _ Hfloor Hfetch Htable Hstart).
      * reflexivity.
      * apply Z.ltb_ge. subst popped. proj_simpl. lia.
    + unfold advanced, charged, same_planes. subst popped. proj_simpl.
      cbn [Z.ltb Z.compare]. proj_simpl. repeat split.
  - intros Hne Hinvalid. apply Z.eqb_neq in Hne. rewrite Hne in Hstart.
    cbn [negb] in Hstart.
    rewrite (bad_jump_dest_invalid popped _ Hinvalid) in Hstart.
    cbn [bind ret] in Hstart.
    rewrite (loop_body_error _ ctx 0x57 op_jumpi _ _ Hfloor Hfetch Htable Hstart)
      by reflexivity.
    reflexivity.
Qed.

Lemma jumpi_pass_witness :
  let popped :=
    upd (set_stack_size (stack_size (frame (jump_ctx 0x57 3 1)) - 2))
      (jump_ctx 0x57 3 1) in
  snd (loop_body (tracer_of false) (jump_ctx 0x57 3 1)) = Exit (halt 4 3 popped).
Proof.
  intros popped.
  apply (jumpi_pass false (jump_ctx 0x57 3 1) (word_of_byte 3) (word_of_byte 1)).
  - reflexivity.
  - cbn. lia.
  - cbn. lia.
  - reflexivity.
  - reflexivity.
  - apply word_of_byte_is_word. lia.
  - apply word_of_byte_is_word. lia.
  - cbn. lia.
  - cbn. lia.
  - rewrite word_value_of_byte. discriminate.
  - right. exists 0. split; [reflexivity | discriminate].
Defined.

(** ** Ranges of a plane *)

Lemma load_some {A : Type} (l : list A) (i : Z) :
  0 <= i < Z.of_nat (length l) -> exists a, load l i = Some a.
Proof.
  intros Hi. unfold load. destruct (Z.ltb_spec i 0); [lia |].
  destruct (nth_error l (Z.to_nat i)) as [a |] eqn:E; [now exists a |].
  apply nth_error_None in E. lia.
Qed.

Lemma load_none {A : Type} (l : list A) (i : Z) :
  Z.of_nat (length l) <= i -> load l i = None.
Proof.
  intros Hi. unfold load. destruct (Z.ltb_spec i 0); [reflexivity |].
  apply nth_error_None. lia.
Qed.

Lemma store_nth_length {A : Type} (l : list A) : forall n a l',
  store_nth n a l = Some l' -> length l' = length l.
Proof.
  induction l as [| h t IH]; intros [| n] a l' H; try discriminate.
  - cbn in H. injection H as <-. reflexivity.
  - cbn in H. apply bind_inv in H. destruct H as (t' & Ht & H).
    apply ret_inv in H. subst. cbn. f_equal. exact (IH _ _ _ Ht).
Qed.

Lemma store_length {A : Type} (l l' : list A) (i : Z) (a : A) :
  store l i a = Some l' -> length l' = length l.
Proof.
  unfold store. destruct (i <? 0); [discriminate |]. apply store_nth_length.
Qed.

Lemma store_other_any {A : Type} (l l' : list A) (i j : Z) (b : A) :
  store l i b = Some l' -> i <> j -> load l' j = load l j.
Proof.
  intros Hs Hne. destruct (Z.ltb_spec j 0) as [Hneg | Hpos].
  - unfold load. now destruct (Z.ltb_spec j 0); [| lia].
  - now apply (store_other _ _ _ _ _ Hs).
Qed.

Ltac compare_indices :=
  repeat match goal with
  | |- context [?a <=? ?b] => destruct (Z.leb_spec a b)
  | |- context [?a <? ?b] => destruct (Z.ltb_spec a b)
  end; cbn [andb]; try lia.

(** [memcpy] into reserved elements succeeds, writes [src] and nothing
    else. *)
Lemma store_range_spec {A : Type} (src : list A) : forall l i,
  0 <= i -> i + Z.of_nat (length src) <= Z.of_nat (length l) ->
  exists l',
    store_range l i src = Some l' /\ length l' = length l /\
    forall j, load l' j =
      if (i <=? j) && (j <? i + Z.of_nat (length src))
      then nth_error src (Z.to_nat (j - i)) else load l j.
Proof.
  induction src as [| a src IH]; intros l i Hi Hlen.
  - exists l. split; [reflexivity |]. split; [reflexivity |].
    intros j. cbn [length]. compare_indices; reflexivity.
  - cbn [length] in Hlen. cbn [store_range].
    destruct (load_some l i ltac:(lia)) as (a0 & Ha0).
    destruct (store_load l i a0 a Ha0) as (l1 & Hs & Hl1).
    pose proof (store_length _ _ _ _ Hs) as Hlen1.
    rewrite Hs. cbn [bind].
    destruct (IH l1 (i + 1) ltac:(lia) ltac:(lia)) as (l' & Hr & Hlen' & Hspec).
    exists l'. split; [exact Hr |]. split; [congruence |].
    intros j. rewrite Hspec. cbn [length].
    destruct (Z.eq_dec j i) as [-> | Hne].
    + compare_indices. rewrite Z.sub_diag. exact Hl1.
    + compare_indices; try (apply (store_other_any _ _ _ _ _ Hs); lia).
      replace (Z.to_nat (j - i)) with (S (Z.to_nat (j - (i + 1)))) by lia.
      reflexivity.
Qed.

Lemma load_range_spec {A : Type} (l : list A) : forall n i src,
  length src = n ->
  (forall k, (k < n)%nat -> load l (i + Z.of_nat k) = nth_error src k) ->
  load_range l i n = Some src.
Proof.
  induction n as [| n IH]; intros i src Hlen H.
  - destruct src; [reflexivity | discriminate].
  - destruct src as [| a src]; [discriminate |]. cbn [load_range].
    pose proof (H 0%nat ltac:(lia)) as H0. rewrite Z.add_0_r in H0.
    rewrite H0. cbn [nth_error bind].
    rewrite (IH (i + 1) src); [reflexivity | now injection Hlen |].
    intros k Hk. specialize (H (S k) ltac:(lia)). cbn [nth_error] in H.
    rewrite <- H. f_equal. lia.
Qed.

(** ** Memory growth *)

Lemma round_up_32 (x : Z) : x <= (x + 31) / 32 * 32 < x + 32.
Proof. Z.div_mod_to_equations. lia. Qed.

Lemma ctx_eta (ctx : ExecutionContext) :
  upd (set_memory_size (memory_size (frame ctx)))
    (set_memory (memory_base ctx) ctx) = ctx.
Proof. now destruct ctx as [[] ? ? ? ?]. Qed.

(** A request below the ceiling is granted: memory grows to the next
    multiple of 32 that covers it, the new bytes are zero and the old ones
    are kept. *)
Lemma ensure_memory_run ctx offset size :
  0 <= offset -> 0 < size -> offset + size <= 1024 * 1024 ->
  0 <= memory_size (frame ctx) <= 1024 * 1024 ->
  memory_size (frame ctx) <= Z.of_nat (length (memory_base ctx)) ->
  grown_size ctx offset size <= Z.of_nat (length (memory_base ctx)) ->
  exists mem',
    ensure_memory ctx offset size =
      Some (true, upd (set_memory_size (grown_size ctx offset size))
                    (set_memory mem' ctx)) /\
    length mem' = length (memory_base ctx) /\
    offset + size <= grown_size ctx offset size /\
    memory_size (frame ctx) <= grown_size ctx offset size /\
    forall j, load mem' j =
      if (memory_size (frame ctx) <=? j) && (j <? grown_size ctx offset size)
      then Some 0 else load (memory_base ctx) j.
Proof.
  intros Hoff Hsize Hceil Hmem Hplane Hroom.
  unfold ensure_memory, grown_size in *.
  destruct (Z.eqb_spec size 0) as [| _]; [lia |].
  rewrite !to_u64_small by lia.
  pose proof (round_up_32 (offset + size)) as Hround.
  assert (Hmax : (offset + size + 31) / 32 * 32 <= 1024 * 1024)
    by (Z.div_mod_to_equations; lia).
  destruct (Z.ltb_spec (memory_size (frame ctx)) (offset + size)) as [Hgrow | Hfit].
  - rewrite !to_u32_small by lia.
    destruct (Z.ltb_spec (1024 * 1024) ((offset + size + 31) / 32 * 32)); [lia |].
    destruct (Z.ltb_spec (memory_size (frame ctx)) ((offset + size + 31) / 32 * 32));
      [| lia].
    destruct (store_range_spec
                (repeat 0 (Z.to_nat ((offset + size + 31) / 32 * 32
                                     - memory_size (frame ctx))))
                (memory_base ctx) (memory_size (frame ctx)))
      as (mem' & Hstore & Hlen & Hspec);
      [lia | rewrite repeat_length; lia |].
    rewrite Hstore. cbn [bind ret]. rewrite to_i32_small by lia.
    exists mem'. split; [reflexivity |]. split; [exact Hlen |].
    split; [lia |]. split; [lia |].
    intros j. rewrite Hspec, repeat_length.
    replace (memory_size (frame ctx) +
             Z.of_nat (Z.to_nat ((offset + size + 31) / 32 * 32
                                 - memory_size (frame ctx))))
      with ((offset + size + 31) / 32 * 32) by lia.
    destruct ((memory_size (frame ctx) <=? j)
              && (j <? (offset + size + 31) / 32 * 32)) eqn:E; [| reflexivity].
    apply andb_true_iff in E. destruct E as [E1 E2].
    apply Z.leb_le in E1. apply Z.ltb_lt in E2.
    apply nth_error_repeat. lia.
  - exists (memory_base ctx). rewrite ctx_eta.
    split; [reflexivity |]. split; [reflexivity |]. split; [lia |]. split; [lia |].
    intros j. compare_indices; reflexivity.
Qed.

Lemma ensure_memory_covered ctx offset size :
  0 <= offset -> 0 < size ->
  offset + size <= memory_size (frame ctx) < 2 ^ 63 ->
  ensure_memory ctx offset size = Some (true, ctx).
Proof.
  intros Hoff Hsize Hcov. unfold ensure_memory.
  destruct (Z.eqb_spec size 0) as [| _]; [lia |].
  rewrite !to_u64_small by lia.
  destruct (Z.ltb_spec (memory_size (frame ctx)) (offset + size));
    [lia | reflexivity].
Qed.

Lemma memory_offset_read (w : word) :
  is_word w -> Int.to_u32 (word_to_u64 w) = memory_offset w.
Proof. exact (jump_target_read w). Qed.

Lemma memory_offset_range (w : word) : 0 <= memory_offset w < 2 ^ 32.
Proof. unfold memory_offset. apply Z.mod_pos_bound. lia. Qed.

(** X17: MSTORE pops the offset and the value, grows memory to cover the
    32 bytes at the offset and writes the value there for 3 gas; an MLOAD
    of the same offset on the memory it leaves replaces the offset on top
    of the stack by that value and changes nothing else. *)
Theorem mstore_then_mload (ctx : ExecutionContext) (v off : word)
    (Hitems : 2 <= stack_size (frame ctx))
    (Htop : load (stack_base ctx) (stack_size (frame ctx) - 1) = Some off)
    (Hsecond : load (stack_base ctx) (stack_size (frame ctx) - 2) = Some v)
    (Hv : is_word v) (Hoff : is_word off)
    (Hceil : memory_offset off + 32 <= 1024 * 1024)
    (Hmem : 0 <= memory_size (frame ctx) <= 1024 * 1024)
    (Hplane : memory_size (frame ctx) <= Z.of_nat (length (memory_base ctx)))
    (Hroom : grown_size ctx (memory_offset off) 32
             <= Z.of_nat (length (memory_base ctx))) :
  exists ctx1,
    op_mstore ctx = Some (mkOpResult 1 3, ctx1) /\
    stack_size (frame ctx1) = stack_size (frame ctx) - 2 /\
    memory_size (frame ctx1) = grown_size ctx (memory_offset off) 32 /\
    load_range (memory_base ctx1) (memory_offset off) 32 = Some v /\
    forall ctx2,
      memory_base ctx2 = memory_base ctx1 ->
      memory_size (frame ctx2) = memory_size (frame ctx1) ->
      1 <= stack_size (frame ctx2) ->
      load (stack_base ctx2) (stack_size (frame ctx2) - 1) = Some off ->
      exists ctx3,
        op_mload ctx2 = Some (mkOpResult 1 3, ctx3) /\
        leaves_on_top ctx2 ctx3 0 v.
Proof.
  pose proof (memory_offset_range off) as Hrange.
  destruct (ensure_memory_run ctx (memory_offset off) 32
              ltac:(lia) ltac:(lia) Hceil Hmem Hplane Hroom)
    as (mem' & Hgrow & Hlen & Hcover & _ & _).
  destruct (store_range_spec v mem' (memory_offset off))
    as (mem1 & Hstore & Hlen1 & Hspec);
    [lia | destruct Hv as [Hl _]; rewrite Hl; lia |].
  assert (Hread : load_range mem1 (memory_offset off) 32 = Some v).
  { apply load_range_spec; [apply Hv |]. intros k Hk. rewrite Hspec.
    destruct Hv as [Hl _]. rewrite Hl.
    compare_indices. f_equal. lia. }
  exists (upd (set_stack_size (stack_size (frame ctx) - 2))
            (set_memory mem1
               (upd (set_memory_size (grown_size ctx (memory_offset off) 32))
                  (set_memory mem' ctx)))).
  split; [| split; [reflexivity | split; [reflexivity | split; [exact Hread |]]]].
  - unfold op_mstore. rewrite !stack_top_some by lia. unfold peek.
    rewrite Z.sub_0_r, Htop. cbn [bind].
    rewrite memory_offset_read by exact Hoff. rewrite Hgrow. cbn [bind].
    proj_simpl.
    replace (stack_size (frame ctx) - 1 - 1) with (stack_size (frame ctx) - 2) by lia.
    rewrite Hsecond. cbn [bind]. rewrite Hstore. cbn [bind ret].
    now rewrite stack_free_enough by (proj_simpl; lia).
  - intros ctx2 Hbase Hsize2 Hitems2 Htop2. proj_simpl.
    unfold op_mload. rewrite stack_top_some by lia. unfold peek.
    rewrite Z.sub_0_r, Htop2. cbn [bind].
    rewrite memory_offset_read by exact Hoff.
    assert (Hbound : grown_size ctx (memory_offset off) 32 < 2 ^ 63).
    { unfold grown_size. pose proof (round_up_32 (memory_offset off + 32)).
      destruct (memory_size (frame ctx) <? memory_offset off + 32); lia. }
    rewrite ensure_memory_covered by lia.
    cbn [bind]. rewrite Hbase, Hread. cbn [bind].
    destruct (poke_some ctx2 _ _ v Htop2) as (s & Hpoke & Hs & Hrest).
    rewrite Hpoke. cbn [bind ret].
    eexists. split; [reflexivity |].
    unfold leaves_on_top. proj_simpl. rewrite Z.sub_0_r.
    repeat split; try assumption. now destruct (frame ctx2).
Qed.

Lemma mstore_then_mload_witness :
  exists ctx1,
    op_mstore (memory_ctx 0x52 (word_of_byte 42) 0) = Some (mkOpResult 1 3, ctx1) /\
    stack_size (frame ctx1) =
      stack_size (frame (memory_ctx 0x52 (word_of_byte 42) 0)) - 2 /\
    memory_size (frame ctx1) =
      grown_size (memory_ctx 0x52 (word_of_byte 42) 0)
        (memory_offset (word_of_byte 0)) 32 /\
    load_range (memory_base ctx1) (memory_offset (word_of_byte 0)) 32 =
      Some (word_of_byte 42) /\
    forall ctx2,
      memory_base ctx2 = memory_base ctx1 ->
      memory_size (frame ctx2) = memory_size (frame ctx1) ->
      1 <= stack_size (frame ctx2) ->
      load (stack_base ctx2) (stack_size (frame ctx2) - 1) = Some (word_of_byte 0) ->
      exists ctx3,
        op_mload ctx2 = Some (mkOpResult 1 3, ctx3) /\
        leaves_on_top ctx2 ctx3 0 (word_of_byte 42).
Proof.
  apply (mstore_then_mload (memory_ctx 0x52 (word_of_byte 42) 0)
           (word_of_byte 42) (word_of_byte 0)).
  - cbn. lia.
  - reflexivity.
  - reflexivity.
  - apply word_of_byte_is_word. lia.
  - apply word_of_byte_is_word. lia.
  - vm_compute. discriminate.
  - cbn. lia.
  - cbn. lia.
  - vm_compute. discriminate.
Defined.

Lemma low_byte (v : word) : is_word v -> nth 31 v 0 = word_value v mod 256.
Proof.
  intros Hv.
  destruct (word_split v Hv) as (z & b7 & b6 & b5 & b4 & b3 & b2 & b1 & b0 &
                                 -> & Hz & _ & Hlow).
  rewrite app_nth2 by lia. rewrite Hz. cbn [Nat.sub nth].
  change (z ++ [b7; b6; b5; b4; b3; b2; b1; b0])
    with (z ++ [b7; b6; b5; b4; b3; b2; b1] ++ [b0]).
  rewrite app_assoc, word_value_app. cbn [length].
  change (256 ^ Z.of_nat 1) with 256. change (word_value [b0]) with (0 * 256 + b0).
  assert (Hb : Int.is_u8 b0).
  { repeat match goal with
           | H : Forall _ (_ :: _) |- _ => inversion H; subst; clear H
           end. assumption. }
  unfold Int.is_u8 in Hb. rewrite Z.mul_0_l, Z.add_0_l.
  now rewrite mod_256_byte by lia.
Qed.

(** X18: MSTORE8 pops the offset and the value and writes the lowest byte
    of the value at the offset for 3 gas.  Memory grows to the next
    multiple of 32 that covers the offset; the bytes it gains are zero, and
    every other byte keeps its value. *)
Theorem mstore8_writes_low_byte (ctx : ExecutionContext) (v off : word)
    (Hitems : 2 <= stack_size (frame ctx))
    (Htop : load (stack_base ctx) (stack_size (frame ctx) - 1) = Some off)
    (Hsecond : load (stack_base ctx) (stack_size (frame ctx) - 2) = Some v)
    (Hv : is_word v) (Hoff : is_word off)
    (Hceil : memory_offset off + 1 <= 1024 * 1024)
    (Hmem : 0 <= memory_size (frame ctx) <= 1024 * 1024)
    (Hplane : memory_size (frame ctx) <= Z.of_nat (length (memory_base ctx)))
    (Hroom : grown_size ctx (memory_offset off) 1
             <= Z.of_nat (length (memory_base ctx))) :
  exists ctx1,
    op_mstore8 ctx = Some (mkOpResult 1 3, ctx1) /\
    stack_size (frame ctx1) = stack_size (frame ctx) - 2 /\
    memory_size (frame ctx1) = grown_size ctx (memory_offset off) 1 /\
    memory_offset off < memory_size (frame ctx1) /\
    forall j, load (memory_base ctx1) j =
      if j =? memory_offset off then Some (word_value v mod 256)
      else if (memory_size (frame ctx) <=? j) && (j <? memory_size (frame ctx1))
      then Some 0 else load (memory_base ctx) j.
Proof.
  pose proof (memory_offset_range off) as Hrange.
  destruct (ensure_memory_run ctx (memory_offset off) 1
              ltac:(lia) ltac:(lia) Hceil Hmem Hplane Hroom)
    as (mem' & Hgrow & Hlen & Hcover & _ & Hspec).
  destruct (load_some mem' (memory_offset off) ltac:(lia)) as (b & Hb).
  destruct (store_load mem' _ b (nth 31 v 0) Hb) as (mem1 & Hstore & Hl1).
  exists (upd (set_stack_size (stack_size (frame ctx) - 2))
            (set_memory mem1
               (upd (set_memory_size (grown_size ctx (memory_offset off) 1))
                  (set_memory mem' ctx)))).
  split; [| split; [reflexivity | split; [reflexivity | split]]].
  - unfold op_mstore8. rewrite !stack_top_some by lia. unfold peek.
    rewrite Z.sub_0_r, Htop. cbn [bind].
    rewrite memory_offset_read by exact Hoff. rewrite Hgrow. cbn [bind].
    proj_simpl.
    replace (stack_size (frame ctx) - 1 - 1) with (stack_size (frame ctx) - 2) by lia.
    rewrite Hsecond. cbn [bind]. rewrite Hstore. cbn [bind ret].
    now rewrite stack_free_enough by (proj_simpl; lia).
  - proj_simpl. lia.
  - intros j. proj_simpl. rewrite <- low_byte by exact Hv.
    destruct (Z.eqb_spec j (memory_offset off)) as [-> | Hne].
    + exact Hl1.
    + rewrite (store_other_any _ _ _ _ _ Hstore) by congruence. apply Hspec.
Qed.

Lemma mstore8_writes_low_byte_witness :
  exists ctx1,
    op_mstore8 (memory_ctx 0x53 (word_of_byte 42) 5) = Some (mkOpResult 1 3, ctx1) /\
    stack_size (frame ctx1) =
      stack_size (frame (memory_ctx 0x53 (word_of_byte 42) 5)) - 2 /\
    memory_size (frame ctx1) =
      grown_size (memory_ctx 0x53 (word_of_byte 42) 5)
        (memory_offset (word_of_byte 5)) 1 /\
    memory_offset (word_of_byte 5) < memory_size (frame ctx1) /\
    forall j, load (memory_base ctx1) j =
      if j =? memory_offset (word_of_byte 5)
      then Some (word_value (word_of_byte 42) mod 256)
      else if (memory_size (frame (memory_ctx 0x53 (word_of_byte 42) 5)) <=? j)
              && (j <? memory_size (frame ctx1))
      then Some 0
      else load (memory_base (memory_ctx 0x53 (word_of_byte 42) 5)) j.
Proof.
  apply (mstore8_writes_low_byte (memory_ctx 0x53 (word_of_byte 42) 5)
           (word_of_byte 42) (word_of_byte 5)).
  - cbn. lia.
  - reflexivity.
  - reflexivity.
  - apply word_of_byte_is_word. lia.
  - apply word_of_byte_is_word. lia.
  - vm_compute. discriminate.
  - cbn. lia.
  - cbn. lia.
  - vm_compute. discriminate.
Defined.

(** ** Offsets next to 2^32 *)

Lemma ensure_memory_wraps ctx offset :
  2 ^ 32 - 63 <= offset < 2 ^ 32 ->
  0 <= memory_size (frame ctx) <= 1024 * 1024 ->
  memory_size (frame ctx) <= Z.of_nat (length (memory_base ctx)) ->
  32 <= Z.of_nat (length (memory_base ctx)) ->
  exists m' mem',
    ensure_memory ctx offset 32 =
      Some (true, upd (set_memory_size m') (set_memory mem' ctx)) /\
    length mem' = length (memory_base ctx) /\
    m' <= Z.max (memory_size (frame ctx)) 32.
Proof.
  intros Hoff Hmem Hplane Hres. unfold ensure_memory.
  cbn [Z.eqb]. rewrite !to_u64_small by lia.
  destruct (Z.ltb_spec (memory_size (frame ctx)) (offset + 32)); [| lia].
  set (R := (offset + 32 + 31) / 32 * 32).
  assert (HR : R = 2 ^ 32 \/ R = 2 ^ 32 + 32)
    by (subst R; Z.div_mod_to_equations; lia).
  assert (Hnew : Int.to_u32 R = R - 2 ^ 32).
  { unfold Int.to_u32. replace R with (R - 2 ^ 32 + 1 * 2 ^ 32) at 1 by lia.
    rewrite Z.mod_add by lia. apply Z.mod_small. lia. }
  rewrite Hnew.
  destruct (Z.ltb_spec (1024 * 1024) (R - 2 ^ 32)); [lia |].
  rewrite (to_u32_small (memory_size (frame ctx))) by lia.
  destruct (Z.ltb_spec (memory_size (frame ctx)) (R - 2 ^ 32)) as [Hgrow | Hfit].
  - rewrite to_u32_small by lia.
    destruct (store_range_spec
                (repeat 0 (Z.to_nat (R - 2 ^ 32 - memory_size (frame ctx))))
                (memory_base ctx) (memory_size (frame ctx)))
      as (mem' & Hstore & Hlen & _);
      [lia | rewrite repeat_length; lia |].
    rewrite Hstore. cbn [bind ret]. rewrite to_i32_small by lia.
    exists (R - 2 ^ 32), mem'. split; [reflexivity |]. split; [exact Hlen | lia].
  - exists (memory_size (frame ctx)), (memory_base ctx). rewrite ctx_eta.
    split; [reflexivity |]. split; [reflexivity | lia].
Qed.

(** X19: an MLOAD whose offset lies in the last 63 bytes below 2^32 is not
    stopped by the 1 MiB ceiling: the rounded size wraps to 0 or 32 in 32
    bits, [ensure_memory] grants the request with at most 32 bytes of
    memory, and the handler then reads 32 bytes at the offset, outside every
    memory plane of less than 4 GiB; the run has no defined result. *)
Theorem mload_offset_wraps (ctx : ExecutionContext) (off : word)
    (Hitems : 1 <= stack_size (frame ctx))
    (Htop : load (stack_base ctx) (stack_size (frame ctx) - 1) = Some off)
    (Hoff : is_word off)
    (Hhigh : 2 ^ 32 - 63 <= memory_offset off)
    (Hmem : 0 <= memory_size (frame ctx) <= 1024 * 1024)
    (Hplane : memory_size (frame ctx) <= Z.of_nat (length (memory_base ctx)))
    (Hres : 32 <= Z.of_nat (length (memory_base ctx)) <= 2 ^ 32 - 63) :
  (exists ctx',
     ensure_memory ctx (memory_offset off) 32 = Some (true, ctx') /\
     memory_size (frame ctx') <= Z.max (memory_size (frame ctx)) 32 /\
     memory_size (frame ctx') < memory_offset off + 32) /\
  op_mload ctx = None.
Proof.
  pose proof (memory_offset_range off) as Hrange.
  destruct (ensure_memory_wraps ctx (memory_offset off)
              ltac:(lia) Hmem Hplane ltac:(lia))
    as (m' & mem' & Hgrant & Hlen & Hsmall).
  split.
  - eexists. split; [exact Hgrant |]. proj_simpl. lia.
  - unfold op_mload. rewrite stack_top_some by lia. unfold peek.
    rewrite Z.sub_0_r, Htop. cbn [bind].
    rewrite memory_offset_read by exact Hoff. rewrite Hgrant. cbn [bind].
    proj_simpl. cbn [load_range].
    rewrite (load_none mem') by lia. reflexivity.
Qed.

Lemma mload_offset_wraps_witness :
  (exists ctx',
     ensure_memory high_offset_ctx (memory_offset high_offset) 32 =
       Some (true, ctx') /\
     memory_size (frame ctx') <= Z.max (memory_size (frame high_offset_ctx)) 32 /\
     memory_size (frame ctx') < memory_offset high_offset + 32) /\
  op_mload high_offset_ctx = None.
Proof.
  apply (mload_offset_wraps high_offset_ctx high_offset).
  - cbn. lia.
  - reflexivity.
  - split; [reflexivity |]. cbn [high_offset repeat app].
    repeat (apply Forall_cons; [unfold Int.is_u8; lia |]). apply Forall_nil.
  - vm_compute. discriminate.
  - cbn. lia.
  - cbn. lia.
  - cbn. lia.
Defined.

(** ** How runs end *)

Lemma stack_free_state ctx n :
  state (frame (snd (stack_free ctx n))) = state (frame ctx) /\
  halt_reason (frame (snd (stack_free ctx n))) = halt_reason (frame ctx).
Proof. unfold stack_free. now destruct (stack_size (frame ctx) <? n). Qed.

Ltac finish_labels :=
  helper_facts; proj_simpl;
  repeat match goal with
         | |- context [if ?b then _ else _] => destruct b eqn:?
         end;
  proj_simpl;
  repeat match goal with
         | |- context [snd (stack_free ?c ?n)] =>
             let Hs := fresh in let Hr := fresh in
             destruct (stack_free_state c n) as [Hs Hr]; rewrite ?Hs, ?Hr;
             clear Hs Hr
         end;
  proj_simpl;
  first [ left; split; reflexivity
        | right; left; split; [lia |]; split; [reflexivity |];
          cbn [In]; tauto
        | right; right; split; [lia |]; split; reflexivity ].

Lemma binary_op_labels f cost : handler_labels (binary_op f cost).
Proof.
  intros ctx r ctx' H. unfold binary_op in H. run_handler H. all: finish_labels.
Qed.

Lemma unary_op_labels f cost : handler_labels (unary_op f cost).
Proof.
  intros ctx r ctx' H. unfold unary_op in H. run_handler H. all: finish_labels.
Qed.

Lemma push_word_labels w r0 : handler_labels (push_word w r0).
Proof.
  intros ctx r ctx' H. unfold push_word in H. run_handler H. all: finish_labels.
Qed.

Lemma op_stop_labels : handler_labels op_stop.
Proof. intros ctx r ctx' H. unfold op_stop in H. finish_labels. Qed.

Lemma op_pop_labels : handler_labels op_pop.
Proof.
  intros ctx r ctx' H. unfold op_pop in H. run_handler H. all: finish_labels.
Qed.

Lemma op_mload_labels : handler_labels op_mload.
Proof.
  intros ctx r ctx' H. unfold op_mload in H.
  run_handler H. all: use_ensure_memory. all: finish_labels.
Qed.

Lemma op_mstore_labels : handler_labels op_mstore.
Proof.
  intros ctx r ctx' H. unfold op_mstore in H.
  run_handler H. all: use_ensure_memory. all: finish_labels.
Qed.

Lemma op_mstore8_labels : handler_labels op_mstore8.
Proof.
  intros ctx r ctx' H. unfold op_mstore8 in H.
  run_handler H. all: use_ensure_memory. all: finish_labels.
Qed.

Lemma op_sload_labels : handler_labels op_sload.
Proof.
  intros ctx r ctx' H. unfold op_sload in H. run_handler H. all: finish_labels.
Qed.

Lemma op_sstore_labels : handler_labels op_sstore.
Proof.
  intros ctx r ctx' H. unfold op_sstore in H.
  run_handler H.
  all: repeat match goal with
       | E : storage.add _ _ _ _ _ = Some _ |- _ =>
           apply storage_add_inv in E;
           destruct E as [(? & ? & ? & ?) | (? & ? & ? & ?)]
       end.
  all: finish_labels.
Qed.

Lemma op_jump_labels : handler_labels op_jump.
Proof.
  intros ctx r ctx' H. unfold op_jump, invalid_jump in H.
  run_handler H. all: finish_labels.
Qed.

Lemma op_jumpi_labels : handler_labels op_jumpi.
Proof.
  intros ctx r ctx' H. unfold op_jumpi, invalid_jump in H.
  run_handler H. all: finish_labels.
Qed.

Lemma op_dup_n_labels n : handler_labels (op_dup_n n).
Proof.
  intros ctx r ctx' H. unfold op_dup_n in H. run_handler H. all: finish_labels.
Qed.

Lemma op_swap_n_labels n : handler_labels (op_swap_n n).
Proof.
  intros ctx r ctx' H. unfold op_swap_n in H. run_handler H. all: finish_labels.
Qed.

Lemma op_stub_labels : handler_labels op_stub.
Proof. intros ctx r ctx' H. unfold op_stub in H. finish_labels. Qed.

Lemma op_jumpdest_labels : handler_labels op_jumpdest.
Proof. intros ctx r ctx' H. unfold op_jumpdest in H. finish_labels. Qed.

Lemma op_invalid_labels : handler_labels op_invalid.
Proof. intros ctx r ctx' H. unfold op_invalid in H. finish_labels. Qed.

Lemma jump_table_labels : Forall handler_labels JUMP_TABLE.
Proof.
  unfold JUMP_TABLE.
  repeat (apply Forall_cons;
    [ first [ apply op_stub_labels | apply op_stop_labels
            | apply op_invalid_labels | apply op_jumpdest_labels
            | apply op_pop_labels | apply op_mload_labels
            | apply op_mstore_labels | apply op_mstore8_labels
            | apply op_sload_labels | apply op_sstore_labels
            | apply op_jump_labels | apply op_jumpi_labels
            | apply op_dup_n_labels | apply op_swap_n_labels
            | apply push_word_labels
            | apply binary_op_labels | apply unary_op_labels ] | ]).
  apply Forall_nil.
Qed.

Lemma dispatch_labels opcode h :
  load JUMP_TABLE opcode = Some h -> handler_labels h.
Proof.
  unfold load. destruct (opcode <? 0); [discriminate |].
  intros H. apply nth_error_In in H.
  exact (proj1 (Forall_forall _ _) jump_table_labels _ H).
Qed.

Lemma loop_body_labels tracer ctx evs res :
  loop_body tracer ctx = (evs, res) ->
  state (frame ctx) = 1 ->
  match res with
  | Next ctx' =>
      (state (frame ctx') = 1 \/ state (frame ctx') = 7) /\
      halt_reason (frame ctx') = halt_reason (frame ctx)
  | Exit ctx' =>
      state (frame ctx') = 4 /\ In (halt_reason (frame ctx')) [1; 2; 3; 4; 6]
  | Undefined => True
  end.
Proof.
  intros H Hst. run_body H.
  all: inversion H; subst; clear H.
  all: try match goal with
       | Hh : load JUMP_TABLE _ = Some ?h, E : ?h _ = Some _ |- _ =>
           destruct (dispatch_labels _ _ Hh _ _ _ E)
             as [[Hs Hr] | [(Hi & Hs & Hr) | (Hi & Hs & Hr)]]
       end.
  all: bool_hyps.
  all: repeat match goal with
       | |- context [if ?b then _ else _] => destruct b eqn:?
       end.
  all: bool_hyps; unfold halt; proj_simpl; cbn [In] in *.
  all: try exact I.
  all: try lia.
  all: try (split; [reflexivity | tauto]).
  all: try (split; [lia | tauto]).
  all: try (split; [lia | congruence]).
Qed.

Lemma dispatch_loop_labels fuel tracer : forall ctx evs ctx',
  dispatch_loop fuel tracer ctx = (evs, Returned ctx') ->
  state (frame ctx) = 1 \/ state (frame ctx) = 7 ->
  final_frame ctx ctx'.
Proof.
  induction fuel as [| fuel IH]; intros ctx evs ctx' H Hst; [discriminate |].
  run_loop H Ebody Erest.
  - apply andb_true_iff in Hcond. destruct Hcond as [_ Hone]. bool_hyps.
    pose proof (loop_body_labels _ _ _ _ Ebody Hone) as [Hnext Hreason].
    destruct (IH _ _ _ Erest Hnext) as [[Hs Hr] | Hhalt].
    + left. split; [exact Hs | congruence].
    + right. exact Hhalt.
  - apply andb_true_iff in Hcond. destruct Hcond as [_ Hone]. bool_hyps.
    right. exact (loop_body_labels _ _ _ _ Ebody Hone).
  - left. destruct (Z.eqb_spec (state (frame ctx)) 1) as [Hone | Hne].
    + split; reflexivity.
    + split; [lia | reflexivity].
Qed.

(** X20: a run that returns never leaves the frame EXECUTING: it ends in
    COMPLETED_SUCCESS (7) with [halt_reason] as it was on entry (it is not
    reset), or in EXCEPTIONAL_HALT (4) with [halt_reason] 1, 2, 3, 4 or 6;
    the [state] the frame had on entry plays no part. *)
Theorem run_ends_completed_or_halted (fuel : nat)
    (tracer : option TracerCallbacks) (ctx ctx' : ExecutionContext)
    (evs : list event)
    (Hrun : execute_message fuel tracer ctx = (evs, Returned ctx')) :
  final_frame ctx ctx'.
Proof.
  unfold execute_message in Hrun.
  apply dispatch_loop_labels in Hrun; [| left; reflexivity].
  exact Hrun.
Qed.

Lemma run_ends_completed_or_halted_witness :
  exists evs ctx',
    execute_message 10 None (blank_ctx simple_add 100 0) = (evs, Returned ctx') /\
    final_frame (blank_ctx simple_add 100 0) ctx'.
Proof.
  eexists _, _. split; [vm_compute; reflexivity |].
  eapply (run_ends_completed_or_halted 10 None (blank_ctx simple_add 100 0)).
  vm_compute. reflexivity.
Defined.

(** ** Gas accounting *)

Lemma charges_app evs evs' : charges (evs ++ evs') = charges evs + charges evs'.
Proof.
  induction evs as [| e evs IH]; [reflexivity |].
  cbn [app charges]. destruct e; rewrite IH; lia.
Qed.

Lemma loop_body_charges tracer ctx evs res :
  loop_body tracer ctx = (evs, res) ->
  0 <= charges evs /\
  match res with
  | Next ctx' =>
      gas_remaining (frame ctx') = gas_remaining (frame ctx) - charges evs /\
      0 <= gas_remaining (frame ctx')
  | Exit ctx' =>
      gas_remaining (frame ctx') = gas_remaining (frame ctx) /\ charges evs = 0
  | Undefined => True
  end.
Proof.
  intros H. run_body H.
  all: inversion H; subst; clear H.
  all: try match goal with
       | Hh : load JUMP_TABLE _ = Some ?h, E : ?h _ = Some _ |- _ =>
           destruct (dispatch_ok _ _ Hh _ _ _ E) as (Hg & _ & _ & Hc & _)
       end.
  all: repeat match goal with
       | |- context [if ?b then _ else _] => destruct b
       end.
  all: bool_hyps; unfold halt; proj_simpl.
  all: rewrite ?charges_app; cbn [charges app].
  all: repeat split; try exact I; lia.
Qed.

Lemma dispatch_loop_charges fuel tracer : forall ctx evs ctx',
  dispatch_loop fuel tracer ctx = (evs, Returned ctx') ->
  0 <= charges evs /\
  gas_remaining (frame ctx') = gas_remaining (frame ctx) - charges evs /\
  (0 <= gas_remaining (frame ctx) -> 0 <= gas_remaining (frame ctx')).
Proof.
  induction fuel as [| fuel IH]; intros ctx evs ctx' H; [discriminate |].
  run_loop H Ebody Erest.
  - destruct (loop_body_charges _ _ _ _ Ebody) as (Hpos & Hgas & Hleft).
    destruct (IH _ _ _ Erest) as (Hpos' & Hgas' & Hleft').
    rewrite charges_app. repeat split; lia.
  - destruct (loop_body_charges _ _ _ _ Ebody) as (Hpos & Hgas & Hzero).
    repeat split; lia.
  - cbn [charges]. destruct (state (frame ctx) =? 1); proj_simpl;
      repeat split; lia.
Qed.

(** X21: the gas a run leaves is the gas it was given minus the costs the
    loop charged, each cost being paid in full before the next opcode; no
    cost is negative, so gas never rises, and a run that starts with
    non-negative gas never leaves it negative. *)
Theorem gas_accounting (fuel : nat) (tracer : option TracerCallbacks)
    (ctx ctx' : ExecutionContext) (evs : list event)
    (Hrun : execute_message fuel tracer ctx = (evs, Returned ctx')) :
  gas_remaining (frame ctx') = gas_remaining (frame ctx) - charges evs /\
  0 <= charges evs /\
  (0 <= gas_remaining (frame ctx) -> 0 <= gas_remaining (frame ctx')).
Proof.
  unfold execute_message in Hrun.
  destruct (dispatch_loop_charges _ _ _ _ _ Hrun) as (Hpos & Hgas & Hleft).
  proj_simpl. repeat split; assumption.
Qed.

Lemma gas_accounting_witness :
  exists evs ctx',
    execute_message 10 None (blank_ctx simple_add 100 0) = (evs, Returned ctx') /\
    gas_remaining (frame ctx') =
      gas_remaining (frame (blank_ctx simple_add 100 0)) - charges evs /\
    0 <= charges evs /\
    (0 <= gas_remaining (frame (blank_ctx simple_add 100 0)) ->
     0 <= gas_remaining (frame ctx')).
Proof.
  eexists _, _. split; [vm_compute; reflexivity |].
  eapply (gas_accounting 10 None (blank_ctx simple_add 100 0)).
  vm_compute. reflexivity.
Defined.

(** ** Runs that dispatch nothing *)

(** X22: when the pc is not below [code_size] read as [int32_t] (so also
    when [code_size] is 2^31 or more) the run dispatches nothing, calls no
    tracer and ends in COMPLETED_SUCCESS with the rest of the frame
    untouched; when it is below and fewer than 3 gas are left, the run ends
    in EXCEPTIONAL_HALT with INSUFFICIENT_GAS (1) before the opcode is even
    read, whatever the opcode costs. *)
Theorem nothing_dispatched (fuel : nat) (tracer : option TracerCallbacks)
    (ctx : ExecutionContext) :
  (Int.to_i32 (code_size (frame ctx)) <= pc (frame ctx) ->
   execute_message (S fuel) tracer ctx = ([], Returned (upd (set_state 7) ctx))) /\
  (pc (frame ctx) < Int.to_i32 (code_size (frame ctx)) ->
   gas_remaining (frame ctx) < 3 ->
   execute_message (S fuel) tracer ctx = ([], Returned (halt 4 1 ctx))).
Proof.
  unfold execute_message. rewrite dispatch_loop_unfold. proj_simpl. split.
  - intros Hend.
    destruct (Z.ltb_spec (pc (frame ctx)) (Int.to_i32 (code_size (frame ctx))));
      [lia | reflexivity].
  - intros Hin Hgas.
    destruct (Z.ltb_spec (pc (frame ctx)) (Int.to_i32 (code_size (frame ctx))));
      [| lia].
    cbn [andb Z.eqb Pos.eqb].
    rewrite loop_body_floor by (proj_simpl; now apply Z.ltb_lt).
    reflexivity.
Qed.

Lemma nothing_dispatched_witness :
  execute_message 1 None huge_code_ctx =
    ([], Returned (upd (set_state 7) huge_code_ctx)) /\
  execute_message 1 None (blank_ctx [0x00] 2 0) =
    ([], Returned (halt 4 1 (blank_ctx [0x00] 2 0))).
Proof.
  split.
  - apply (nothing_dispatched 0 None huge_code_ctx). vm_compute. discriminate.
  - apply (nothing_dispatched 0 None (blank_ctx [0x00] 2 0)).
    + vm_compute. reflexivity.
    + vm_compute. reflexivity.
Defined.

(** ** Too few operands *)

Lemma stack_top_none ctx offset :
  stack_size (frame ctx) <= offset -> stack_top ctx offset = None.
Proof.
  intros H. unfold stack_top.
  destruct (Z.leb_spec (stack_size (frame ctx)) offset); [reflexivity | lia].
Qed.

Ltac underflow Hsize :=
  match goal with
  | |- context [stack_top ?c 0] =>
      destruct (stack_top c 0) eqn:E0; [| reflexivity];
      apply stack_top_inv in E0;
      rewrite stack_top_none by lia; reflexivity
  end.

Lemma binary_op_underflow f cost ctx :
  stack_size (frame ctx) < 2 -> binary_op f cost ctx = Some (error_result, ctx).
Proof. intros H. unfold binary_op. underflow H. Qed.

Lemma unary_op_underflow f cost ctx :
  stack_size (frame ctx) < 1 -> unary_op f cost ctx = Some (error_result, ctx).
Proof. intros H. unfold unary_op. now rewrite stack_top_none by lia. Qed.

Lemma op_pop_underflow ctx :
  stack_size (frame ctx) < 1 -> op_pop ctx = Some (error_result, ctx).
Proof.
  intros H. unfold op_pop, stack_free.
  destruct (Z.ltb_spec (stack_size (frame ctx)) 1); [reflexivity | lia].
Qed.

Lemma op_mload_underflow ctx :
  stack_size (frame ctx) < 1 -> op_mload ctx = Some (error_result, ctx).
Proof. intros H. unfold op_mload. now rewrite stack_top_none by lia. Qed.

Lemma op_mstore_underflow ctx :
  stack_size (frame ctx) < 2 -> op_mstore ctx = Some (error_result, ctx).
Proof. intros H. unfold op_mstore. underflow H. Qed.

Lemma op_mstore8_underflow ctx :
  stack_size (frame ctx) < 2 -> op_mstore8 ctx = Some (error_result, ctx).
Proof. intros H. unfold op_mstore8. underflow H. Qed.

Lemma op_sload_underflow ctx :
  stack_size (frame ctx) < 1 -> op_sload ctx = Some (error_result, ctx).
Proof. intros H. unfold op_sload. now rewrite stack_top_none by lia. Qed.

Lemma op_sstore_underflow ctx :
  is_static (frame ctx) = 0 ->
  stack_size (frame ctx) < 2 -> op_sstore ctx = Some (error_result, ctx).
Proof.
  intros Hst H. unfold op_sstore. rewrite Hst. cbn [Z.eqb negb]. underflow H.
Qed.

Lemma op_jump_underflow ctx :
  stack_size (frame ctx) < 1 -> op_jump ctx = Some (error_result, ctx).
Proof. intros H. unfold op_jump. now rewrite stack_top_none by lia. Qed.

Lemma op_jumpi_underflow ctx :
  stack_size (frame ctx) < 2 -> op_jumpi ctx = Some (error_result, ctx).
Proof. intros H. unfold op_jumpi. underflow H. Qed.

Lemma op_dup_n_underflow n ctx :
  stack_size (frame ctx) < n -> op_dup_n n ctx = Some (error_result, ctx).
Proof. intros H. unfold op_dup_n. now rewrite stack_top_none by lia. Qed.

Lemma op_swap_n_underflow n ctx :
  1 <= n -> stack_size (frame ctx) < n + 1 ->
  op_swap_n n ctx = Some (error_result, ctx).
Proof. intros Hn H. unfold op_swap_n. underflow H. Qed.

Lemma underflow_handler (opcode : Z) :
  0 <= opcode < 256 ->
  exists h, load JUMP_TABLE opcode = Some h /\
    forall ctx, 0 <= stack_size (frame ctx) < operands opcode ->
      (opcode = 0x45 -> is_static (frame ctx) = 0) ->
      h ctx = Some (error_result, ctx).
Proof.
  intros Hbyte. pattern opcode. apply (opcode_cases _ 0 256); [| lia].
  intros k Hk.
  do 256 (destruct k as [| k];
    [ eexists; split; [reflexivity |]; intros ctx Hsize Hstatic;
      match type of Hsize with
      | _ <= _ < operands ?o =>
          let v := eval vm_compute in (operands o) in
          change (operands o) with v in Hsize
      end;
      first [ lia
            | apply binary_op_underflow; lia
            | apply unary_op_underflow; lia
            | apply op_pop_underflow; lia
            | apply op_mload_underflow; lia
            | apply op_mstore_underflow; lia
            | apply op_mstore8_underflow; lia
            | apply op_sload_underflow; lia
            | apply op_sstore_underflow; [now apply Hstatic | lia]
            | apply op_jump_underflow; lia
            | apply op_jumpi_underflow; lia
            | apply op_dup_n_underflow; lia
            | apply op_swap_n_underflow; lia ] |]).
  lia.
Qed.

(** X23: when the stack holds fewer items than the dispatched handler asks
    for (two for the binary operations, MSTORE, MSTORE8, JUMPI and SSTORE
    in a non-static frame, one for ISZERO, NOT, POP, MLOAD, SLOAD and JUMP,
    [n] for DUPn, [n + 1] for SWAPn), the run ends in EXCEPTIONAL_HALT with
    [halt_reason = 4], the code of STACK_OVERFLOW (STACK_UNDERFLOW is 5);
    nothing is charged and nothing else changes. *)
Theorem operand_underflow_halt (tracer : option TracerCallbacks)
    (ctx : ExecutionContext) (opcode : Z)
    (Hfetch : load (code ctx) (pc (frame ctx)) = Some opcode)
    (Hbyte : 0 <= opcode < 256)
    (Hgas : 3 <= gas_remaining (frame ctx))
    (Hstate : state (frame ctx) = 1)
    (Hsize : 0 <= stack_size (frame ctx) < operands opcode)
    (Hstatic : opcode = 0x45 -> is_static (frame ctx) = 0) :
  snd (loop_body tracer ctx) = Exit (halt 4 (halt_code STACK_OVERFLOW) ctx).
Proof.
  destruct (underflow_handler opcode Hbyte) as (h & Htable & Hrun).
  rewrite (loop_body_error tracer ctx opcode h error_result ctx
             ltac:(now apply Z.ltb_ge) Hfetch Htable
             (Hrun ctx Hsize Hstatic) eq_refl).
  now rewrite Hstate.
Qed.

Lemma operand_underflow_halt_witness :
  snd (loop_body None (one_opcode 0x01 100)) =
  Exit (halt 4 (halt_code STACK_OVERFLOW) (one_opcode 0x01 100)).
Proof.
  apply (operand_underflow_halt None (one_opcode 0x01 100) 0x01).
  - reflexivity.
  - lia.
  - cbn. lia.
  - reflexivity.
  - cbn. lia.
  - discriminate.
Defined.

(** ** Bytes without an operation *)

Lemma stub_handler (opcode : Z) :
  is_stub opcode = true -> load JUMP_TABLE opcode = Some op_stub.
Proof.
  intros H.
  assert (Hbyte : 0 <= opcode < 0 + Z.of_nat 253).
  { unfold is_stub in H. cbn [existsb] in H.
    repeat match type of H with
           | (_ || _) = true => apply orb_true_iff in H; destruct H as [H | H]
           | (_ && _) = true => apply andb_true_iff in H; destruct H as [? H]
           end; bool_hyps; lia. }
  revert H. pattern opcode. apply (opcode_cases _ 0 253); [| exact Hbyte].
  intros k Hk.
  do 253 (destruct k as [| k];
    [ first [ intros _; reflexivity | intros H; vm_compute in H; discriminate H ] |]).
  lia.
Qed.

Lemma invalid_handler (opcode : Z) :
  is_invalid opcode = true -> load JUMP_TABLE opcode = Some op_invalid.
Proof.
  unfold is_invalid. intros H. apply andb_true_iff in H. destruct H as [Hlo Hhi].
  bool_hyps.
  assert (H : opcode = 0xfd \/ opcode = 0xfe \/ opcode = 0xff) by lia.
  destruct H as [-> | [-> | ->]]; reflexivity.
Qed.

(** X24: a byte the table gives no operation (among them 0x54 and 0x55,
    SLOAD and SSTORE in the EVM, whose handlers sit at 0x44 and 0x45) is
    not rejected: the pass charges 3 gas, steps the pc by one and changes
    nothing else.  Only 0xfd, 0xfe and 0xff end the run, in
    EXCEPTIONAL_HALT with INVALID_OPERATION (2), nothing charged. *)
Theorem unassigned_opcode_pass (traced : bool) (ctx : ExecutionContext)
    (opcode : Z)
    (Hfetch : load (code ctx) (pc (frame ctx)) = Some opcode)
    (Hgas : 3 <= gas_remaining (frame ctx))
    (Hpc : 0 <= pc (frame ctx) < 2 ^ 31 - 1) :
  (is_stub opcode = true ->
   snd (loop_body (tracer_of traced) ctx) =
   Next (upd (set_pc (pc (frame ctx) + 1))
           (upd (set_gas_remaining (gas_remaining (frame ctx) - 3)) ctx))) /\
  (is_invalid opcode = true ->
   snd (loop_body (tracer_of traced) ctx) =
   Exit (halt 4 (halt_code INVALID_OPERATION) ctx)).
Proof.
  assert (Hfloor : (gas_remaining (frame ctx) <? 3) = false)
    by (apply Z.ltb_ge; lia).
  split; intros Hop.
  - rewrite (loop_body_next traced ctx opcode op_stub (mkOpResult 1 3) ctx
               Hfloor Hfetch (stub_handler _ Hop) eq_refl eq_refl)
      by (apply Z.ltb_ge; proj_simpl; lia).
    unfold advanced, charged. proj_simpl. cbn [Z.ltb Z.compare].
    now rewrite to_i32_small by lia.
  - now rewrite (loop_body_error (tracer_of traced) ctx opcode op_invalid
                   error_result (halt 4 2 ctx)
                   Hfloor Hfetch (invalid_handler _ Hop) eq_refl eq_refl).
Qed.

Lemma unassigned_opcode_pass_witness :
  snd (loop_body (tracer_of false) (one_opcode 0x55 100)) =
    Next (upd (set_pc (pc (frame (one_opcode 0x55 100)) + 1))
            (upd (set_gas_remaining
                    (gas_remaining (frame (one_opcode 0x55 100)) - 3))
               (one_opcode 0x55 100))) /\
  snd (loop_body (tracer_of false) (one_opcode 0xfe 100)) =
    Exit (halt 4 (halt_code INVALID_OPERATION) (one_opcode 0xfe 100)).
Proof.
  split.
  - apply (unassigned_opcode_pass false (one_opcode 0x55 100) 0x55).
    + reflexivity.
    + cbn. lia.
    + cbn. lia.
    + reflexivity.
  - apply (unassigned_opcode_pass false (one_opcode 0xfe 100) 0xfe).
    + reflexivity.
    + cbn. lia.
    + cbn. lia.
    + reflexivity.
Defined.

(** ** Effects come before payment *)

(** X25: the loop compares the cost with the gas left only after the
    handler has run.  When the SSTORE handler succeeds and its cost is not
    covered, the run ends in EXCEPTIONAL_HALT with INSUFFICIENT_GAS (1) and
    nothing charged, but the write stays: the value is in the storage
    plane under its key and both operands are gone from the stack. *)
Theorem unpaid_sstore_persists (tracer : option TracerCallbacks)
    (ctx ctx1 : ExecutionContext) (r : OpResult) (key_word value_word : word)
    (Hfetch : load (code ctx) (pc (frame ctx)) = Some 0x45)
    (Hgas : 3 <= gas_remaining (frame ctx))
    (Hrun : op_sstore ctx = Some (r, ctx1))
    (Hok : 0 <= pc_increment r)
    (Hpoor : gas_remaining (frame ctx) < gas_cost r)
    (Hkey : load (stack_base ctx) (stack_size (frame ctx) - 1) = Some key_word)
    (Hvalue : load (stack_base ctx) (stack_size (frame ctx) - 2) = Some value_word)
    (Hcount : 0 <= storage_slot_count (frame ctx))
    (Hmax : max_storage_slots (frame ctx) < 2 ^ 32) :
  exists ctx' p e,
    snd (loop_body tracer ctx) = Exit ctx' /\
    state (frame ctx') = 4 /\ halt_reason (frame ctx') = 1 /\
    gas_remaining (frame ctx') = gas_remaining (frame ctx) /\
    storage.find (storage_base ctx') (storage_slot_count (frame ctx'))
      (contract (frame ctx)) key_word = Some (Some p) /\
    load (storage_base ctx') p = Some e /\ value e = value_word.
Proof.
  destruct (sstore_stores _ _ _ _ _ Hrun Hok Hkey Hvalue Hcount Hmax)
    as (_ & p & e & Hfind & He & Hv & _).
  destruct (op_sstore_ok _ _ _ Hrun) as (Hsame & _).
  exists (halt 4 1 ctx1), p, e. split.
  - apply (loop_body_out_of_gas tracer ctx 0x45 op_sstore r ctx1);
      try assumption; try reflexivity.
    + apply Z.ltb_ge. lia.
    + apply Z.ltb_ge. lia.
    + apply Z.ltb_lt. lia.
  - unfold halt. proj_simpl. repeat split; assumption.
Qed.

Lemma unpaid_sstore_persists_witness :
  exists ctx' p e,
    snd (loop_body None poor_sstore_ctx) = Exit ctx' /\
    state (frame ctx') = 4 /\ halt_reason (frame ctx') = 1 /\
    gas_remaining (frame ctx') = gas_remaining (frame poor_sstore_ctx) /\
    storage.find (storage_base ctx') (storage_slot_count (frame ctx'))
      (contract (frame poor_sstore_ctx)) (word_of_byte 9) = Some (Some p) /\
    load (storage_base ctx') p = Some e /\ value e = word_of_byte 42.
Proof.
  refine (unpaid_sstore_persists None poor_sstore_ctx _ _
            (word_of_byte 9) (word_of_byte 42) eq_refl _ _ _ _ eq_refl eq_refl _ _).
  - cbn. lia.
  - vm_compute. reflexivity.
  - vm_compute. discriminate.
  - vm_compute. reflexivity.
  - cbn. lia.
  - vm_compute. reflexivity.
Defined.

(** ** Tracers with one callback *)

Lemma loop_body_no_pre (post : bool) (ctx : ExecutionContext) :
  loop_body (Some (mkTracer false post)) ctx = loop_body None ctx.
Proof. reflexivity. Qed.

Lemma dispatch_loop_no_pre (post : bool) (fuel : nat) : forall ctx,
  dispatch_loop fuel (Some (mkTracer false post)) ctx = dispatch_loop fuel None ctx.
Proof.
  induction fuel as [| fuel IH]; intros ctx; [reflexivity |].
  rewrite !dispatch_loop_unfold, loop_body_no_pre.
  destruct ((pc (frame ctx) <? Int.to_i32 (code_size (frame ctx)))
            && (state (frame ctx) =? 1)); [| reflexivity].
  destruct (loop_body None ctx) as [evs [c | c |]]; try reflexivity.
  now rewrite IH.
Qed.

(** X26: the loop decides once, from [trace_pre_execution] alone, whether
    it traces.  A tracer without that callback is never called, so the run
    is the untraced one even if [trace_post_execution] is set; a tracer
    with it but without [trace_post_execution] makes the first pass whose
    handler succeeds and is paid for call a null pointer: the run has no
    defined result. *)
Theorem tracer_decided_by_pre_callback (fuel : nat) (post : bool)
    (ctx ctx1 : ExecutionContext) (opcode : Z) (h : OpHandler) (r : OpResult)
    (Hfetch : load (code ctx) (pc (frame ctx)) = Some opcode)
    (Htable : load JUMP_TABLE opcode = Some h)
    (Hrun : h ctx = Some (r, ctx1))
    (Hgas : 3 <= gas_remaining (frame ctx))
    (Hok : 0 <= pc_increment r)
    (Hpaid : gas_cost r <= gas_remaining (frame ctx1)) :
  execute_message fuel (Some (mkTracer false post)) ctx =
    execute_message fuel None ctx /\
  snd (loop_body (Some (mkTracer true false)) ctx) = Undefined.
Proof.
  split; [apply dispatch_loop_no_pre |].
  unfold loop_body.
  destruct (Z.ltb_spec (gas_remaining (frame ctx)) 3); [lia |].
  rewrite Hfetch, Htable. cbn [bind]. rewrite Hrun.
  destruct (Z.ltb_spec (pc_increment r) 0); [lia |].
  destruct (Z.ltb_spec (gas_remaining (frame ctx1)) (gas_cost r)); [lia |].
  reflexivity.
Qed.

Lemma tracer_decided_by_pre_callback_witness :
  execute_message 10 (Some (mkTracer false true)) (one_opcode 0x5b 100) =
    execute_message 10 None (one_opcode 0x5b 100) /\
  snd (loop_body (Some (mkTracer true false)) (one_opcode 0x5b 100)) = Undefined.
Proof.
  apply (tracer_decided_by_pre_callback 10 true (one_opcode 0x5b 100)
           (one_opcode 0x5b 100) 0x5b op_jumpdest (mkOpResult 1 1)).
  - reflexivity.
  - reflexivity.
  - reflexivity.
  - cbn. lia.
  - cbn. lia.
  - cbn. lia.
Defined.

(** ** The two interpreters *)

Lemma set_stack_size_twice (f : MessageFrameMemory) (a b : Z) :
  set_stack_size a (set_stack_size b f) = set_stack_size a f.
Proof. reflexivity. Qed.

Lemma bytewise_agree (f : Z -> Z -> Z) (a b : word) :
  (forall x y, f x y = f y x) ->
  bytewise f a b = jumptable.bytewise f a b.
Proof.
  intros Hcomm. unfold bytewise, jumptable.bytewise.
  apply map_ext. intros [x y]. apply Hcomm.
Qed.

Lemma pop_some ctx w :
  0 < stack_size (frame ctx) ->
  load (stack_base ctx) (stack_size (frame ctx) - 1) = Some w ->
  jumptable.stack_pop ctx =
  Some (Some w, upd (set_stack_size (stack_size (frame ctx) - 1)) ctx).
Proof.
  intros Hsize Hw. unfold jumptable.stack_pop.
  destruct (Z.eqb_spec (stack_size (frame ctx)) 0); [lia |].
  now rewrite Hw.
Qed.

Lemma push_result_some ctx w r s :
  stack_size (frame ctx) < 1024 ->
  store (stack_base ctx) (stack_size (frame ctx)) w = Some s ->
  jumptable.push_result ctx w r =
  Some (r, upd (set_stack_size (stack_size (frame ctx) + 1)) (set_stack s ctx)).
Proof.
  intros Hsize Hs. unfold jumptable.push_result, jumptable.stack_push.
  destruct (Z.leb_spec 1024 (stack_size (frame ctx))); [lia |].
  cbn [bind ret]. now rewrite Hs.
Qed.

Lemma ensure_memory_popped ctx n offset size :
  ensure_memory (upd (set_stack_size n) ctx) offset size =
  match ensure_memory ctx offset size with
  | Some (b, ctx1) => Some (b, upd (set_stack_size n) ctx1)
  | None => None
  end.
Proof.
  unfold ensure_memory. proj_simpl.
  destruct (size =? 0); [reflexivity |].
  destruct (Int.to_u64 (memory_size (frame ctx)) <? Int.to_u64 (offset + size));
    [| reflexivity].
  destruct (1024 * 1024 <? _); [reflexivity |].
  destruct (Int.to_u32 (memory_size (frame ctx)) <? _); [| reflexivity].
  destruct (store_range _ _ _); reflexivity.
Qed.

(** Both sides are the same record once the frame updates are merged. *)
Ltac same_result :=
  unfold ret;
  rewrite ?stack_free_enough by (proj_simpl; lia);
  unfold upd, set_frame, set_stack, set_memory, set_storage, set_stack_size,
    set_pc, set_memory_size, set_state, set_halt_reason, invalid_jump;
  proj_simpl;
  repeat match goal with
         | c : ExecutionContext |- _ => destruct c as [[] ? ? ? ?]
         end;
  proj_simpl;
  repeat (f_equal; try lia).

Ltac simplify_indices :=
  unfold peek in *;
  repeat match goal with
  | H : context [?a - 1 - 0] |- _ => rewrite (Z.sub_0_r (a - 1)) in H
  | H : context [?a - 1 - 1] |- _ =>
      replace (a - 1 - 1) with (a - 2) in H by lia
  end.

Ltac popped_index :=
  repeat match goal with
  | |- context [?a - 1 - 1] => replace (a - 1 - 1) with (a - 2) by lia
  | |- context [?a - 1 + 1] => replace (a - 1 + 1) with a by lia
  end;
  eassumption.

Lemma binary_op_agrees f f' cost :
  (forall a b, f a b = f' a b) ->
  agrees_on_success (binary_op f cost) (jumptable.binary_op f' cost).
Proof.
  intros Hf ctx r ctx' Hsize H Hok. unfold binary_op in H.
  run_handler H. all: helper_facts; proj_simpl; try lia.
  simplify_indices.
  unfold jumptable.binary_op.
  erewrite pop_some by (try eassumption; lia). cbn [bind].
  erewrite pop_some by (proj_simpl; first [lia | popped_index]).
  cbn [bind]. rewrite <- Hf.
  erewrite push_result_some by (proj_simpl; first [lia | popped_index]).
  same_result.
Qed.

Lemma unary_op_agrees f cost :
  agrees_on_success (unary_op f cost) (jumptable.unary_op f cost).
Proof.
  intros ctx r ctx' Hsize H Hok. unfold unary_op in H.
  run_handler H. all: helper_facts; proj_simpl; try lia.
  simplify_indices.
  unfold jumptable.unary_op.
  erewrite pop_some by (try eassumption; lia). cbn [bind].
  erewrite push_result_some by (proj_simpl; first [lia | popped_index]).
  same_result.
Qed.

Lemma op_pop_agrees : agrees_on_success op_pop jumptable.op_pop.
Proof.
  intros ctx r ctx' Hsize H Hok. unfold op_pop in H.
  run_handler H. all: helper_facts; proj_simpl; try lia.
  unfold jumptable.op_pop, jumptable.stack_drop.
  destruct (Z.eqb_spec (stack_size (frame ctx)) 0); [lia | reflexivity].
Qed.

Ltac keep_grant :=
  match goal with
  | E : ensure_memory _ _ _ = Some _ |- _ =>
      let G := fresh "Hgrant" in
      pose proof E as G;
      apply ensure_memory_inv in E; destruct E as (? & ? & ? & ? & ?)
  end.

Lemma op_mload_agrees : agrees_on_success op_mload jumptable.op_mload.
Proof.
  intros ctx r ctx' Hsize H Hok. unfold op_mload in H.
  run_handler H. all: try keep_grant. all: helper_facts; proj_simpl; try lia.
  simplify_indices.
  unfold jumptable.op_mload.
  erewrite pop_some by (try eassumption; lia). cbn [bind].
  rewrite ensure_memory_popped, Hgrant. cbn [bind]. proj_simpl.
  match goal with E : load_range _ _ _ = Some _ |- _ => rewrite E end.
  cbn [bind].
  erewrite push_result_some by (proj_simpl; first [lia | popped_index]).
  same_result.
Qed.

Lemma op_mstore_agrees : agrees_on_success op_mstore jumptable.op_mstore.
Proof.
  intros ctx r ctx' Hsize H Hok. unfold op_mstore in H.
  run_handler H. all: try keep_grant. all: helper_facts; proj_simpl; try lia.
  simplify_indices.
  unfold jumptable.op_mstore.
  erewrite pop_some by (try eassumption; lia). cbn [bind].
  erewrite pop_some by (proj_simpl; first [lia | popped_index]). cbn [bind].
  rewrite !ensure_memory_popped, Hgrant. cbn [bind]. proj_simpl.
  match goal with E : store_range _ _ _ = Some _ |- _ => rewrite E end.
  cbn [bind ret].
  same_result.
Qed.

Lemma op_mstore8_agrees : agrees_on_success op_mstore8 jumptable.op_mstore8.
Proof.
  intros ctx r ctx' Hsize H Hok. unfold op_mstore8 in H.
  run_handler H. all: try keep_grant. all: helper_facts; proj_simpl; try lia.
  simplify_indices.
  unfold jumptable.op_mstore8.
  erewrite pop_some by (try eassumption; lia). cbn [bind].
  erewrite pop_some by (proj_simpl; first [lia | popped_index]). cbn [bind].
  rewrite !ensure_memory_popped, Hgrant. cbn [bind]. proj_simpl.
  match goal with E : store _ _ _ = Some _ |- _ => rewrite E end.
  cbn [bind ret].
  same_result.
Qed.

Lemma op_jump_agrees : agrees_on_success op_jump jumptable.op_jump.
Proof.
  intros ctx r ctx' Hsize H Hok. unfold op_jump, invalid_jump in H.
  run_handler H. all: helper_facts; proj_simpl; try lia.
  simplify_indices.
  unfold jumptable.op_jump.
  erewrite pop_some by (try eassumption; lia). cbn [bind].
  match goal with E : bad_jump_dest _ _ = Some _ |- _ =>
    change (bad_jump_dest ctx (Int.to_u32 (word_to_u64 x)) = Some false) in E;
    change (bad_jump_dest (upd (set_stack_size (stack_size (frame ctx) - 1)) ctx)
              (Int.to_u32 (word_to_u64 x)))
      with (bad_jump_dest ctx (Int.to_u32 (word_to_u64 x)));
    rewrite E
  end.
  cbn [bind ret]. same_result.
Qed.

Lemma op_jumpi_agrees : agrees_on_success op_jumpi jumptable.op_jumpi.
Proof.
  intros ctx r ctx' Hsize H Hok. unfold op_jumpi, invalid_jump in H.
  run_handler H. all: helper_facts; proj_simpl; try lia.
  all: simplify_indices.
  all: unfold jumptable.op_jumpi.
  all: erewrite pop_some by (try eassumption; lia); cbn [bind].
  all: erewrite pop_some by (proj_simpl; first [lia | popped_index]); cbn [bind].
  all: match goal with E : negb (is_zero _) = _ |- _ => rewrite E end.
  - rewrite stack_free_enough in * by lia.
    match goal with E : bad_jump_dest _ _ = Some _ |- _ =>
      change (bad_jump_dest ctx (Int.to_u32 (word_to_u64 x)) = Some false) in E;
      change (bad_jump_dest
                (upd (set_stack_size
                        (stack_size
                           (frame (upd (set_stack_size (stack_size (frame ctx) - 1))
                                     ctx)) - 1))
                   (upd (set_stack_size (stack_size (frame ctx) - 1)) ctx))
                (Int.to_u32 (word_to_u64 x)))
        with (bad_jump_dest ctx (Int.to_u32 (word_to_u64 x)));
      rewrite E
    end.
    cbn [bind]. same_result.
  - same_result.
Qed.

Lemma push_word_agrees w r0 :
  agrees_on_success (push_word (fun ctx => ret (w ctx)) r0)
    (fun ctx => jumptable.push_result ctx
                  (w (upd (set_stack_size (stack_size (frame ctx) + 1)) ctx)) r0).
Proof.
  intros ctx r ctx' Hsize H Hok. unfold push_word in H.
  run_handler H. all: helper_facts; proj_simpl; try lia.
  erewrite push_result_some by (first [lia | eassumption]).
  same_result.
Qed.

Lemma op_push_n_agrees n :
  agrees_on_success (op_push_n n) (jumptable.op_push_n n).
Proof.
  intros ctx r ctx' Hsize H Hok. unfold op_push_n, push_word in H.
  run_handler H. all: helper_facts; proj_simpl; try lia.
  unfold jumptable.op_push_n.
  match goal with E : push_n_word _ _ = Some _ |- _ =>
    change (push_n_word n ctx = Some x) in E; rewrite E
  end.
  cbn [bind].
  erewrite push_result_some by (first [lia | eassumption]).
  same_result.
Qed.

Lemma op_dup_n_agrees n :
  agrees_on_success (op_dup_n n) (jumptable.op_dup_n n).
Proof.
  intros ctx r ctx' Hsize H Hok. unfold op_dup_n in H.
  run_handler H. all: helper_facts; proj_simpl; try lia.
  unfold peek in *. proj_simpl.
  unfold jumptable.op_dup_n, jumptable.stack_peek, jumptable.stack_push.
  destruct (Z.leb_spec (stack_size (frame ctx)) (n - 1)); [lia |].
  destruct (Z.leb_spec 1024 (stack_size (frame ctx))); [lia |].
  match goal with E : load _ _ = Some _ |- _ => rewrite E end.
  cbn [bind].
  match goal with E : store _ _ _ = Some _ |- _ => rewrite E end.
  cbn [bind ret]. same_result.
Qed.

Lemma op_swap_n_agrees n :
  agrees_on_success (op_swap_n n) (jumptable.op_swap_n n).
Proof. intros ctx r ctx' _ H _. exact H. Qed.

Lemma same_handler_agrees h : agrees_on_success h h.
Proof. intros ctx r ctx' _ H _. exact H. Qed.

Lemma op_invalid_agrees h' : agrees_on_success op_invalid h'.
Proof.
  intros ctx r ctx' _ H Hok. unfold op_invalid in H.
  apply ret_inv in H. injection H as <- _. cbn in Hok. lia.
Qed.

Lemma table_agrees (opcode : Z) :
  0 <= opcode < 256 -> opcode <> 0x44 -> opcode <> 0x45 ->
  exists h h',
    load JUMP_TABLE opcode = Some h /\
    load jumptable.JUMP_TABLE opcode = Some h' /\
    agrees_on_success h h'.
Proof.
  intros Hbyte. pattern opcode. apply (opcode_cases _ 0 256); [| lia].
  intros k Hk.
  do 256 (destruct k as [| k];
    [ intros H44 H45;
      first [ exfalso; lia | idtac ];
      eexists _, _; (split; [reflexivity |]); (split; [reflexivity |]);
      first [ apply same_handler_agrees
            | apply op_invalid_agrees
            | apply binary_op_agrees; intros; reflexivity
            | apply binary_op_agrees; intros;
              apply bytewise_agree;
              first [apply Z.land_comm | apply Z.lor_comm | apply Z.lxor_comm]
            | apply unary_op_agrees
            | apply op_pop_agrees | apply op_mload_agrees
            | apply op_mstore_agrees | apply op_mstore8_agrees
            | apply op_jump_agrees | apply op_jumpi_agrees
            | exact (push_word_agrees
                       (fun ctx => u64_to_word (Int.to_u64 (pc (frame ctx)))) _)
            | exact (push_word_agrees
                       (fun ctx => u64_to_word (Int.to_u64 (gas_remaining (frame ctx)))) _)
            | exact (push_word_agrees (fun _ => zero_word) _)
            | apply op_push_n_agrees | apply op_dup_n_agrees
            | apply op_swap_n_agrees ] |]).
  lia.
Qed.

Lemma fetched_plain ctx opcode :
  plain_code (code ctx) ->
  load (code ctx) (pc (frame ctx)) = Some opcode ->
  0 <= opcode < 256 /\ opcode <> 0x44 /\ opcode <> 0x45.
Proof.
  intros Hplain Hfetch. unfold load in Hfetch.
  destruct (pc (frame ctx) <? 0); [discriminate |].
  apply nth_error_In in Hfetch.
  exact (proj1 (Forall_forall _ _) Hplain _ Hfetch).
Qed.

(** A pass that does not end in a handler's error is the same pass in the
    copying interpreter. *)
Lemma loop_body_agrees tracer ctx evs res :
  plain_code (code ctx) ->
  0 <= stack_size (frame ctx) <= 1024 ->
  state (frame ctx) = 1 ->
  loop_body tracer ctx = (evs, res) ->
  match res with
  | Next _ => True
  | Exit c => halt_reason (frame c) = 1
  | Undefined => False
  end ->
  jumptable.loop_body tracer ctx = (evs, res).
Proof.
  intros Hplain Hsize Hstate H Hres.
  unfold jumptable.loop_body. unfold loop_body in H.
  destruct (gas_remaining (frame ctx) <? 3); [exact H |].
  destruct (load (code ctx) (pc (frame ctx))) as [opcode |] eqn:Hfetch;
    [| exact H].
  destruct (fetched_plain _ _ Hplain Hfetch) as (Hbyte & H44 & H45).
  destruct (table_agrees opcode Hbyte H44 H45) as (h & h' & Hh & Hh' & Hagree).
  rewrite Hh in H. rewrite Hh'. cbn [bind] in *.
  destruct (h ctx) as [[r ctx1] |] eqn:Hrun.
  - destruct (Z.ltb_spec (pc_increment r) 0) as [Herr | Hok].
    + exfalso. injection H as <- <-.
      destruct (dispatch_labels _ _ Hh _ _ _ Hrun)
        as [[Hs Hr] | [(_ & Hs & Hr) | (Hi & _)]]; [| | lia].
      * rewrite Hs, Hstate in Hres. cbn in Hres. discriminate.
      * rewrite Hs in Hres. cbn [Z.eqb Pos.eqb] in Hres. rewrite Hres in Hr.
        cbn [In] in Hr. intuition discriminate.
    + rewrite (Hagree _ _ _ Hsize Hrun Hok).
      destruct (Z.ltb_spec (pc_increment r) 0); [lia |]. exact H.
  - injection H as <- <-. contradiction.
Qed.

Lemma loop_body_code tracer ctx evs ctx' :
  loop_body tracer ctx = (evs, Next ctx') -> code ctx' = code ctx.
Proof.
  intros H. run_body H.
  all: inversion H; subst; clear H.
  all: match goal with
       | Hh : load JUMP_TABLE _ = Some ?h, E : ?h _ = Some _ |- _ =>
           destruct (dispatch_ok _ _ Hh _ _ _ E) as (_ & _ & Hc & _)
       end.
  all: repeat match goal with
       | |- context [if ?b then _ else _] => destruct b
       end; proj_simpl; exact Hc.
Qed.

Lemma dispatch_loop_agrees fuel tracer : forall ctx evs ctx',
  plain_code (code ctx) -> layout_inv (frame ctx) ->
  dispatch_loop fuel tracer ctx = (evs, Returned ctx') ->
  state (frame ctx') = 7 \/ halt_reason (frame ctx') = 1 ->
  jumptable.dispatch_loop fuel tracer ctx = (evs, Returned ctx').
Proof.
  induction fuel as [| fuel IH]; intros ctx evs ctx' Hplain Hinv H Hend;
    [discriminate |].
  cbn [jumptable.dispatch_loop].
  run_loop H Ebody Erest.
  - apply andb_true_iff in Hcond. destruct Hcond as [_ Hone]. bool_hyps.
    rewrite (loop_body_agrees _ _ _ _ Hplain (proj1 Hinv) Hone Ebody I).
    destruct (loop_body_layout _ _ _ _ Ebody Hinv) as [_ Hinv'].
    rewrite (IH _ _ _ ltac:(now rewrite (loop_body_code _ _ _ _ Ebody))
               Hinv' Erest Hend).
    reflexivity.
  - apply andb_true_iff in Hcond. destruct Hcond as [_ Hone]. bool_hyps.
    pose proof (loop_body_labels _ _ _ _ Ebody Hone) as [Hfour _].
    rewrite (loop_body_agrees _ _ _ _ Hplain (proj1 Hinv) Hone Ebody);
      [reflexivity |].
    destruct Hend as [Hseven | Hgas]; [congruence | exact Hgas].
  - reflexivity.
Qed.

(** X27: on code without the bytes 0x44 and 0x45, a run of this interpreter
    that ends in COMPLETED_SUCCESS or in INSUFFICIENT_GAS is, step for
    step, the run of the copying interpreter of [evm_jumptable.cpp]: the
    same tracer upcalls with the same frames, the same charges and the
    same final frame and planes. *)
Theorem copying_interpreter_agrees (fuel : nat)
    (tracer : option TracerCallbacks) (ctx ctx' : ExecutionContext)
    (evs : list event)
    (Hplain : plain_code (code ctx))
    (Hinv : layout_inv (frame ctx))
    (Hrun : execute_message fuel tracer ctx = (evs, Returned ctx'))
    (Hend : state (frame ctx') = 7 \/ halt_reason (frame ctx') = 1) :
  jumptable.execute_message fuel tracer ctx = (evs, Returned ctx').
Proof.
  unfold jumptable.execute_message. unfold execute_message in Hrun.
  apply dispatch_loop_agrees; assumption.
Qed.

Lemma copying_interpreter_agrees_witness :
  exists evs ctx',
    execute_message 10 (tracer_of true) (blank_ctx add_and_store 100 0) =
      (evs, Returned ctx') /\
    state (frame ctx') = 7 /\
    jumptable.execute_message 10 (tracer_of true) (blank_ctx add_and_store 100 0) =
      (evs, Returned ctx').
Proof.
  eexists _, _. split; [vm_compute; reflexivity |]. split; [reflexivity |].
  apply (copying_interpreter_agrees 10 (tracer_of true)
           (blank_ctx add_and_store 100 0)).
  - unfold plain_code, blank_ctx, add_and_store. cbn [code].
    repeat (apply Forall_cons; [lia |]). apply Forall_nil.
  - split; [cbn; lia | reflexivity].
  - vm_compute. reflexivity.
  - left. reflexivity.
Defined.

(** X28: where a handler fails, the two interpreters leave different
    stacks.  With one item on the stack, a two-operand handler of this
    interpreter returns its error with the item still there, while the
    copying one has popped it; and after a JUMP to an invalid destination
    (both set INVALID_JUMP_DESTINATION) the destination is still on this
    interpreter's stack and gone from the copying one's. *)
Theorem failing_handlers_differ (ctx : ExecutionContext) (w : word)
    (f : word -> word -> word) (cost : Z)
    (Hone : stack_size (frame ctx) = 1)
    (Htop : load (stack_base ctx) 0 = Some w)
    (Hw : is_word w) :
  (binary_op f cost ctx = Some (error_result, ctx) /\
   jumptable.binary_op f cost ctx =
     Some (error_result, upd (set_stack_size 0) ctx)) /\
  (invalid_target ctx (jump_target w) ->
   op_jump ctx = Some (error_result, halt 4 3 ctx) /\
   jumptable.op_jump ctx =
     Some (error_result, halt 4 3 (upd (set_stack_size 0) ctx))).
Proof.
  assert (Hpop : jumptable.stack_pop ctx = Some (Some w, upd (set_stack_size 0) ctx)).
  { rewrite (pop_some ctx w) by (rewrite Hone; first [lia | exact Htop]).
    now rewrite Hone. }
  split; [split |].
  - apply binary_op_underflow. lia.
  - unfold jumptable.binary_op. rewrite Hpop. cbn [bind].
    unfold jumptable.stack_pop. proj_simpl. reflexivity.
  - intros Hinvalid. split.
    + unfold op_jump. rewrite stack_top_some by lia. unfold peek.
      rewrite Hone. cbn [Z.sub Z.add Z.opp Z.pos_sub]. rewrite Htop. cbn [bind].
      rewrite jump_target_read by exact Hw.
      now rewrite (bad_jump_dest_invalid _ _ Hinvalid).
    + unfold jumptable.op_jump. rewrite Hpop. cbn [bind].
      rewrite jump_target_read by exact Hw.
      now rewrite (bad_jump_dest_invalid (upd (set_stack_size 0) ctx) _ Hinvalid).
Qed.

Lemma failing_handlers_differ_witness :
  (op_add (one_opcode 0x01 100) = Some (error_result, one_opcode 0x01 100) /\
   jumptable.op_add (one_opcode 0x01 100) =
     Some (error_result, upd (set_stack_size 0) (one_opcode 0x01 100))) /\
  op_jump (one_opcode 0x56 100) =
    Some (error_result, halt 4 3 (one_opcode 0x56 100)) /\
  jumptable.op_jump (one_opcode 0x56 100) =
    Some (error_result, halt 4 3 (upd (set_stack_size 0) (one_opcode 0x56 100))).
Proof.
  assert (Hw : is_word (word_of_byte 9)) by (apply word_of_byte_is_word; lia).
  split.
  - apply (failing_handlers_differ (one_opcode 0x01 100) (word_of_byte 9)
             (on_u64 (fun val_a val_b => Int.to_u64 (val_a + val_b))) 3
             eq_refl eq_refl Hw).
  - apply (failing_handlers_differ (one_opcode 0x56 100) (word_of_byte 9)
             (on_u64 (fun val_a val_b => Int.to_u64 (val_a + val_b))) 3
             eq_refl eq_refl Hw).
    left. vm_compute. discriminate.
Defined.
